(** * Location-history data core: cache service and history service

    A shallow embedding of
      src/app/features/location-history/services/location-cache.service.ts
      src/app/features/location-history/services/location-history.service.ts
    together with the properties of the cache, the statistics and the
    orchestration that the specification states about them.

    Conventions of the embedding.
    - JavaScript numbers that hold clock readings, counters and sizes are
      integers ([Z]); numbers that are divided or scaled (hit rate, speeds,
      headings, coordinates) are exact rationals ([Q]).  NaN, the infinities
      and binary rounding error are outside the model.
    - [Date.now()] is an explicit argument [now] of every operation that
      reads the clock.
    - A JavaScript [Map] is an association list in insertion order, because
      the eviction loop iterates it in that order.
    - The services are objects with mutable fields: their methods are
      computations of a small state monad over a record of those fields. *)

From Stdlib Require Import ZArith QArith Qround Qminmax Qabs List String Ascii Bool Lia.
From Stdlib Require Import DecimalString.
Import ListNotations.

Open Scope Z_scope.

(* ------------------------------------------------------------------ *)
(** ** models/location-history.interface.ts *)

Module Models.

Record LocationPoint : Type := mkLocationPoint {
  utcTime : string;
  lat : Q;
  lng : Q;
  speed : Q;
  alt : Q;
  dir : Q;
  timestamp_str : string;   (* field [timestamp] of the interface *)
  heading : Q;
  info : list string
}.

Record CacheEntry (T : Type) : Type := mkCacheEntry {
  data : T;
  timestamp : Z;
  ttl : Z;
  accessCount : Z;
  lastAccessed : Z
}.
Arguments mkCacheEntry {T} _ _ _ _ _.
Arguments data {T} _.
Arguments timestamp {T} _.
Arguments ttl {T} _.
Arguments accessCount {T} _.
Arguments lastAccessed {T} _.

Record CacheConfig : Type := mkCacheConfig {
  maxSize : Z;
  defaultTtl : Z;
  cleanupInterval : Z;
  enableMetrics : bool
}.

Record CacheMetrics : Type := mkCacheMetrics {
  hits : Z;
  misses : Z;
  evictions : Z;
  size : Z;
  hitRate : Q
}.

End Models.
Import Models.

(* ------------------------------------------------------------------ *)
(** ** The built-in [Map<string, V>], in insertion order *)

Module JsMap.
Section WithValue.
Context {V : Type}.

Definition t : Type := list (string * V).

Definition empty : t := [].

Fixpoint get (m : t) (k : string) : option V :=
  match m with
  | [] => None
  | (k', v) :: r => if String.eqb k' k then Some v else get r k
  end.

Definition has (m : t) (k : string) : bool :=
  match get m k with Some _ => true | None => false end.

(** [set] on a key already present keeps the key's position; a new key
    goes last. *)
Fixpoint set (m : t) (k : string) (v : V) : t :=
  match m with
  | [] => [(k, v)]
  | (k', v') :: r =>
      if String.eqb k' k then (k', v) :: r else (k', v') :: set r k v
  end.

Definition delete (m : t) (k : string) : t :=
  filter (fun kv => negb (String.eqb (fst kv) k)) m.

Definition size (m : t) : Z := Z.of_nat (List.length m).

Definition keys (m : t) : list string := map fst m.

(** A list is a map when no key occurs twice. *)
Definition wf (m : t) : Prop := NoDup (keys m).

End WithValue.
Arguments t : clear implicits.
End JsMap.

(* ------------------------------------------------------------------ *)
(** ** Methods of an object with mutable fields: a state monad *)

Module SM.

Definition M (S A : Type) : Type := S -> A * S.

Definition ret {S A} (a : A) : M S A := fun s => (a, s).
Definition bind {S A B} (c : M S A) (k : A -> M S B) : M S B :=
  fun s => let (a, s') := c s in k a s'.
Definition gets {S A} (f : S -> A) : M S A := fun s => (f s, s).
Definition modify {S} (f : S -> S) : M S unit := fun s => (tt, f s).
Definition when {S} (b : bool) (c : M S unit) : M S unit :=
  if b then c else ret tt.

Definition exec {S A} (c : M S A) (s : S) : S := snd (c s).
Definition eval {S A} (c : M S A) (s : S) : A := fst (c s).

(** Run a method of a component object held in a field. *)
Definition lift {S S' A} (getf : S -> S') (setf : S' -> S -> S)
  (c : M S' A) : M S A :=
  fun s => let (a, s') := c (getf s) in (a, setf s' s).

Declare Scope sm_scope.
Delimit Scope sm_scope with sm.
Notation "x <- c ;; k" := (bind c (fun x => k))
  (at level 61, c at next level, right associativity) : sm_scope.
Notation "c ;; k" := (bind c (fun _ => k))
  (at level 61, right associativity) : sm_scope.

End SM.
Import SM.
Local Open Scope sm_scope.

(* ------------------------------------------------------------------ *)
(** ** services/location-cache.service.ts *)

Module Cache.

Definition DatesMap : Type := JsMap.t (CacheEntry (list Z)).
Definition LocationsMap : Type := JsMap.t (CacheEntry (list LocationPoint)).

(** The mutable fields of [LocationCacheService].  [metricsSize] is the
    memory of the computed signal [metrics]: the [size] it computed when
    it was last read, or nothing when [_metrics] has been set since (or
    the signal was never read), so that the next read computes it
    anew. *)
Record State : Type := mkState {
  config : CacheConfig;
  availableDatesCache : DatesMap;
  locationDataCache : LocationsMap;
  _metrics : CacheMetrics;
  metricsSize : option Z
}.

Definition zeroMetrics : CacheMetrics :=
  {| hits := 0; misses := 0; evictions := 0; size := 0; hitRate := 0%Q |}.

Definition initialConfig : CacheConfig :=
  {| maxSize := 100; defaultTtl := 600000; cleanupInterval := 300000;
     enableMetrics := true |}.

Definition initial : State :=
  {| config := initialConfig;
     availableDatesCache := JsMap.empty;
     locationDataCache := JsMap.empty;
     _metrics := zeroMetrics;
     metricsSize := None |}.

(** The service's methods are computations over its fields. *)
Definition M (A : Type) : Type := SM.M State A.

(** A reference to one of the two [Map] fields: the generic helpers of the
    service receive the map they work on as an argument. *)
Record CacheRef (T : Type) : Type := mkRef {
  read : State -> JsMap.t (CacheEntry T);
  write : JsMap.t (CacheEntry T) -> State -> State
}.
Arguments read {T} _ _.
Arguments write {T} _ _ _.

Definition availableDatesRef : CacheRef (list Z) :=
  {| read := availableDatesCache;
     write := fun m s =>
       {| config := config s; availableDatesCache := m;
          locationDataCache := locationDataCache s;
          _metrics := _metrics s;
          metricsSize := metricsSize s |} |}.

Definition locationDataRef : CacheRef (list LocationPoint) :=
  {| read := locationDataCache;
     write := fun m s =>
       {| config := config s;
          availableDatesCache := availableDatesCache s;
          locationDataCache := m;
          _metrics := _metrics s;
          metricsSize := metricsSize s |} |}.

(** [_metrics.set(x)]: every call passes a new object, so the signal
    notifies and the computed signal that depends on it forgets its
    value. *)
Definition with_metrics (x : CacheMetrics) (s : State) : State :=
  {| config := config s;
     availableDatesCache := availableDatesCache s;
     locationDataCache := locationDataCache s;
     _metrics := x;
     metricsSize := None |}.

Definition setMetrics (m : CacheMetrics) : M unit :=
  modify (with_metrics m).

(** [metrics]: the computed signal; [metrics s] is what a read of it
    returns in [s].  The signal depends on [_metrics] alone (the two
    maps are no signals): it runs its function at the first read after
    [_metrics] was set and returns the value it remembers at every other
    read.  So [hits], [misses], [evictions] and [hitRate] always follow
    [_metrics], while [size] is the number of entries the maps held when
    the function last ran. *)
Definition metrics (s : State) : CacheMetrics :=
  let current := _metrics s in
  let totalRequests := hits current + misses current in
  {| hits := hits current;
     misses := misses current;
     evictions := evictions current;
     hitRate :=
       if 0 <? totalRequests
       then ((inject_Z (hits current) / inject_Z totalRequests) * 100)%Q
       else 0%Q;
     size := match metricsSize s with
             | Some remembered => remembered
             | None => JsMap.size (availableDatesCache s)
                       + JsMap.size (locationDataCache s)
             end |}.

(** A read [metrics()], by a consumer or by the logging effect of the
    constructor: the value is returned and remembered. *)
Definition readMetrics : M CacheMetrics :=
  value <- gets metrics ;;
  modify (fun s =>
    {| config := config s;
       availableDatesCache := availableDatesCache s;
       locationDataCache := locationDataCache s;
       _metrics := _metrics s;
       metricsSize := Some (size value) |}) ;;
  ret value.

Definition updateMetrics (isHit : bool) : M unit :=
  cfg <- gets config ;;
  if negb (enableMetrics cfg) then ret tt else
  current <- gets _metrics ;;
  setMetrics
    {| hits := if isHit then hits current + 1 else hits current;
       misses := if isHit then misses current else misses current + 1;
       evictions := evictions current;
       size := size current;
       hitRate := hitRate current |}.

Definition updateEvictionMetrics (count : Z) : M unit :=
  cfg <- gets config ;;
  if negb (enableMetrics cfg) then ret tt else
  current <- gets _metrics ;;
  setMetrics
    {| hits := hits current;
       misses := misses current;
       evictions := evictions current + count;
       size := size current;
       hitRate := hitRate current |}.

Definition resetMetrics : M unit := setMetrics zeroMetrics.

Definition isExpired {T} (entry : CacheEntry T) (now : Z) : bool :=
  ttl entry <? now - timestamp entry.

(** [getCachedData]: the entry object found in the map is updated in
    place, so it keeps its position in the map. *)
Definition getCachedData {T} (cache : CacheRef T) (key : string) (now : Z)
  : M (option T) :=
  m <- gets (read cache) ;;
  match JsMap.get m key with
  | None => ret None
  | Some entry =>
      if isExpired entry now then
        modify (write cache (JsMap.delete m key)) ;;
        updateEvictionMetrics 1 ;;
        ret None
      else
        modify (write cache
          (JsMap.set m key
             {| data := data entry;
                timestamp := timestamp entry;
                ttl := ttl entry;
                accessCount := accessCount entry + 1;
                lastAccessed := now |})) ;;
        ret (Some (data entry))
  end.

(** The loop of [evictLeastRecentlyUsed]: [oldestKey] starts as [null]
    and [oldestTime] as [Date.now()]. *)
Definition oldestStep {T} (acc : option string * Z)
  (kv : string * CacheEntry T) : option string * Z :=
  if lastAccessed (snd kv) <? snd acc
  then (Some (fst kv), lastAccessed (snd kv))
  else acc.

Definition findOldest {T} (m : JsMap.t (CacheEntry T)) (now : Z)
  : option string * Z :=
  fold_left oldestStep m (None, now).

(** Truthiness of a string: the empty string is falsy. *)
Definition truthy (k : string) : bool :=
  match k with EmptyString => false | _ => true end.

Definition evictLeastRecentlyUsed {T} (cache : CacheRef T) (now : Z)
  : M unit :=
  m <- gets (read cache) ;;
  match fst (findOldest m now) with
  | Some oldestKey =>
      if truthy oldestKey then
        modify (write cache (JsMap.delete m oldestKey)) ;;
        updateEvictionMetrics 1
      else ret tt
  | None => ret tt
  end.

(** [setCachedData]: the clock readings of the eviction loop and of the
    new entry belong to the same call and are taken as one instant. *)
Definition setCachedData {T} (cache : CacheRef T) (key : string) (d : T)
  (ttl_ : Z) (now : Z) : M unit :=
  m <- gets (read cache) ;;
  cfg <- gets config ;;
  when ((maxSize cfg <=? JsMap.size m) && negb (JsMap.has m key))
       (evictLeastRecentlyUsed cache now) ;;
  m' <- gets (read cache) ;;
  modify (write cache
    (JsMap.set m' key
       {| data := d; timestamp := now; ttl := ttl_;
          accessCount := 1; lastAccessed := now |})).

Definition hasValidCacheEntry {T} (cache : CacheRef T) (key : string)
  (now : Z) : M bool :=
  m <- gets (read cache) ;;
  match JsMap.get m key with
  | None => ret false
  | Some entry => ret (negb (isExpired entry now))
  end.

(** One [for ... of cache.entries()] loop of [removeExpiredEntries]:
    entries are visited in order and expired ones deleted from the map. *)
Definition sweepStep {T} (now : Z) (acc : JsMap.t (CacheEntry T) * Z)
  (kv : string * CacheEntry T) : JsMap.t (CacheEntry T) * Z :=
  if isExpired (snd kv) now
  then (JsMap.delete (fst acc) (fst kv), snd acc + 1)
  else acc.

Definition sweep {T} (cache : CacheRef T) (now : Z) (count : Z) : M Z :=
  m <- gets (read cache) ;;
  let r := fold_left (sweepStep now) m (m, count) in
  modify (write cache (fst r)) ;;
  ret (snd r).

Definition removeExpiredEntries (now : Z) : M Z :=
  c1 <- sweep availableDatesRef now 0 ;;
  sweep locationDataRef now c1.

(** *** Public methods *)

Definition getAvailableDates (key : string) (now : Z) : M (option (list Z)) :=
  result <- getCachedData availableDatesRef key now ;;
  updateMetrics (match result with Some _ => true | None => false end) ;;
  ret result.

Definition setAvailableDates (key : string) (d : list Z)
  (ttl_ : option Z) (now : Z) : M unit :=
  cfg <- gets config ;;
  setCachedData availableDatesRef key d
    (match ttl_ with Some x => x | None => defaultTtl cfg end) now.

Definition getLocationData (key : string) (now : Z)
  : M (option (list LocationPoint)) :=
  result <- getCachedData locationDataRef key now ;;
  updateMetrics (match result with Some _ => true | None => false end) ;;
  ret result.

Definition setLocationData (key : string) (d : list LocationPoint)
  (ttl_ : option Z) (now : Z) : M unit :=
  cfg <- gets config ;;
  setCachedData locationDataRef key d
    (match ttl_ with Some x => x | None => defaultTtl cfg * 2 end) now.

Definition hasAvailableDates (key : string) (now : Z) : M bool :=
  hasValidCacheEntry availableDatesRef key now.

Definition hasLocationData (key : string) (now : Z) : M bool :=
  hasValidCacheEntry locationDataRef key now.

Definition clearAll : M unit :=
  modify (write availableDatesRef JsMap.empty) ;;
  modify (write locationDataRef JsMap.empty) ;;
  resetMetrics.

Definition clearExpired (now : Z) : M Z :=
  expiredCount <- removeExpiredEntries now ;;
  updateEvictionMetrics expiredCount ;;
  ret expiredCount.

(** [updateConfig]: [Object.assign] of a partial configuration (the
    restart of the sweep timer is not part of the state). *)
Record PartialCacheConfig : Type := mkPartial {
  p_maxSize : option Z;
  p_defaultTtl : option Z;
  p_cleanupInterval : option Z;
  p_enableMetrics : option bool
}.

Definition updateConfig (newConfig : PartialCacheConfig) : M unit :=
  modify (fun s =>
    let c := config s in
    {| config :=
         {| maxSize := match p_maxSize newConfig with
                       | Some x => x | None => maxSize c end;
            defaultTtl := match p_defaultTtl newConfig with
                          | Some x => x | None => defaultTtl c end;
            cleanupInterval := match p_cleanupInterval newConfig with
                               | Some x => x | None => cleanupInterval c end;
            enableMetrics := match p_enableMetrics newConfig with
                             | Some x => x | None => enableMetrics c end |};
       availableDatesCache := availableDatesCache s;
       locationDataCache := locationDataCache s;
       _metrics := _metrics s;
       metricsSize := metricsSize s |}).

End Cache.

(* ------------------------------------------------------------------ *)
(** ** services/location-history.service.ts *)

Module History.

Record EnhancedLocationPoint : Type := mkEnhanced {
  point : LocationPoint;
  formattedTime : string;
  speedKmh : Z;
  directionText : option string;          (* [None]: [undefined] *)
  distanceFromPrevious : option Q         (* optional field *)
}.

Record LatLngBounds : Type := mkBounds {
  sw_lat : Q; sw_lng : Q; ne_lat : Q; ne_lng : Q
}.

(** Times of [Date] objects are [getTime()] values; [None] is the
    invalid date, whose time value is NaN. *)
Record LocationStatistics : Type := mkStatistics {
  totalPoints : Z;
  totalDistance : Q;
  maxSpeed : Z;
  averageSpeed : Q;
  duration : option Z;
  startTime : option Z;
  endTime : option Z;
  bounds : LatLngBounds
}.

Record LocationDataResponse : Type := mkLocationDataResponse {
  r_data : option (list LocationPoint);   (* [None]: null or missing *)
  r_code : Z;
  r_message : string
}.

Record AvailableDatesResponse : Type := mkAvailableDatesResponse {
  a_data : option (list Z);
  a_code : Z;
  a_message : string
}.

(** [Math.round]: the nearest integer, halves towards plus infinity. *)
Definition Math_round (x : Q) : Z := Qfloor (x + (1 # 2)).

(** Template-literal rendering of an integer number. *)
Definition numberToString (n : Z) : string :=
  NilZero.string_of_int (Z.to_int n).

Definition directions : list string :=
  ["N"; "NE"; "E"; "SE"; "S"; "SW"; "W"; "NW"]%string.

(** Array indexing: an index outside the array gives [undefined]. *)
Definition index_array {A} (l : list A) (i : Z) : option A :=
  if i <? 0 then None else nth_error l (Z.to_nat i).

(** [getDirectionText]; the operator [%] is the truncated remainder. *)
Definition getDirectionText (heading : Q) : option string :=
  let index := Z.rem (Math_round (heading / 45)) 8 in
  index_array directions index.

(** [retry({ count })] over a cold source: [source i] is the outcome of
    the [i]-th subscription ([None]: error or timeout).  The result comes
    with the number of subscriptions made. *)
Fixpoint retry {A} (count : nat) (source : nat -> option A) (i : nat)
  : option A * nat :=
  match source i with
  | Some r => (Some r, S i)
  | None =>
      match count with
      | O => (None, S i)
      | S c => retry c source (S i)
      end
  end.

Section Service.

(** The platform's [Date] and the numeric library are parameters: a date
    value, its [toDateString()], the date [offset] days away (the copy
    followed by [setDate(getDate() + offset)]), the time value of
    [new Date(text)], its [toLocaleString()], and the haversine formula of
    [calculateDistance], whose trigonometry has no rational model. *)
Variable DateT : Type.
Variable toDateString : DateT -> string.
Variable addDays : DateT -> Z -> DateT.
Variable getTime : string -> option Z.
Variable toLocaleString : string -> string.
Variable calculateDistance : Q * Q -> Q * Q -> Q.

Inductive Request : Type :=
| PlaybackExist (targetId year month : Z)
| Playback (targetId : Z) (date : DateT).

(** The fields of [LocationHistoryService]; [httpLog] records the requests
    sent to the archive, most recent first. *)
Record State : Type := mkState {
  selectedDevice : option Z;
  selectedDate : option DateT;
  availableDates : JsMap.t (list Z);
  locationData : list LocationPoint;
  loading : bool;
  error : option string;
  _statistics : option LocationStatistics;
  _lastUpdated : option Z;
  cacheService : Cache.State;
  httpLog : list Request
}.

Definition initial : State :=
  {| selectedDevice := None; selectedDate := None;
     availableDates := JsMap.empty; locationData := [];
     loading := false; error := None; _statistics := None;
     _lastUpdated := None; cacheService := Cache.initial;
     httpLog := [] |}.

Definition M (A : Type) : Type := SM.M State A.

Definition set_selectedDevice (v : option Z) (s : State) : State :=
  mkState v (selectedDate s) (availableDates s) (locationData s)
    (loading s) (error s) (_statistics s) (_lastUpdated s)
    (cacheService s) (httpLog s).
Definition set_selectedDate (v : option DateT) (s : State) : State :=
  mkState (selectedDevice s) v (availableDates s) (locationData s)
    (loading s) (error s) (_statistics s) (_lastUpdated s)
    (cacheService s) (httpLog s).
Definition set_availableDates (v : JsMap.t (list Z)) (s : State) : State :=
  mkState (selectedDevice s) (selectedDate s) v (locationData s)
    (loading s) (error s) (_statistics s) (_lastUpdated s)
    (cacheService s) (httpLog s).
Definition set_locationData (v : list LocationPoint) (s : State) : State :=
  mkState (selectedDevice s) (selectedDate s) (availableDates s) v
    (loading s) (error s) (_statistics s) (_lastUpdated s)
    (cacheService s) (httpLog s).
Definition set_loading (v : bool) (s : State) : State :=
  mkState (selectedDevice s) (selectedDate s) (availableDates s)
    (locationData s) v (error s) (_statistics s) (_lastUpdated s)
    (cacheService s) (httpLog s).
Definition set_error (v : option string) (s : State) : State :=
  mkState (selectedDevice s) (selectedDate s) (availableDates s)
    (locationData s) (loading s) v (_statistics s) (_lastUpdated s)
    (cacheService s) (httpLog s).
Definition set_statistics (v : option LocationStatistics) (s : State)
  : State :=
  mkState (selectedDevice s) (selectedDate s) (availableDates s)
    (locationData s) (loading s) (error s) v (_lastUpdated s)
    (cacheService s) (httpLog s).
Definition set_lastUpdated (v : option Z) (s : State) : State :=
  mkState (selectedDevice s) (selectedDate s) (availableDates s)
    (locationData s) (loading s) (error s) (_statistics s) v
    (cacheService s) (httpLog s).
Definition set_cacheService (v : Cache.State) (s : State) : State :=
  mkState (selectedDevice s) (selectedDate s) (availableDates s)
    (locationData s) (loading s) (error s) (_statistics s)
    (_lastUpdated s) v (httpLog s).
Definition set_httpLog (v : list Request) (s : State) : State :=
  mkState (selectedDevice s) (selectedDate s) (availableDates s)
    (locationData s) (loading s) (error s) (_statistics s)
    (_lastUpdated s) (cacheService s) v.

(** A call of a method of the injected cache service. *)
Definition cache {A} (c : Cache.M A) : M A :=
  SM.lift cacheService set_cacheService c.

Definition send (n : nat) (r : Request) : M unit :=
  modify (fun s => set_httpLog (repeat r n ++ httpLog s) s).

(** *** Private helpers *)

Definition updateLocationDataState (locations : list LocationPoint)
  : M unit := modify (set_locationData locations).

Definition updateAvailableDatesState (cacheKey : string) (dates : list Z)
  : M unit :=
  modify (fun s =>
    set_availableDates (JsMap.set (availableDates s) cacheKey dates) s).

Definition setLoading (b : bool) : M unit := modify (set_loading b).

Definition clearError : M unit := modify (set_error None).

Definition handleError (message : string) : M unit :=
  modify (set_error (Some message)).

Fixpoint enhanceFrom (prev : option LocationPoint)
  (l : list LocationPoint) : list EnhancedLocationPoint :=
  match l with
  | [] => []
  | p :: r =>
      {| point := p;
         formattedTime := toLocaleString (utcTime p);
         speedKmh := Math_round (speed p * (36 # 10));
         directionText := getDirectionText (heading p);
         distanceFromPrevious :=
           match prev with
           | Some prevPoint =>
               Some (calculateDistance (lat prevPoint, lng prevPoint)
                                       (lat p, lng p))
           | None => None
           end |}
      :: enhanceFrom (Some p) r
  end.

(** [enhanceLocationData]: [data.map((point, index) => ...)], where the
    previous point exists from index 1 on. *)
Definition enhanceLocationData (l : list LocationPoint)
  : list EnhancedLocationPoint := enhanceFrom None l.

Definition sumQ (l : list Q) : Q := fold_left Qplus l 0%Q.
Definition sumZ (l : list Z) : Z := fold_left Z.add l 0.

(** [Math.max(...l)] and [Math.min(...l)] on a non-empty array. *)
Definition Math_maxZ (x : Z) (l : list Z) : Z := fold_left Z.max l x.
Definition Math_maxQ (x : Q) (l : list Q) : Q := fold_left Qmax l x.
Definition Math_minQ (x : Q) (l : list Q) : Q := fold_left Qmin l x.

Definition positiveSpeeds (enhanced : list EnhancedLocationPoint)
  : list Z := filter (fun s => 0 <? s) (map speedKmh enhanced).

Definition maxSpeedOf (speeds : list Z) : Z :=
  match speeds with
  | [] => 0
  | x :: r => Math_maxZ x r
  end.

Definition averageSpeedOf (speeds : list Z) : Q :=
  match speeds with
  | [] => 0%Q
  | _ :: _ =>
      (inject_Z (sumZ speeds) / inject_Z (Z.of_nat (List.length speeds)))%Q
  end.

(** The record that [updateStatistics] stores for a track whose first
    point is [first]. *)
Definition statisticsOf (first : LocationPoint)
  (rest : list LocationPoint) : LocationStatistics :=
  let locations := first :: rest in
  let enhanced := enhanceLocationData locations in
  let speeds := positiveSpeeds enhanced in
  let distances :=
    map (fun p => match distanceFromPrevious p with
                  | Some d => d | None => 0%Q end) enhanced in
  let start_ := getTime (utcTime first) in
  let end_ := getTime (utcTime (last locations first)) in
  {| totalPoints := Z.of_nat (List.length locations);
     totalDistance := sumQ distances;
     maxSpeed := maxSpeedOf speeds;
     averageSpeed := averageSpeedOf speeds;
     duration :=
       match end_, start_ with
       | Some e, Some b => Some (e - b)
       | _, _ => None
       end;
     startTime := start_;
     endTime := end_;
     bounds :=
       {| sw_lat := Math_minQ (lat first) (map lat rest);
          sw_lng := Math_minQ (lng first) (map lng rest);
          ne_lat := Math_maxQ (lat first) (map lat rest);
          ne_lng := Math_maxQ (lng first) (map lng rest) |} |}.

Definition computeStatistics (locations : list LocationPoint)
  : option LocationStatistics :=
  match locations with
  | [] => None
  | first :: rest => Some (statisticsOf first rest)
  end.

Definition updateStatistics (locations : list LocationPoint) : M unit :=
  modify (set_statistics (computeStatistics locations)).

Definition locationKey (targetId : Z) (date : DateT) : string :=
  (numberToString targetId ++ "-" ++ toDateString date)%string.

(** A prefetch that [prefetchAdjacentDates] has subscribed to: it fires
    after its one-second timer. *)
Record Prefetch : Type := mkPrefetch {
  pf_targetId : Z;
  pf_date : DateT;
  pf_key : string
}.

Definition prefetchOne (targetId : Z) (currentDate : DateT) (now : Z)
  (offset : Z) : M (list Prefetch) :=
  let adjacentDate := addDays currentDate offset in
  let cacheKey := locationKey targetId adjacentDate in
  present <- cache (Cache.hasLocationData cacheKey now) ;;
  if negb present
  then ret [ {| pf_targetId := targetId; pf_date := adjacentDate;
                pf_key := cacheKey |} ]
  else ret [].

Definition prefetchAdjacentDates (targetId : Z) (currentDate : DateT)
  (now : Z) : M (list Prefetch) :=
  before <- prefetchOne targetId currentDate now (-1) ;;
  after <- prefetchOne targetId currentDate now 1 ;;
  ret (before ++ after).

(** The pipeline of one scheduled prefetch when its timer fires at [now]:
    one request, no retry, the data of any response stored, an error
    replaced by an empty emission. *)
Definition prefetchRun (p : Prefetch)
  (outcome : option LocationDataResponse) (now : Z) : M unit :=
  send 1 (Playback (pf_targetId p) (pf_date p)) ;;
  match outcome with
  | Some response =>
      let locations :=
        match r_data response with Some d => d | None => [] end in
      cache (Cache.setLocationData (pf_key p) locations None now)
  | None => ret tt
  end.

(** *** Public methods *)

(** [getLocationData], subscribed to.  The cache is read at [now]; the
    response (after up to two retries) is handled at [later].  The result
    is the emitted track and the prefetches scheduled. *)
Definition getLocationData (targetId : Z) (date : DateT)
  (remote : nat -> option LocationDataResponse) (now later : Z)
  : M (list LocationPoint * list Prefetch) :=
  let cacheKey := locationKey targetId date in
  cached <- cache (Cache.getLocationData cacheKey now) ;;
  match cached with
  | Some c =>
      updateLocationDataState c ;;
      ret (c, [])
  | None =>
      setLoading true ;;
      clearError ;;
      let (response, attempts) := retry 2 remote 0 in
      send attempts (Playback targetId date) ;;
      result <-
        match response with
        | Some r =>
            if r_code r =? 200 then
              let locations :=
                match r_data r with Some d => d | None => [] end in
              cache (Cache.setLocationData cacheKey locations None later) ;;
              updateLocationDataState locations ;;
              updateStatistics locations ;;
              modify (set_lastUpdated (Some later)) ;;
              scheduled <- prefetchAdjacentDates targetId date later ;;
              ret (locations, scheduled)
            else
              handleError "Failed to load location data" ;;
              updateLocationDataState [] ;;
              ret ([], [])
        | None =>
            handleError "Failed to load location data" ;;
            updateLocationDataState [] ;;
            ret ([], [])
        end ;;
      setLoading false ;;
      ret result
  end.

Definition availabilityKey (targetId year month : Z) : string :=
  (numberToString targetId ++ "-" ++ numberToString year ++ "-"
     ++ numberToString month)%string.

Definition getAvailableDates (targetId year month : Z)
  (remote : nat -> option AvailableDatesResponse) (now later : Z)
  : M (list Z) :=
  let cacheKey := availabilityKey targetId year month in
  cached <- cache (Cache.getAvailableDates cacheKey now) ;;
  match cached with
  | Some c =>
      updateAvailableDatesState cacheKey c ;;
      ret c
  | None =>
      setLoading true ;;
      clearError ;;
      let (response, attempts) := retry 2 remote 0 in
      send attempts (PlaybackExist targetId year month) ;;
      result <-
        match response with
        | Some r =>
            if a_code r =? 200 then
              let dates :=
                match a_data r with Some d => d | None => [] end in
              cache (Cache.setAvailableDates cacheKey dates None later) ;;
              updateAvailableDatesState cacheKey dates ;;
              ret dates
            else
              handleError "Failed to load available dates" ;;
              ret []
        | None =>
            handleError "Failed to load available dates" ;;
            ret []
        end ;;
      setLoading false ;;
      ret result
  end.

Definition setSelectedDevice (deviceId : option Z) : M unit :=
  modify (set_selectedDevice deviceId) ;;
  clearError.

Definition setSelectedDate (date : option DateT) : M unit :=
  modify (set_selectedDate date) ;;
  clearError.

Definition clearData : M unit :=
  modify (set_selectedDevice None) ;;
  modify (set_selectedDate None) ;;
  modify (set_locationData []) ;;
  modify (set_availableDates JsMap.empty) ;;
  modify (set_statistics None) ;;
  modify (set_lastUpdated None) ;;
  clearError ;;
  cache Cache.clearAll.

(** [!device]: [null] and the number 0 are falsy. *)
Definition falsyDevice (device : option Z) : bool :=
  match device with
  | None => true
  | Some d => d =? 0
  end.

(** [refreshData], subscribed to; [None] is the [EMPTY] observable.  The
    key of the current selection is computed and not used. *)
Definition refreshData (remote : nat -> option LocationDataResponse)
  (now later : Z) : M (option (list LocationPoint * list Prefetch)) :=
  device <- gets selectedDevice ;;
  date <- gets selectedDate ;;
  match device, date with
  | Some dev, Some d =>
      if falsyDevice device then ret None else
      let cacheKey := locationKey dev d in
      cache Cache.clearAll ;;
      r <- getLocationData dev d remote now later ;;
      ret (Some r)
  | _, _ => ret None
  end.

End Service.

Arguments mkState {DateT}.
Arguments selectedDevice {DateT}.
Arguments selectedDate {DateT}.
Arguments availableDates {DateT}.
Arguments locationData {DateT}.
Arguments loading {DateT}.
Arguments error {DateT}.
Arguments _statistics {DateT}.
Arguments _lastUpdated {DateT}.
Arguments cacheService {DateT}.
Arguments httpLog {DateT}.
Arguments initial {DateT}.
Arguments set_selectedDevice {DateT}.
Arguments set_selectedDate {DateT}.
Arguments set_availableDates {DateT}.
Arguments set_locationData {DateT}.
Arguments set_loading {DateT}.
Arguments set_error {DateT}.
Arguments set_statistics {DateT}.
Arguments set_lastUpdated {DateT}.
Arguments set_cacheService {DateT}.
Arguments set_httpLog {DateT}.
Arguments cache {DateT A}.
Arguments send {DateT}.
Arguments Playback {DateT}.
Arguments PlaybackExist {DateT}.
Arguments mkPrefetch {DateT}.
Arguments pf_targetId {DateT}.
Arguments pf_date {DateT}.
Arguments pf_key {DateT}.
Arguments prefetchRun {DateT}.
Arguments updateLocationDataState {DateT}.
Arguments updateAvailableDatesState {DateT}.
Arguments setLoading {DateT}.
Arguments clearError {DateT}.
Arguments handleError {DateT}.
Arguments setSelectedDevice {DateT}.
Arguments setSelectedDate {DateT}.
Arguments clearData {DateT}.

End History.

(* ------------------------------------------------------------------ *)
(** ** Stand-ins for the platform, used by the closed examples *)

Module Sample.

(** A day number stands for a date; its decimal rendering for
    [toDateString()]; a decimal string for a parseable time stamp. *)
Definition DateT : Type := Z.
Definition toDateString (d : DateT) : string := History.numberToString d.
Definition addDays (d : DateT) (offset : Z) : DateT := d + offset.
Definition getTime (text : string) : option Z :=
  option_map Z.of_int (NilZero.int_of_string text).
Definition toLocaleString (text : string) : string := text.
Definition calculateDistance (a b : Q * Q) : Q :=
  (Qabs (fst b - fst a) + Qabs (snd b - snd a))%Q.

Definition point (time : string) (speed_ heading_ : Q) : LocationPoint :=
  {| utcTime := time; lat := 0; lng := 0; speed := speed_; alt := 0;
     dir := 0; timestamp_str := time; heading := heading_; info := [] |}.

Definition State : Type := History.State DateT.

Definition getLocationData :=
  History.getLocationData DateT toDateString addDays getTime
    toLocaleString calculateDistance.
Definition refreshData :=
  History.refreshData DateT toDateString addDays getTime
    toLocaleString calculateDistance.
Definition getAvailableDates := History.getAvailableDates DateT.
Definition computeStatistics :=
  History.computeStatistics getTime toLocaleString calculateDistance.
Definition locationKey := History.locationKey DateT toDateString.

Definition ok (d : list LocationPoint) : History.LocationDataResponse :=
  {| History.r_data := Some d; History.r_code := 200;
     History.r_message := "" |}.

(** An archive that answers every request with the track [d], and one
    that is unreachable. *)
Definition remoteOk (d : list LocationPoint)
  : nat -> option History.LocationDataResponse := fun _ => Some (ok d).
Definition remoteDown : nat -> option History.LocationDataResponse :=
  fun _ => None.

(** The key ["k<i>"]. *)
Definition keyN (i : nat) : string :=
  ("k" ++ History.numberToString (Z.of_nat i))%string.

(** [n] tracks stored under distinct keys, all at clock reading [now]. *)
Fixpoint fill (n : nat) (now : Z) : Cache.M unit :=
  match n with
  | O => ret tt
  | S k => fill k now ;; Cache.setLocationData (keyN k) [] None now
  end.

End Sample.

(* ------------------------------------------------------------------ *)
(** ** Vocabulary of the statements about the cache *)

Module CacheSpec.
Import Cache.

(** What the generic helpers need of a reference to a map field. *)
Record RefLaws {T} (c : CacheRef T) : Prop := mkRefLaws {
  read_write : forall m s, read c (write c m s) = m;
  config_write : forall m s, config (write c m s) = config s;
  metrics_write : forall m s, _metrics (write c m s) = _metrics s;
  read_with_metrics : forall x s, read c (with_metrics x s) = read c s
}.

(** The entry object after a successful read at [now]. *)
Definition touched {T} (e : CacheEntry T) (now : Z) : CacheEntry T :=
  {| data := data e; timestamp := timestamp e; ttl := ttl e;
     accessCount := accessCount e + 1; lastAccessed := now |}.

(** The effect of a cache read of [key] at [now] that takes the service
    from [s] to [s'] and returns [r]. *)
Definition lookup_post {T} (c : CacheRef T) (key : string) (now : Z)
  (s : State) (r : option T) (s' : State) : Prop :=
  match JsMap.get (read c s) key with
  | None =>
      r = None /\ read c s' = read c s
      /\ hits (_metrics s') = hits (_metrics s)
      /\ misses (_metrics s') = misses (_metrics s) + 1
  | Some e =>
      if Z_lt_dec (ttl e) (now - timestamp e) then
        r = None
        /\ read c s' = JsMap.delete (read c s) key
        /\ JsMap.get (read c s') key = None
        /\ hits (_metrics s') = hits (_metrics s)
        /\ misses (_metrics s') = misses (_metrics s) + 1
      else
        r = Some (data e)
        /\ JsMap.get (read c s') key = Some (touched e now)
        /\ (forall k, k <> key ->
              JsMap.get (read c s') k = JsMap.get (read c s) k)
        /\ hits (_metrics s') = hits (_metrics s) + 1
        /\ misses (_metrics s') = misses (_metrics s)
  end.

(** What one read adds to the counter it counts on: one when metrics
    are enabled, nothing when [enableMetrics] is off. *)
Definition counted (s : State) : Z :=
  if enableMetrics (config s) then 1 else 0.

(** The effect of a cache read under either setting of [enableMetrics]:
    as [lookup_post], with the counters moved by [counted s]. *)
Definition lookup_effect {T} (c : CacheRef T) (key : string) (now : Z)
  (s : State) (r : option T) (s' : State) : Prop :=
  match JsMap.get (read c s) key with
  | None =>
      r = None /\ read c s' = read c s
      /\ hits (_metrics s') = hits (_metrics s)
      /\ misses (_metrics s') = misses (_metrics s) + counted s
  | Some e =>
      if Z_lt_dec (ttl e) (now - timestamp e) then
        r = None
        /\ read c s' = JsMap.delete (read c s) key
        /\ JsMap.get (read c s') key = None
        /\ hits (_metrics s') = hits (_metrics s)
        /\ misses (_metrics s') = misses (_metrics s) + counted s
      else
        r = Some (data e)
        /\ JsMap.get (read c s') key = Some (touched e now)
        /\ (forall k, k <> key ->
              JsMap.get (read c s') k = JsMap.get (read c s) k)
        /\ hits (_metrics s') = hits (_metrics s) + counted s
        /\ misses (_metrics s') = misses (_metrics s)
  end.

(** A read followed by the hit-or-miss count, as both public getters
    are written. *)
Definition lookup {T} (c : CacheRef T) (key : string) (now : Z)
  : M (option T) :=
  result <- getCachedData c key now ;;
  updateMetrics (match result with Some _ => true | None => false end) ;;
  ret result.

Definition countHit (isHit : bool) (x : CacheMetrics) : CacheMetrics :=
  {| hits := if isHit then hits x + 1 else hits x;
     misses := if isHit then misses x else misses x + 1;
     evictions := evictions x; size := size x; hitRate := hitRate x |}.

Definition countEvictions (n : Z) (x : CacheMetrics) : CacheMetrics :=
  {| hits := hits x; misses := misses x; evictions := evictions x + n;
     size := size x; hitRate := hitRate x |}.

(** The map holds an entry for [key] whose time to live has lapsed at
    [now]. *)
Definition expiredAt {T} (m : JsMap.t (CacheEntry T)) (key : string)
  (now : Z) : Prop :=
  exists e, JsMap.get m key = Some e /\ ttl e < now - timestamp e.

(** The two cache instances, and their operations by instance. *)
Inductive Which : Type := Dates | Locations.

Definition storedExpired (w : Which) (s : State) (key : string) (now : Z)
  : Prop :=
  match w with
  | Dates => expiredAt (availableDatesCache s) key now
  | Locations => expiredAt (locationDataCache s) key now
  end.

Definition present (w : Which) (s : State) (key : string) : bool :=
  match w with
  | Dates => JsMap.has (availableDatesCache s) key
  | Locations => JsMap.has (locationDataCache s) key
  end.

Definition physicalSize (w : Which) (s : State) : Z :=
  match w with
  | Dates => JsMap.size (availableDatesCache s)
  | Locations => JsMap.size (locationDataCache s)
  end.

Definition hasKey (w : Which) : string -> Z -> M bool :=
  match w with
  | Dates => hasAvailableDates
  | Locations => hasLocationData
  end.

Definition readKey (w : Which) (key : string) (now : Z) : M unit :=
  match w with
  | Dates => getAvailableDates key now ;; ret tt
  | Locations => getLocationData key now ;; ret tt
  end.

(** One miss, a store and three hits on a fresh service. *)
Definition threeHitsOneMiss : State :=
  exec (getLocationData "7-Mon Jun 03 2024" 10 ;;
        setLocationData "7-Mon Jun 03 2024" [] None 20 ;;
        getLocationData "7-Mon Jun 03 2024" 30 ;;
        getLocationData "7-Mon Jun 03 2024" 40 ;;
        getLocationData "7-Mon Jun 03 2024" 50) initial.

(** A service holding one track stored at clock reading 0. *)
Definition oneTrack : State :=
  exec (setLocationData "7-Mon Jun 03 2024" [] None 0) initial.

(** The default configuration filled to capacity within the millisecond
    of clock reading 5. *)
Definition fullAtFive : State := exec (Sample.fill 100 5) initial.

End CacheSpec.

(* ------------------------------------------------------------------ *)
(** ** Vocabulary of the statements about eviction *)

Module EvictionSpec.
Import Cache.

(** The entry that [setCachedData] writes. *)
Definition freshEntry {T} (d : T) (ttl_ now : Z) : CacheEntry T :=
  {| data := d; timestamp := now; ttl := ttl_;
     accessCount := 1; lastAccessed := now |}.

Definition accessedAt {T} (kv : string * CacheEntry T) : Z :=
  lastAccessed (snd kv).

(** [(k, e)] is the least recently used entry of [m] as seen at [now]:
    it was last accessed before [now], every entry inserted before it was
    accessed strictly later, and no entry inserted after it was accessed
    earlier. *)
Definition oldestIs {T} (m : JsMap.t (CacheEntry T)) (now : Z)
  (k : string) (e : CacheEntry T) : Prop :=
  exists l1 l2,
    m = l1 ++ (k, e) :: l2
    /\ lastAccessed e < now
    /\ Forall (fun kv => lastAccessed e < accessedAt kv) l1
    /\ Forall (fun kv => lastAccessed e <= accessedAt kv) l2.

End EvictionSpec.

(* ------------------------------------------------------------------ *)
(** ** Vocabulary of the statements about headings and statistics *)

Module TrackSpec.
Import History.

(** The speed in km/h that the statistics are computed from. *)
Definition kmh (p : LocationPoint) : Z := Math_round (speed p * (36 # 10)).

(** The rounded km/h speeds of the samples that count: those above 0. *)
Definition movingSpeeds (track : list LocationPoint) : list Z :=
  filter (fun v => 0 <? v) (map kmh track).

(** The mean of a list of integers, 0 for the empty list. *)
Definition mean (l : list Z) : Q :=
  match l with
  | [] => 0%Q
  | _ => (inject_Z (fold_right Z.add 0%Z l)
          / inject_Z (Z.of_nat (List.length l)))%Q
  end.

(** One fix moving at 10 m/s, heading north. *)
Definition tenMetresPerSecond : LocationPoint :=
  Sample.point "1000" 10 0.

End TrackSpec.

(* ------------------------------------------------------------------ *)
(** ** Vocabulary of the statements about the history service *)

Module StoreSpec.
Import History.

Section Service.
Variable DateT : Type.
Variable toDateString : DateT -> string.
Variable addDays : DateT -> Z -> DateT.

(** The prefetch of the date [offset] days from [date]. *)
Definition adjacent (targetId : Z) (date : DateT) (offset : Z)
  : Prefetch DateT :=
  {| pf_targetId := targetId;
     pf_date := addDays date offset;
     pf_key := locationKey DateT toDateString targetId
                 (addDays date offset) |}.

(** The fields other than the cache service and the request log are
    the same in [s] and [s']. *)
Definition foreground_unchanged (s s' : State DateT) : Prop :=
  selectedDevice s' = selectedDevice s
  /\ selectedDate s' = selectedDate s
  /\ availableDates s' = availableDates s
  /\ locationData s' = locationData s
  /\ loading s' = loading s
  /\ error s' = error s
  /\ _statistics s' = _statistics s
  /\ _lastUpdated s' = _lastUpdated s.

(** The state of a load of a track once the cache read, at [now], has
    found nothing and the request has been sent [attempts] times. *)
Definition afterMiss (s : State DateT) (key : string)
  (request : Request DateT) (attempts : nat) (now : Z) : State DateT :=
  set_httpLog (repeat request attempts ++ httpLog s)
    (set_error None
       (set_loading true
          (set_cacheService
             (exec (Cache.getLocationData key now) (cacheService s))
             s))).

(** The state in which a failed load leaves the service. *)
Definition afterFailure (s : State DateT) (key : string)
  (request : Request DateT) (attempts : nat) (now : Z) : State DateT :=
  set_loading false
    (set_locationData []
       (set_error (Some "Failed to load location data"%string)
          (afterMiss s key request attempts now))).

(** The state in which a successful load of [locations], handled at
    [later], leaves the service. *)
Definition afterSuccess (s : State DateT) (key : string)
  (request : Request DateT) (attempts : nat) (now later : Z)
  (locations : list LocationPoint)
  (stats : option LocationStatistics) : State DateT :=
  let s0 := afterMiss s key request attempts now in
  set_loading false
    (set_lastUpdated (Some later)
       (set_statistics stats
          (set_locationData locations
             (set_cacheService
                (exec (Cache.setLocationData key locations None later)
                      (cacheService s0)) s0)))).

End Service.

Definition first_fix : LocationPoint := Sample.point "1000" 10 90.
Definition second_fix : LocationPoint := Sample.point "61000" 0 0.

Definition june : AvailableDatesResponse :=
  {| a_data := Some [1; 3; 5]; a_code := 200; a_message := "" |}.

(** Device 7 selected; the availability of June 2024 and the track of day
    19900 loaded, then day 19877 selected and its track loaded. *)
Definition loadedTwoDays : Sample.State :=
  exec (setSelectedDevice (Some 7) ;;
        Sample.getAvailableDates 7 2024 6 (fun _ => Some june) 1 2 ;;
        Sample.getLocationData 7 19900 (Sample.remoteOk [first_fix]) 10 20 ;;
        setSelectedDate (Some 19877) ;;
        Sample.getLocationData 7 19877
          (Sample.remoteOk [first_fix; second_fix]) 30 40)
       initial.

Definition refreshed : Sample.State :=
  exec (Sample.refreshData (Sample.remoteOk [first_fix; second_fix]) 50 60)
       loadedTwoDays.

Definition failedLoad : Sample.State :=
  exec (Sample.getLocationData 7 19878 Sample.remoteDown 50 60)
       loadedTwoDays.

(** Device 7 selected on a fresh service, and the track that the archive
    holds for day 19877. *)
Definition deviceSelected : Sample.State :=
  exec (setSelectedDevice (Some 7)) initial.

Definition dayTrack : list LocationPoint := [first_fix; second_fix].

End StoreSpec.

(* ------------------------------------------------------------------ *)
(** ** The cache service: remaining methods and vocabulary *)

Module CacheMore.
Import Cache.

(** The filter of [prefetchKeys] over one map:
    [keys.filter(key => !this.hasValidCacheEntry(cache, key))].  The clock
    readings of one call are taken as one instant. *)
Fixpoint filterKeys {T} (cache : CacheRef T) (now : Z)
  (keys : list string) : M (list string) :=
  match keys with
  | [] => ret []
  | key :: rest =>
      valid <- hasValidCacheEntry cache key now ;;
      kept <- filterKeys cache now rest ;;
      ret (if negb valid then key :: kept else kept)
  end.

(** The argument [type: 'dates' | 'locations']. *)
Inductive KeyType : Type := dates | locations.

Definition prefetchKeys (keys : list string) (type : KeyType) (now : Z)
  : M (list string) :=
  match type with
  | dates => filterKeys availableDatesRef now keys
  | locations => filterKeys locationDataRef now keys
  end.

Record CacheInfo : Type := mkCacheInfo {
  availableDatesSize : Z;
  locationDataSize : Z;
  totalSize : Z;
  info_maxSize : Z
}.

Definition getCacheInfo : M CacheInfo :=
  s <- gets (fun s => s) ;;
  ret {| availableDatesSize := JsMap.size (availableDatesCache s);
         locationDataSize := JsMap.size (locationDataCache s);
         totalSize := JsMap.size (availableDatesCache s)
                      + JsMap.size (locationDataCache s);
         info_maxSize := maxSize (config s) |}.

(** [ngOnDestroy]: the sweep timer is stopped (outside the state) and the
    caches cleared. *)
Definition ngOnDestroy : M unit := clearAll.

(** *** Vocabulary *)

(** The state of a put just before its final write: after the eviction,
    when the map is full and the key is new. *)
Definition beforeWrite {T} (c : CacheRef T) (key : string) (now : Z)
  (s : State) : State :=
  exec (when ((maxSize (config s) <=? JsMap.size (read c s))
              && negb (JsMap.has (read c s) key))
             (evictLeastRecentlyUsed c now)) s.

(** The time to live that [setLocationData] and [setAvailableDates] give
    an entry. *)
Definition locationTtl (cfg : CacheConfig) (ttl_ : option Z) : Z :=
  match ttl_ with Some x => x | None => defaultTtl cfg * 2 end.

Definition datesTtl (cfg : CacheConfig) (ttl_ : option Z) : Z :=
  match ttl_ with Some x => x | None => defaultTtl cfg end.

(** The entries of a map that are still alive at [now], and the number of
    those that are not. *)
Definition alive {T} (m : JsMap.t (CacheEntry T)) (now : Z)
  : JsMap.t (CacheEntry T) :=
  filter (fun kv => negb (isExpired (snd kv) now)) m.

Definition lapsed {T} (m : JsMap.t (CacheEntry T)) (now : Z) : Z :=
  Z.of_nat (List.length (filter (fun kv => isExpired (snd kv) now) m)).

(** A run of track reads, each with its key and clock reading. *)
Fixpoint readAll (reads : list (string * Z))
  : M (list (option (list LocationPoint))) :=
  match reads with
  | [] => ret []
  | (key, now) :: rest =>
      r <- getLocationData key now ;;
      rs <- readAll rest ;;
      ret (r :: rs)
  end.

Definition countSome {A} (l : list (option A)) : Z :=
  Z.of_nat (List.length (filter (fun r => match r with
                                          | Some _ => true
                                          | None => false end) l)).

Definition countNone {A} (l : list (option A)) : Z :=
  Z.of_nat (List.length (filter (fun r => match r with
                                          | Some _ => false
                                          | None => true end) l)).

(** A run of track writes at the given clock readings. *)
Fixpoint writeAll (writes : list (string * list LocationPoint * Z))
  : M unit :=
  match writes with
  | [] => ret tt
  | (key, d, now) :: rest =>
      setLocationData key d None now ;; writeAll rest
  end.

(** The clock readings of a run of writes go strictly up from [t]. *)
Fixpoint ascending (t : Z) (writes : list (string * list LocationPoint * Z))
  : Prop :=
  match writes with
  | [] => True
  | (_, _, now) :: rest => t < now /\ ascending now rest
  end.

(** A track cache within its capacity whose entries were all last
    accessed at [t] or before and none of which has the empty key. *)
Definition bounded (s : State) (t : Z) : Prop :=
  JsMap.wf (locationDataCache s)
  /\ JsMap.size (locationDataCache s) <= maxSize (config s)
  /\ Forall (fun kv => lastAccessed (snd kv) <= t
                       /\ truthy (fst kv) = true) (locationDataCache s).

(** Three tracks stored at clock readings 10, 20 and 30 under a capacity
    of 2 entries. *)
Definition smallCache : State :=
  exec (updateConfig {| p_maxSize := Some 2; p_defaultTtl := None;
                        p_cleanupInterval := None;
                        p_enableMetrics := None |}) initial.

Definition threeWrites : list (string * list LocationPoint * Z) :=
  [("a", [], 10); ("b", [], 20); ("c", [], 30)]%string.

(** The small cache after its first two writes, and the same two keys
    written within one millisecond. *)
Definition twoStored : State :=
  exec (writeAll [("a", [], 10); ("b", [], 20)]%string) smallCache.

Definition twoAtTen : State :=
  exec (writeAll [("a", [], 10); ("b", [], 10)]%string) smallCache.

(** Two tracks stored at clock readings 0 and 1000000, read at 1500000:
    the first has lapsed (the default time to live of a track is
    1200000). *)
Definition oneLapsed : State :=
  exec (setLocationData "old" [] None 0 ;;
        setLocationData "young" [] None 1000000) initial.

(** The signal [metrics] read on the fresh service, then one track
    stored: the write sets no counter. *)
Definition readThenStored : State :=
  exec (readMetrics ;; setLocationData "a" [] None 10) initial.

(** The service with metrics switched off. *)
Definition metricsOff : State :=
  exec (updateConfig {| p_maxSize := None; p_defaultTtl := None;
                        p_cleanupInterval := None;
                        p_enableMetrics := Some false |}) oneLapsed.

End CacheMore.
(* ------------------------------------------------------------------ *)
(** ** The history service: remaining methods and vocabulary *)

Module HistoryMore.
Import History.

(** [DateRangeQuery] of the interface file. *)
Record DateRangeQuery : Type := mkDateRangeQuery {
  deviceId : string;
  fromDate : string;
  toDate : string
}.

Section Service.
Variable DateT : Type.
Variable getTime : string -> option Z.
Variable toLocaleString : string -> string.
Variable calculateDistance : Q * Q -> Q * Q -> Q.

(** [getLocationDataRange], subscribed to; the response (after up to
    two retries) is handled at [later].  The requests of this endpoint
    are not entered in [httpLog]: the result carries the emitted track
    and the number of requests sent. *)
Definition getLocationDataRange (query : DateRangeQuery)
  (remote : nat -> option LocationDataResponse) (later : Z)
  : M DateT (list LocationPoint * nat) :=
  setLoading true ;;
  clearError ;;
  let (response, attempts) := retry 2 remote 0 in
  result <-
    match response with
    | Some r =>
        if r_code r =? 200 then
          let locations :=
            match r_data r with Some d => d | None => [] end in
          updateLocationDataState locations ;;
          updateStatistics DateT getTime toLocaleString
            calculateDistance locations ;;
          modify (set_lastUpdated (Some later)) ;;
          ret locations
        else
          handleError "Failed to load location data range" ;;
          ret []
    | None =>
        handleError "Failed to load location data range" ;;
        ret []
    end ;;
  setLoading false ;;
  ret (result, attempts).

(** The computed signals [hasData] and [isReady]. *)
Definition hasData (s : State DateT) : bool :=
  (0 <? Z.of_nat (List.length (locationData s))).

Definition isReady (s : State DateT) : bool :=
  match selectedDevice s, selectedDate s with
  | Some _, Some _ => true
  | _, _ => false
  end.

(** *** Vocabulary *)

(** The enhanced point made from sample [p] with predecessor
    [prev]. *)
Definition enhancedPoint (prev : option LocationPoint)
  (p : LocationPoint) : EnhancedLocationPoint :=
  {| point := p;
     formattedTime := toLocaleString (utcTime p);
     speedKmh := TrackSpec.kmh p;
     directionText := getDirectionText (heading p);
     distanceFromPrevious :=
       option_map (fun a => calculateDistance (lat a, lng a)
                                              (lat p, lng p)) prev |}.

(** The sum of the distances between consecutive samples. *)
Fixpoint pathLength (l : list LocationPoint) : Q :=
  match l with
  | a :: ((b :: _) as rest) =>
      (calculateDistance (lat a, lng a) (lat b, lng b)
       + pathLength rest)%Q
  | _ => 0%Q
  end.

(** The state in which a failed load of the availability leaves the
    service when the cache read, at [now], found nothing. *)
Definition afterDatesFailure (s : State DateT) (key : string)
  (request : Request DateT) (attempts : nat) (now : Z) : State DateT :=
  set_loading false
    (set_error (Some "Failed to load available dates"%string)
       (set_httpLog (repeat request attempts ++ httpLog s)
          (set_error None
             (set_loading true
                (set_cacheService
                   (exec (Cache.getAvailableDates key now)
                         (cacheService s)) s))))).

(** The state in which a successful load of the availability, handled
    at [later], leaves the service. *)
Definition afterDatesSuccess (s : State DateT) (key : string)
  (request : Request DateT) (attempts : nat) (now later : Z)
  (days : list Z) : State DateT :=
  let s0 :=
    set_httpLog (repeat request attempts ++ httpLog s)
      (set_error None
         (set_loading true
            (set_cacheService
               (exec (Cache.getAvailableDates key now)
                     (cacheService s)) s))) in
  set_loading false
    (set_availableDates (JsMap.set (availableDates s0) key days)
       (set_cacheService
          (exec (Cache.setAvailableDates key days None later)
                (cacheService s0)) s0)).

End Service.

Arguments hasData {DateT}.
Arguments isReady {DateT}.

(** The archive is down for the first two attempts and answers the
    third. *)
Definition remoteThirdTime (d : list LocationPoint)
  : nat -> option LocationDataResponse :=
  fun i => match i with
           | 2%nat => Some (Sample.ok d)
           | _ => None
           end.

(** An answer with an error code. *)
Definition rejected : LocationDataResponse :=
  {| r_data := None; r_code := 500; r_message := "server error" |}.

Definition remoteRejects : nat -> option LocationDataResponse :=
  fun _ => Some rejected.

Definition datesDown : nat -> option AvailableDatesResponse :=
  fun _ => None.

Definition rangeQuery : DateRangeQuery :=
  {| deviceId := "7"; fromDate := "2024-06-01T00:00:00Z";
     toDate := "2024-06-03T00:00:00Z" |}.

Definition getLocationDataRange_sample :=
  getLocationDataRange Sample.DateT Sample.getTime Sample.toLocaleString
    Sample.calculateDistance.

(** Three fixes with different positions and speeds. *)
Definition fixA : LocationPoint :=
  {| utcTime := "1000"; lat := 10; lng := 20; speed := 5; alt := 0;
     dir := 0; timestamp_str := "1000"; heading := 0; info := [] |}.
Definition fixB : LocationPoint :=
  {| utcTime := "2000"; lat := 12; lng := 18; speed := 0; alt := 0;
     dir := 0; timestamp_str := "2000"; heading := 90; info := [] |}.
Definition fixC : LocationPoint :=
  {| utcTime := "4000"; lat := 11; lng := 25; speed := 10; alt := 0;
     dir := 0; timestamp_str := "4000"; heading := 180; info := [] |}.

End HistoryMore.
(* ------------------------------------------------------------------ *)
(** ** Vocabulary of the statements about cache keys *)

From Stdlib Require DecimalPos DecimalZ.

Module KeySpec.

(** No character of the string is the separator ["-"]. *)
Fixpoint noDash (s : string) : Prop :=
  match s with
  | EmptyString => True
  | String c r => c <> "-"%char /\ noDash r
  end.

End KeySpec.
(* ------------------------------------------------------------------ *)
(** ** components/calendar-selector/calendar-selector.component.ts, the map
       component in it: the helpers that consume the track and statistics *)

Module MapComponent.
Import History.

Section Distance.
(** [haversineDistance], the component's own copy of the formula. *)
Variable haversineDistance : Q * Q -> Q * Q -> Q.

(** The body of the loop of [calculateTotalDistance] at index [i]. *)
Definition totalStep (data : list LocationPoint) (totalDistance : Q)
  (i : nat) : Q :=
  match nth_error data (i - 1), nth_error data i with
  | Some prev, Some curr =>
      (totalDistance
       + haversineDistance (lat prev, lng prev) (lat curr, lng curr))%Q
  | _, _ => totalDistance
  end.

(** [calculateTotalDistance]: [for (let i = 1; i < data.length; i++)]. *)
Definition calculateTotalDistance (data : list LocationPoint) : Q :=
  fold_left (totalStep data) (seq 1 (List.length data - 1)) 0%Q.

End Distance.

(** [formatDuration] on a whole number of milliseconds: [Math.floor] of a
    quotient by a positive constant is the floor division, [%] the
    truncated remainder. *)
Definition formatDuration (milliseconds : Z) : string :=
  let hours := milliseconds / (1000 * 60 * 60) in
  let minutes := Z.rem milliseconds (1000 * 60 * 60) / (1000 * 60) in
  if 0 <? hours
  then (numberToString hours ++ "h " ++ numberToString minutes ++ "m")%string
  else (numberToString minutes ++ "m")%string.

End MapComponent.

(* ------------------------------------------------------------------ *)
(** ** Vocabulary of the statements about the prefetch *)

Module PrefetchSpec.
Import History StoreSpec.

(** The track cache holds, under [key], an entry whose time to live has
    not lapsed at [now]. *)
Definition holdsUnexpired (cs : Cache.State) (key : string) (now : Z)
  : Prop :=
  exists e,
    JsMap.get (Cache.locationDataCache cs) key = Some e
    /\ now - timestamp e <= ttl e.

(** Device 7 selected and the track of day 19877 loaded from the archive
    (read at 30, answer handled at 40). *)
Definition dayLoaded : Sample.State :=
  exec (Sample.getLocationData 7 19877 (Sample.remoteOk dayTrack) 30 40)
       deviceSelected.

(** The prefetch of the next day, 19878. *)
Definition nextDay : Prefetch Sample.DateT :=
  adjacent Sample.DateT Sample.toDateString Sample.addDays 7 19877 1.

(** The prefetch of the next day fires at 1040 and the archive answers it
    with code 500 and no data. *)
Definition prefetchRejected : Sample.State :=
  exec (prefetchRun nextDay (Some HistoryMore.rejected) 1040) dayLoaded.

(** The same prefetch when the archive cannot be reached. *)
Definition prefetchUnreachable : Sample.State :=
  exec (prefetchRun nextDay None 1040) dayLoaded.

(** The user then opens day 19878 (cache read at 2000), the archive now
    holding a track for it. *)
Definition openNextDay
  : History.M Sample.DateT
      (list LocationPoint * list (Prefetch Sample.DateT)) :=
  Sample.getLocationData 7 19878 (Sample.remoteOk [first_fix]) 2000 2010.

End PrefetchSpec.
(* ------------------------------------------------------------------ *)
(** ** Facts about the insertion-ordered map *)

Module JsMapFacts.
Section WithValue.
Context {V : Type}.
Implicit Types (m : JsMap.t V) (k : string) (v : V).

Lemma get_set_same m k v : JsMap.get (JsMap.set m k v) k = Some v.
Proof.
  induction m as [|[k' v'] r IH]; simpl.
  - now rewrite String.eqb_refl.
  - destruct (String.eqb k' k) eqn:E; simpl; rewrite E; auto.
Qed.

Lemma get_set_other m k k' v :
  k' <> k -> JsMap.get (JsMap.set m k v) k' = JsMap.get m k'.
Proof.
  intros Hne. induction m as [|[k0 v0] r IH]; simpl.
  - destruct (String.eqb k k') eqn:E; auto.
    apply String.eqb_eq in E. congruence.
  - destruct (String.eqb k0 k) eqn:E; simpl.
    + apply String.eqb_eq in E. subst k0.
      destruct (String.eqb k k') eqn:E'; auto.
      apply String.eqb_eq in E'. congruence.
    + now rewrite IH.
Qed.

Lemma get_delete_same m k : JsMap.get (JsMap.delete m k) k = None.
Proof.
  induction m as [|[k' v'] r IH]; simpl; auto.
  destruct (String.eqb k' k) eqn:E; simpl; auto.
  now rewrite E.
Qed.

Lemma get_delete_other m k k' :
  k' <> k -> JsMap.get (JsMap.delete m k) k' = JsMap.get m k'.
Proof.
  intros Hne. induction m as [|[k0 v0] r IH]; simpl; auto.
  destruct (String.eqb k0 k) eqn:E; simpl.
  - apply String.eqb_eq in E. subst k0.
    destruct (String.eqb k k') eqn:E'; auto.
    apply String.eqb_eq in E'. congruence.
  - now rewrite IH.
Qed.

Lemma get_delete_none m k k' :
  JsMap.get m k' = None -> JsMap.get (JsMap.delete m k) k' = None.
Proof.
  intros H. destruct (string_dec k' k) as [->|Hne].
  - apply get_delete_same.
  - now rewrite get_delete_other.
Qed.

Lemma get_In m k v : JsMap.get m k = Some v -> In (k, v) m.
Proof.
  induction m as [|[k' v'] r IH]; simpl; [discriminate|].
  destruct (String.eqb k' k) eqn:E.
  - apply String.eqb_eq in E. intros [= ->]. subst. now left.
  - intros H. right. auto.
Qed.

Lemma get_none_notin m k :
  JsMap.get m k = None <-> ~ In k (JsMap.keys m).
Proof.
  induction m as [|[k' v'] r IH]; simpl.
  - split; auto.
  - destruct (String.eqb k' k) eqn:E.
    + apply String.eqb_eq in E. split; [discriminate|].
      intros H. exfalso. apply H. now left.
    + apply String.eqb_neq in E. rewrite IH. tauto.
Qed.

Lemma size_set_new m k v :
  JsMap.has m k = false -> JsMap.size (JsMap.set m k v) = JsMap.size m + 1.
Proof.
  unfold JsMap.has, JsMap.size.
  induction m as [|[k' v'] r IH]; simpl; intros H; [reflexivity|].
  destruct (String.eqb k' k) eqn:E; [discriminate|].
  simpl. specialize (IH H). lia.
Qed.

Lemma size_set_old m k v :
  JsMap.has m k = true -> JsMap.size (JsMap.set m k v) = JsMap.size m.
Proof.
  unfold JsMap.has, JsMap.size.
  induction m as [|[k' v'] r IH]; simpl; intros H; [discriminate|].
  destruct (String.eqb k' k) eqn:E; simpl; [reflexivity|].
  specialize (IH H). lia.
Qed.

Lemma delete_notin m k :
  ~ In k (JsMap.keys m) -> JsMap.delete m k = m.
Proof.
  induction m as [|[k' v'] r IH]; simpl; intros H; auto.
  destruct (String.eqb k' k) eqn:E; simpl.
  - apply String.eqb_eq in E. tauto.
  - f_equal. apply IH. tauto.
Qed.

Lemma size_delete m k :
  JsMap.wf m -> JsMap.has m k = true ->
  JsMap.size (JsMap.delete m k) = JsMap.size m - 1.
Proof.
  unfold JsMap.wf, JsMap.has, JsMap.size.
  induction m as [|[k' v'] r IH]; cbn [JsMap.get JsMap.delete filter fst];
    intros Hwf H; [discriminate|].
  inversion Hwf as [|? ? Hnotin Hnd]; subst.
  destruct (String.eqb k' k) eqn:E; cbn [negb].
  - apply String.eqb_eq in E. subst k'.
    fold (JsMap.delete r k). rewrite delete_notin by assumption.
    cbn [List.length]. lia.
  - fold (JsMap.delete r k). specialize (IH Hnd H).
    cbn [List.length] in *. lia.
Qed.

Lemma keys_delete m k :
  JsMap.keys (JsMap.delete m k)
  = filter (fun x => negb (String.eqb x k)) (JsMap.keys m).
Proof.
  induction m as [|[k' v'] r IH]; simpl; auto.
  destruct (String.eqb k' k); simpl; now rewrite IH.
Qed.

Lemma wf_delete m k : JsMap.wf m -> JsMap.wf (JsMap.delete m k).
Proof.
  unfold JsMap.wf. rewrite keys_delete. apply NoDup_filter.
Qed.

Lemma keys_set_old m k v :
  JsMap.has m k = true -> JsMap.keys (JsMap.set m k v) = JsMap.keys m.
Proof.
  unfold JsMap.has.
  induction m as [|[k' v'] r IH]; simpl; intros H; [discriminate|].
  destruct (String.eqb k' k) eqn:E; simpl; auto.
  f_equal. auto.
Qed.

Lemma keys_set_new m k v :
  JsMap.has m k = false ->
  JsMap.keys (JsMap.set m k v) = JsMap.keys m ++ [k].
Proof.
  unfold JsMap.has.
  induction m as [|[k' v'] r IH]; simpl; intros H; auto.
  destruct (String.eqb k' k) eqn:E; [discriminate|].
  simpl. f_equal. auto.
Qed.

Lemma wf_set m k v : JsMap.wf m -> JsMap.wf (JsMap.set m k v).
Proof.
  unfold JsMap.wf. intros Hwf.
  destruct (JsMap.has m k) eqn:E.
  - now rewrite keys_set_old.
  - rewrite keys_set_new by assumption.
    apply NoDup_app; auto.
    + constructor; [intros []|constructor].
    + intros x Hin [->|[]].
      unfold JsMap.has in E.
      destruct (JsMap.get m x) eqn:G; [discriminate|].
      apply get_none_notin in G. contradiction.
Qed.

End WithValue.
End JsMapFacts.

(* ------------------------------------------------------------------ *)
(** ** The cache service *)

Module CacheFacts.
Import Cache CacheSpec JsMapFacts.

Lemma exec_bind {S A B} (c : SM.M S A) (k : A -> SM.M S B) (s : S) :
  exec (bind c k) s = exec (k (eval c s)) (exec c s).
Proof. unfold exec, eval, bind. now destruct (c s). Qed.

Lemma eval_bind {S A B} (c : SM.M S A) (k : A -> SM.M S B) (s : S) :
  eval (bind c k) s = eval (k (eval c s)) (exec c s).
Proof. unfold exec, eval, bind. now destruct (c s). Qed.

Lemma exec_ret {S A} (a : A) (s : S) : exec (ret a) s = s.
Proof. reflexivity. Qed.

Lemma availableDatesRef_laws : RefLaws availableDatesRef.
Proof. constructor; reflexivity. Qed.

Lemma locationDataRef_laws : RefLaws locationDataRef.
Proof. constructor; reflexivity. Qed.

Lemma updateMetrics_on (isHit : bool) (s : State) :
  enableMetrics (config s) = true ->
  updateMetrics isHit s = (tt, with_metrics (countHit isHit (_metrics s)) s).
Proof.
  intros H. unfold updateMetrics, bind, gets. cbn. rewrite H. reflexivity.
Qed.

Lemma updateEvictionMetrics_on (n : Z) (s : State) :
  enableMetrics (config s) = true ->
  updateEvictionMetrics n s
  = (tt, with_metrics (countEvictions n (_metrics s)) s).
Proof.
  intros H. unfold updateEvictionMetrics, bind, gets. cbn.
  rewrite H. reflexivity.
Qed.

Lemma updateMetrics_disabled (isHit : bool) (s : State) :
  enableMetrics (config s) = false -> updateMetrics isHit s = (tt, s).
Proof.
  intros H. unfold updateMetrics, bind, gets. cbn. rewrite H. reflexivity.
Qed.

Lemma updateEvictionMetrics_disabled (n : Z) (s : State) :
  enableMetrics (config s) = false ->
  updateEvictionMetrics n s = (tt, s).
Proof.
  intros H. unfold updateEvictionMetrics, bind, gets. cbn.
  rewrite H. reflexivity.
Qed.

Section Generic.
Context {T : Type} (c : CacheRef T) (L : RefLaws c).

Lemma getCachedData_absent key now s :
  JsMap.get (read c s) key = None ->
  getCachedData c key now s = (None, s).
Proof.
  intros G. cbv beta iota delta [getCachedData bind gets modify ret].
  now rewrite G.
Qed.

Lemma getCachedData_expired key now s e :
  enableMetrics (config s) = true ->
  JsMap.get (read c s) key = Some e ->
  isExpired e now = true ->
  getCachedData c key now s
  = (None, with_metrics (countEvictions 1 (_metrics s))
             (write c (JsMap.delete (read c s) key) s)).
Proof.
  intros Hen G X.
  cbv beta iota delta [getCachedData bind gets modify ret].
  rewrite G, X. cbv beta iota.
  rewrite updateEvictionMetrics_on
    by (now rewrite (config_write c L)).
  now rewrite (metrics_write c L).
Qed.

Lemma getCachedData_fresh key now s e :
  JsMap.get (read c s) key = Some e ->
  isExpired e now = false ->
  getCachedData c key now s
  = (Some (data e),
     write c (JsMap.set (read c s) key (touched e now)) s).
Proof.
  intros G X.
  cbv beta iota delta [getCachedData bind gets modify ret].
  now rewrite G, X.
Qed.

Lemma lookup_spec (key : string) (now : Z) (s : State) :
  enableMetrics (config s) = true ->
  lookup_post c key now s (eval (lookup c key now) s)
              (exec (lookup c key now) s).
Proof.
  intros Hen. unfold lookup_post, lookup, eval, exec, bind.
  destruct (JsMap.get (read c s) key) as [e|] eqn:G.
  - destruct (Z_lt_dec (ttl e) (now - timestamp e)) as [Hlt|Hge].
    + rewrite (getCachedData_expired key now s e Hen G)
        by (now apply Z.ltb_lt).
      rewrite updateMetrics_on by (cbn; now rewrite (config_write c L)).
      cbn. rewrite ?(read_with_metrics c L), ?(read_write c L).
      rewrite ?(metrics_write c L).
      repeat split; auto using get_delete_same.
    + rewrite (getCachedData_fresh key now s e G)
        by (apply Z.ltb_ge; lia).
      rewrite updateMetrics_on by (now rewrite (config_write c L)).
      cbn. rewrite ?(read_with_metrics c L), ?(read_write c L).
      rewrite ?(metrics_write c L).
      repeat split; auto using get_set_same.
      intros k Hk. now apply get_set_other.
  - rewrite (getCachedData_absent key now s G).
    rewrite updateMetrics_on by assumption.
    cbn. rewrite (read_with_metrics c L). repeat split; auto.
Qed.

Lemma lookup_effect_spec (key : string) (now : Z) (s : State) :
  lookup_effect c key now s (eval (lookup c key now) s)
                (exec (lookup c key now) s).
Proof.
  destruct (enableMetrics (config s)) eqn:Hen.
  - pose proof (lookup_spec key now s Hen) as H.
    unfold lookup_effect, lookup_post, counted in *. rewrite Hen.
    exact H.
  - unfold lookup_effect, counted, lookup, eval, exec, bind.
    rewrite Hen.
    destruct (JsMap.get (read c s) key) as [e|] eqn:G.
    + destruct (Z_lt_dec (ttl e) (now - timestamp e)) as [Hlt|Hge].
      * assert (getCachedData c key now s
                = (None, write c (JsMap.delete (read c s) key) s))
          as ->.
        { cbv beta iota delta [getCachedData bind gets modify ret].
          rewrite G. unfold isExpired.
          assert ((ttl e <? now - timestamp e) = true) as ->
            by (now apply Z.ltb_lt).
          cbv beta iota.
          now rewrite updateEvictionMetrics_disabled
            by (now rewrite (config_write c L)). }
        rewrite updateMetrics_disabled
          by (now rewrite (config_write c L)).
        cbn [fst snd ret]. rewrite (read_write c L), (metrics_write c L).
        repeat split; auto using get_delete_same. lia.
      * rewrite (getCachedData_fresh key now s e G)
          by (apply Z.ltb_ge; lia).
        rewrite updateMetrics_disabled
          by (now rewrite (config_write c L)).
        cbn [fst snd ret]. rewrite (read_write c L), (metrics_write c L).
        repeat split; auto using get_set_same; try lia.
        intros k Hk. now apply get_set_other.
    + rewrite (getCachedData_absent key now s G).
      rewrite updateMetrics_disabled by assumption.
      cbn [fst snd ret]. repeat split; auto. lia.
Qed.

Lemma hasValidCacheEntry_pure (key : string) (now : Z) (s : State) :
  exec (hasValidCacheEntry c key now) s = s.
Proof.
  unfold hasValidCacheEntry, exec, bind, gets. cbn.
  destruct (JsMap.get (read c s) key); reflexivity.
Qed.

Lemma read_updateMetrics b s :
  read c (exec (updateMetrics b) s) = read c s.
Proof.
  cbv beta iota delta [updateMetrics exec bind gets ret setMetrics modify].
  destruct (enableMetrics (config s)); cbn;
    now rewrite ?(read_with_metrics c L).
Qed.

Lemma read_updateEvictionMetrics n s :
  read c (exec (updateEvictionMetrics n) s) = read c s.
Proof.
  cbv beta iota delta
    [updateEvictionMetrics exec bind gets ret setMetrics modify].
  destruct (enableMetrics (config s)); cbn;
    now rewrite ?(read_with_metrics c L).
Qed.

Lemma isExpired_later (e : CacheEntry T) now later :
  ttl e < now - timestamp e -> now <= later -> isExpired e later = true.
Proof. intros. apply Z.ltb_lt. lia. Qed.

(** A read of a lapsed entry deletes it, whatever the configuration. *)
Lemma lookup_deletes_expired key now s :
  expiredAt (read c s) key now ->
  forall later, now <= later ->
    JsMap.has (read c (exec (lookup c key later) s)) key = false.
Proof.
  intros (e & G & X) later Hle.
  pose proof (isExpired_later e now later X Hle) as Hexp.
  cbv beta iota delta [lookup getCachedData exec bind gets modify ret].
  rewrite G, Hexp. cbv beta iota.
  pose proof (read_updateEvictionMetrics 1
                (write c (JsMap.delete (read c s) key) s)) as R1.
  unfold exec in R1.
  destruct (updateEvictionMetrics 1 _) as [[] s1].
  cbn [snd] in R1. cbv beta iota.
  pose proof (read_updateMetrics false s1) as R2. unfold exec in R2.
  destruct (updateMetrics false s1) as [[] s2]. cbn [snd] in *.
  rewrite R2, R1, (read_write c L).
  unfold JsMap.has. now rewrite get_delete_same.
Qed.

Lemma sweep_keeps_absent now l (m : JsMap.t (CacheEntry T)) n k :
  JsMap.get m k = None ->
  JsMap.get (fst (fold_left (sweepStep now) l (m, n))) k = None.
Proof.
  revert m n. induction l as [|[k' e'] r IH]; intros m n G;
    cbn [fold_left]; auto.
  unfold sweepStep at 2. cbn [fst snd].
  destruct (isExpired e' now); apply IH; auto using get_delete_none.
Qed.

Lemma sweep_removes now l (m : JsMap.t (CacheEntry T)) n k e :
  In (k, e) l -> isExpired e now = true ->
  JsMap.get (fst (fold_left (sweepStep now) l (m, n))) k = None.
Proof.
  revert m n. induction l as [|[k' e'] r IH]; intros m n Hin X;
    [destruct Hin|].
  cbn [fold_left]. unfold sweepStep at 2. cbn [fst snd].
  destruct Hin as [[= -> ->]|Hin].
  - rewrite X. apply sweep_keeps_absent, get_delete_same.
  - destruct (isExpired e' now); eapply IH; eauto.
Qed.

Lemma sweep_deletes_expired key now later s n :
  expiredAt (read c s) key now -> now <= later ->
  JsMap.has (read c (exec (sweep c later n) s)) key = false.
Proof.
  intros (e & G & X) Hle.
  cbv beta iota delta [sweep exec bind gets modify ret]. cbn.
  rewrite (read_write c L). unfold JsMap.has.
  erewrite sweep_removes; eauto using get_In, isExpired_later.
Qed.

End Generic.

Lemma has_none_delete {V} (m : JsMap.t V) k k' :
  JsMap.has m k = false -> JsMap.has (JsMap.delete m k') k = false.
Proof.
  unfold JsMap.has. destruct (JsMap.get m k) eqn:G; [discriminate|].
  now rewrite get_delete_none.
Qed.

(** The sweep of one map leaves the other map as it is. *)
Lemma sweep_dates_locations later n s :
  locationDataCache (exec (sweep availableDatesRef later n) s)
  = locationDataCache s.
Proof. reflexivity. Qed.

Lemma sweep_locations_dates later n s :
  availableDatesCache (exec (sweep locationDataRef later n) s)
  = availableDatesCache s.
Proof. reflexivity. Qed.

Lemma clearExpired_maps later s :
  availableDatesCache (exec (clearExpired later) s)
  = availableDatesCache (exec (sweep availableDatesRef later 0) s)
  /\ exists n,
    locationDataCache (exec (clearExpired later) s)
    = locationDataCache (exec (sweep locationDataRef later n) s).
Proof.
  unfold clearExpired, removeExpiredEntries.
  rewrite !exec_bind, exec_ret.
  split.
  - rewrite (read_updateEvictionMetrics availableDatesRef
               availableDatesRef_laws).
    apply sweep_locations_dates.
  - eexists.
    rewrite (read_updateEvictionMetrics locationDataRef
               locationDataRef_laws).
    reflexivity.
Qed.

(** C10.  When the entry stored under a key has expired, the has-key
    check answers [false] and leaves the service exactly as it was: the
    entry stays in the map, the physical size and every metrics counter
    are unchanged.  The entry is removed by the next read of that key and
    by the next sweep of expired entries. *)
Theorem has_leaves_expired_entry :
  forall (w : Which) (s : State) (key : string) (now : Z),
    storedExpired w s key now ->
    hasKey w key now s = (false, s)
    /\ present w (exec (hasKey w key now) s) key = true
    /\ physicalSize w (exec (hasKey w key now) s) = physicalSize w s
    /\ _metrics (exec (hasKey w key now) s) = _metrics s
    /\ metrics (exec (hasKey w key now) s) = metrics s
    /\ (forall later, now <= later ->
          present w (exec (readKey w key later) s) key = false)
    /\ (forall later, now <= later ->
          present w (exec (clearExpired later) s) key = false).
Proof.
  intros w s key now Hexp.
  assert (hasKey w key now s = (false, s)) as Hpure.
  { destruct w; cbn in Hexp; destruct Hexp as (e & G & X);
      cbv beta iota delta [hasKey hasAvailableDates hasLocationData
                           hasValidCacheEntry bind gets ret];
      cbn; rewrite G; unfold isExpired;
      (assert ((ttl e <? now - timestamp e) = true) as ->
         by (now apply Z.ltb_lt)); reflexivity. }
  split; [exact Hpure|]. unfold exec at 1 2 3 4. rewrite Hpure. cbn [snd].
  repeat split.
  - destruct w; cbn in *; destruct Hexp as (e & G & _);
      unfold JsMap.has; now rewrite G.
  - intros later Hle. destruct w; cbn [present readKey].
    + pose proof (lookup_deletes_expired availableDatesRef
                    availableDatesRef_laws key now s Hexp later Hle) as H.
      unfold exec, bind in *. cbn [read availableDatesRef] in H.
      change (getAvailableDates key later)
        with (lookup availableDatesRef key later).
      destruct (lookup availableDatesRef key later s). exact H.
    + pose proof (lookup_deletes_expired locationDataRef
                    locationDataRef_laws key now s Hexp later Hle) as H.
      unfold exec, bind in *. cbn [read locationDataRef] in H.
      change (getLocationData key later)
        with (lookup locationDataRef key later).
      destruct (lookup locationDataRef key later s). exact H.
  - intros later Hle.
    destruct (clearExpired_maps later s) as [HA [n HL]].
    destruct w; cbn [present].
    + rewrite HA.
      apply (sweep_deletes_expired availableDatesRef
               availableDatesRef_laws key now later s 0 Hexp Hle).
    + rewrite HL.
      apply (sweep_deletes_expired locationDataRef
               locationDataRef_laws key now later s n Hexp Hle).
Qed.

(** C7 as stated fails: with [enableMetrics] switched off through
    [updateConfig], a read that returns the value of an unexpired entry
    counts no hit, and a read that finds a lapsed entry deletes it and
    counts no miss. *)
Lemma unmetered_reads_are_not_counted :
  enableMetrics (config CacheMore.metricsOff) = false
  /\ eval (getLocationData "young" 1000001) CacheMore.metricsOff
     = Some []
  /\ hits (_metrics (exec (getLocationData "young" 1000001)
                          CacheMore.metricsOff))
     = hits (_metrics CacheMore.metricsOff)
  /\ JsMap.has (locationDataCache CacheMore.metricsOff) "old" = true
  /\ eval (getLocationData "old" 1500000) CacheMore.metricsOff = None
  /\ JsMap.has (locationDataCache
                  (exec (getLocationData "old" 1500000)
                        CacheMore.metricsOff)) "old" = false
  /\ misses (_metrics (exec (getLocationData "old" 1500000)
                            CacheMore.metricsOff))
     = misses (_metrics CacheMore.metricsOff)
  /\ ~ lookup_post locationDataRef "old" 1500000 CacheMore.metricsOff
        (eval (getLocationData "old" 1500000) CacheMore.metricsOff)
        (exec (getLocationData "old" 1500000) CacheMore.metricsOff).
Proof.
  repeat (split; [reflexivity|]).
  unfold lookup_post.
  replace (JsMap.get (read locationDataRef CacheMore.metricsOff) "old")
    with (Some (EvictionSpec.freshEntry ([] : list LocationPoint)
                  1200000 0)) by reflexivity.
  destruct (Z_lt_dec _ _) as [_|Hn]; [|exfalso; apply Hn; vm_compute;
                                       reflexivity].
  intros (_ & _ & _ & _ & Hm). vm_compute in Hm. discriminate.
Qed.

(** C7, amended.  A cache read of a key at time [now], under either
    setting of [enableMetrics]: a missing key gives absent; an entry
    with [now - timestamp > ttl] gives absent and is deleted by the
    read; any other entry gives its value, gets [lastAccessed] set to
    [now] and [accessCount] incremented, and the other keys stay as they
    were.  With metrics enabled the two absent reads count a miss and
    the successful read a hit; with metrics disabled neither counter
    moves.  This holds for both cache instances. *)
Theorem get_semantics_under_either_setting :
  forall (s : State) (key : string) (now : Z),
    lookup_effect locationDataRef key now s
      (eval (getLocationData key now) s) (exec (getLocationData key now) s)
    /\ lookup_effect availableDatesRef key now s
         (eval (getAvailableDates key now) s)
         (exec (getAvailableDates key now) s).
Proof.
  intros s key now. split.
  - exact (lookup_effect_spec locationDataRef locationDataRef_laws
             key now s).
  - exact (lookup_effect_spec availableDatesRef availableDatesRef_laws
             key now s).
Qed.

Lemma has_leaves_expired_entry_witness :
  storedExpired Locations oneTrack "7-Mon Jun 03 2024" 1200001
  /\ hasKey Locations "7-Mon Jun 03 2024" 1200001 oneTrack
     = (false, oneTrack).
Proof.
  assert (storedExpired Locations oneTrack "7-Mon Jun 03 2024" 1200001)
    as H.
  { eexists. split; [reflexivity|]. vm_compute. reflexivity. }
  split; [exact H|].
  apply (has_leaves_expired_entry Locations oneTrack
           "7-Mon Jun 03 2024" 1200001 H).
Defined.

(** C1 as stated fails: after three hits and one miss the reported hit
    rate is 75, not 0.75. *)
Lemma hitRate_is_not_a_fraction :
  hits (metrics threeHitsOneMiss) = 3
  /\ misses (metrics threeHitsOneMiss) = 1
  /\ (hitRate (metrics threeHitsOneMiss) == 75)%Q
  /\ ~ (hitRate (metrics threeHitsOneMiss) == 3 # 4)%Q.
Proof.
  repeat split; try reflexivity. vm_compute. discriminate.
Qed.

(** C1, amended.  In every metrics snapshot whose counters are not
    negative, the hit and miss counts are the service's counters and the
    hit rate is the percentage 100 * hits / (hits + misses), and 0 when
    hits + misses = 0. *)
Theorem hitRate_is_percentage :
  forall s : State,
    0 <= hits (_metrics s) -> 0 <= misses (_metrics s) ->
    hits (metrics s) = hits (_metrics s)
    /\ misses (metrics s) = misses (_metrics s)
    /\ (hitRate (metrics s) ==
         if hits (metrics s) + misses (metrics s) =? 0 then 0
         else 100 * inject_Z (hits (metrics s))
              / inject_Z (hits (metrics s) + misses (metrics s)))%Q.
Proof.
  intros s Hh Hm. unfold metrics. cbn [hits misses hitRate].
  repeat split.
  destruct (hits (_metrics s) + misses (_metrics s) =? 0) eqn:E.
  - apply Z.eqb_eq in E.
    assert ((0 <? hits (_metrics s) + misses (_metrics s)) = false) as ->
      by (apply Z.ltb_ge; lia).
    reflexivity.
  - apply Z.eqb_neq in E.
    assert ((0 <? hits (_metrics s) + misses (_metrics s)) = true) as ->
      by (apply Z.ltb_lt; lia).
    unfold Qdiv. ring.
Qed.

Lemma hitRate_is_percentage_witness :
  (hitRate (metrics threeHitsOneMiss) == 100 * inject_Z 3 / inject_Z 4)%Q.
Proof.
  assert (0 <= hits (_metrics threeHitsOneMiss)) as Hh
    by (vm_compute; discriminate).
  assert (0 <= misses (_metrics threeHitsOneMiss)) as Hm
    by (vm_compute; discriminate).
  exact (proj2 (proj2 (hitRate_is_percentage threeHitsOneMiss Hh Hm))).
Defined.

End CacheFacts.

(* ------------------------------------------------------------------ *)
(** ** Eviction *)

Module EvictionFacts.
Import Cache CacheSpec EvictionSpec JsMapFacts CacheFacts.

Section Oldest.
Context {T : Type}.
Implicit Types (l m : JsMap.t (CacheEntry T)).

Lemma oldest_fold_unchanged l ok ot :
  Forall (fun kv => ot <= accessedAt kv) l ->
  fold_left oldestStep l (ok, ot) = (ok, ot).
Proof.
  induction 1 as [|kv r Hkv _ IH]; cbn [fold_left]; auto.
  unfold oldestStep at 2. cbn [snd fst]. unfold accessedAt in Hkv.
  assert ((lastAccessed (snd kv) <? ot) = false) as ->
    by (apply Z.ltb_ge; lia).
  exact IH.
Qed.

Lemma oldest_fold_bound l ok ot x :
  x < ot -> Forall (fun kv => x < accessedAt kv) l ->
  x < snd (fold_left oldestStep l (ok, ot)).
Proof.
  intros Hx H. revert ok ot Hx.
  induction H as [|kv r Hkv _ IH]; intros ok ot Hx; cbn [fold_left];
    auto.
  unfold oldestStep at 2. cbn [snd fst].
  destruct (lastAccessed (snd kv) <? ot); apply IH; auto.
Qed.

(** The loop returns the least recently used entry. *)
Lemma findOldest_oldestIs m now k e :
  oldestIs m now k e -> findOldest m now = (Some k, lastAccessed e).
Proof.
  intros (l1 & l2 & -> & Hnow & H1 & H2). unfold findOldest.
  rewrite fold_left_app. cbn [fold_left].
  pose proof (oldest_fold_bound l1 None now (lastAccessed e) Hnow H1)
    as Hb.
  destruct (fold_left oldestStep l1 (None, now)) as [ok ot].
  cbn [snd] in Hb. unfold oldestStep at 2. cbn [snd fst].
  assert ((lastAccessed e <? ot) = true) as -> by (apply Z.ltb_lt; lia).
  now apply oldest_fold_unchanged.
Qed.

(** When every entry was last accessed at [now] or later, the loop
    finds no key. *)
Lemma findOldest_none m now :
  Forall (fun kv => now <= accessedAt kv) m ->
  findOldest m now = (None, now).
Proof. apply oldest_fold_unchanged. Qed.

(** A least recently used entry exists as soon as one entry was last
    accessed before [now]. *)
Lemma oldestIs_exists m now :
  Exists (fun kv => accessedAt kv < now) m ->
  exists k e, oldestIs m now k e.
Proof.
  induction m as [|[k0 e0] r IH]; intros Hex; [inversion Hex|].
  destruct (Exists_dec (fun kv : string * CacheEntry T =>
                          accessedAt kv < now) r
              (fun kv => Z_lt_dec (accessedAt kv) now)) as [Hr|Hr].
  - destruct (IH Hr) as (k & e & l1 & l2 & -> & Hnow & H1 & H2).
    destruct (Z_le_gt_dec (lastAccessed e0) (lastAccessed e)) as [Hle|Hgt].
    + exists k0, e0, [], (l1 ++ (k, e) :: l2). cbn [app].
      repeat split; [lia|constructor|].
      apply Forall_app. split.
      * eapply Forall_impl; [|exact H1]. cbn. intros; lia.
      * constructor; [unfold accessedAt; cbn; lia|].
        eapply Forall_impl; [|exact H2]. cbn. intros; lia.
    + exists k, e, ((k0, e0) :: l1), l2. cbn [app].
      repeat split; auto.
      constructor; auto. unfold accessedAt. cbn. lia.
  - assert (lastAccessed e0 < now) as H0.
    { inversion Hex as [? ? H|? ? H]; subst; [exact H|contradiction]. }
    exists k0, e0, [], r. cbn [app]. repeat split; auto.
    apply Forall_forall. intros kv Hin.
    destruct (Z_le_gt_dec (lastAccessed e0) (accessedAt kv)); auto.
    exfalso. apply Hr. apply Exists_exists. exists kv. split; auto. lia.
Qed.

End Oldest.

Section Put.
Context {T : Type} (c : CacheRef T) (L : RefLaws c).

(** A put of a new key into a full map whose least recently used entry
    is [(k, e)]: that entry and no other is removed, then the key is
    written. *)
Lemma setCachedData_evicts_oldest s key (d : T) ttl_ now k e :
  maxSize (config s) <= JsMap.size (read c s) ->
  JsMap.has (read c s) key = false ->
  oldestIs (read c s) now k e ->
  truthy k = true ->
  read c (exec (setCachedData c key d ttl_ now) s)
  = JsMap.set (JsMap.delete (read c s) k) key (freshEntry d ttl_ now).
Proof.
  intros Hfull Hnew Hold Hk.
  unfold setCachedData. rewrite !exec_bind.
  cbv beta iota delta [gets eval exec fst snd].
  assert ((maxSize (config s) <=? JsMap.size (read c s)) = true) as ->
    by (now apply Z.leb_le).
  rewrite Hnew. cbn [negb andb when].
  unfold evictLeastRecentlyUsed at 1 2.
  cbv beta iota delta [bind gets].
  rewrite (findOldest_oldestIs _ _ _ _ Hold). cbn [fst]. rewrite Hk.
  cbv beta iota delta [modify].
  pose proof (read_updateEvictionMetrics c L 1
                (write c (JsMap.delete (read c s) k) s)) as R.
  unfold exec in R.
  destruct (updateEvictionMetrics 1 _) as [[] s1]. cbn [snd] in *.
  now rewrite (read_write c L), R, (read_write c L).
Qed.

(** A put of a new key into a full map all of whose entries were last
    accessed at [now] or later removes nothing. *)
Lemma setCachedData_without_eviction s key (d : T) ttl_ now :
  maxSize (config s) <= JsMap.size (read c s) ->
  JsMap.has (read c s) key = false ->
  Forall (fun kv => now <= accessedAt kv) (read c s) ->
  exec (setCachedData c key d ttl_ now) s
  = write c (JsMap.set (read c s) key (freshEntry d ttl_ now)) s.
Proof.
  intros Hfull Hnew Hall.
  unfold setCachedData. rewrite !exec_bind.
  cbv beta iota delta [gets eval exec fst snd].
  assert ((maxSize (config s) <=? JsMap.size (read c s)) = true) as ->
    by (now apply Z.leb_le).
  rewrite Hnew. cbn [negb andb when].
  unfold evictLeastRecentlyUsed at 1 2.
  cbv beta iota delta [bind gets].
  rewrite (findOldest_none _ _ Hall). reflexivity.
Qed.

(** In a well-formed full map the put therefore keeps the size: one
    entry out, one in, and the entry removed is not the key written. *)
Lemma setCachedData_keeps_size s key (d : T) ttl_ now k e :
  JsMap.wf (read c s) ->
  maxSize (config s) <= JsMap.size (read c s) ->
  JsMap.has (read c s) key = false ->
  oldestIs (read c s) now k e ->
  truthy k = true ->
  let m' := read c (exec (setCachedData c key d ttl_ now) s) in
  JsMap.size m' = JsMap.size (read c s)
  /\ JsMap.has m' k = false
  /\ JsMap.has m' key = true
  /\ k <> key.
Proof.
  intros Hwf Hfull Hnew Hold Hk m'. subst m'.
  rewrite (setCachedData_evicts_oldest s key d ttl_ now k e)
    by assumption.
  assert (JsMap.has (read c s) k = true) as Hin.
  { destruct Hold as (l1 & l2 & Hm & _). unfold JsMap.has.
    destruct (JsMap.get (read c s) k) eqn:G; [reflexivity|].
    apply get_none_notin in G. exfalso. apply G.
    rewrite Hm. unfold JsMap.keys. rewrite map_app.
    apply in_or_app. right. now left. }
  assert (k <> key) as Hne by (intros ->; congruence).
  repeat split; auto.
  - rewrite size_set_new by (now apply has_none_delete).
    rewrite size_delete by assumption. lia.
  - unfold JsMap.has.
    rewrite get_set_other by assumption.
    now rewrite get_delete_same.
  - unfold JsMap.has. now rewrite get_set_same.
Qed.

End Put.

(** C6 on the code: with the default capacity of 100 reached by entries
    written within the millisecond of the put (clock reading 5), a put of
    a new key evicts nothing, and 101 entries remain; one millisecond
    later the same put evicts the first key. *)
Theorem full_cache_grows_within_one_millisecond :
  maxSize (config fullAtFive) = 100
  /\ JsMap.size (locationDataCache fullAtFive) = 100
  /\ JsMap.has (locationDataCache fullAtFive) "fresh" = false
  /\ JsMap.size (locationDataCache
       (exec (setLocationData "fresh" [] None 5) fullAtFive)) = 101
  /\ evictions (_metrics
       (exec (setLocationData "fresh" [] None 5) fullAtFive)) = 0
  /\ JsMap.size (locationDataCache
       (exec (setLocationData "fresh" [] None 6) fullAtFive)) = 100
  /\ JsMap.has (locationDataCache
       (exec (setLocationData "fresh" [] None 6) fullAtFive)) "k0" = false.
Proof. vm_compute. repeat split. Qed.

End EvictionFacts.

(* ------------------------------------------------------------------ *)
(** ** Headings *)

Module CompassFacts.
Import History.

Lemma Qfloor_add_Z (x : Q) (k : Z) : Qfloor (x + inject_Z k) = Qfloor x + k.
Proof.
  destruct x as [n d]. unfold Qfloor, Qplus, inject_Z. cbn [Qnum Qden].
  rewrite Pos.mul_1_r, Z.mul_1_r. apply Z.div_add. discriminate.
Qed.

Lemma Math_round_nonneg (x : Q) : (0 <= x)%Q -> 0 <= Math_round x.
Proof.
  intros H. unfold Math_round.
  change 0 with (Qfloor 0). apply Qfloor_resp_le.
  apply Qle_trans with x; [exact H|].
  rewrite <- (Qplus_0_r x) at 1. apply Qplus_le_r. discriminate.
Qed.

Lemma Math_round_turn (h : Q) :
  Math_round ((h + 360) / 45) = Math_round (h / 45) + 8.
Proof.
  unfold Math_round. rewrite <- Qfloor_add_Z.
  apply Qfloor_comp. unfold inject_Z. field.
Qed.

Lemma index_in_range (i : Z) :
  0 <= i < 8 ->
  exists label, In label directions /\ index_array directions i = Some label.
Proof.
  intros H. unfold index_array.
  assert ((i <? 0) = false) as -> by (apply Z.ltb_ge; lia).
  assert (i = 0 \/ i = 1 \/ i = 2 \/ i = 3 \/ i = 4 \/ i = 5 \/ i = 6
          \/ i = 7) as Hc by lia.
  repeat (destruct Hc as [->|Hc]); try subst i;
    (eexists; split; [|reflexivity]); cbn; tauto.
Qed.

(** C5 as stated fails: the heading -45 gets no label, although the
    heading 315, one turn further, is labelled NW. *)
Lemma negative_heading_has_no_label :
  getDirectionText (-45) = None
  /\ getDirectionText (-45 + 360) = Some "NW"%string.
Proof. split; reflexivity. Qed.

(** C5, amended.  The heading is not normalised.  For every heading
    [h >= 0], values above 360 included, the label is entry
    [round(h / 45) mod 8] of the eight labels, so it is one of them, and
    the headings [h] and [h + 360] get the same label. *)
Theorem compass_label_of_nonnegative_heading :
  forall h : Q,
    (0 <= h)%Q ->
    getDirectionText h
    = nth_error directions (Z.to_nat (Math_round (h / 45) mod 8))
    /\ (exists label,
          In label directions /\ getDirectionText h = Some label)
    /\ getDirectionText (h + 360) = getDirectionText h.
Proof.
  intros h Hh.
  assert (0 <= Math_round (h / 45)) as Hn.
  { apply Math_round_nonneg. unfold Qdiv.
    apply Qmult_le_0_compat; [exact Hh|discriminate]. }
  assert (Z.rem (Math_round (h / 45)) 8 = Math_round (h / 45) mod 8) as Hr
    by (apply Z.rem_mod_nonneg; lia).
  pose proof (Z.mod_pos_bound (Math_round (h / 45)) 8 eq_refl) as Hb.
  unfold getDirectionText. rewrite Math_round_turn.
  rewrite (Z.rem_mod_nonneg (Math_round (h / 45) + 8) 8) by lia.
  replace ((Math_round (h / 45) + 8) mod 8)
    with (Math_round (h / 45) mod 8)
    by (rewrite <- (Z_mod_plus_full (Math_round (h / 45)) 1 8);
        f_equal; lia).
  rewrite Hr. repeat split.
  - unfold index_array.
    assert ((Math_round (h / 45) mod 8 <? 0) = false) as ->
      by (apply Z.ltb_ge; lia).
    reflexivity.
  - apply index_in_range. exact Hb.
Qed.

Lemma compass_label_of_nonnegative_heading_witness :
  (0 <= 400)%Q
  /\ getDirectionText (400 + 360) = getDirectionText 400.
Proof.
  assert (0 <= 400)%Q as H by discriminate.
  split; [exact H|].
  exact (proj2 (proj2 (compass_label_of_nonnegative_heading 400 H))).
Defined.

End CompassFacts.

(* ------------------------------------------------------------------ *)
(** ** Track statistics *)

Module StatisticsFacts.
Import History TrackSpec.

Section Statistics.
Variable getTime : string -> option Z.
Variable toLocaleString : string -> string.
Variable calculateDistance : Q * Q -> Q * Q -> Q.

Local Abbreviation enhanceFrom :=
  (History.enhanceFrom toLocaleString calculateDistance).
Local Abbreviation enhanceLocationData :=
  (History.enhanceLocationData toLocaleString calculateDistance).
Local Abbreviation computeStatistics :=
  (History.computeStatistics getTime toLocaleString calculateDistance).

(** The km/h speed of a sample does not depend on its predecessor. *)
Lemma speedKmh_enhanceFrom prev l :
  map speedKmh (enhanceFrom prev l) = map kmh l.
Proof.
  revert prev. induction l as [|p r IH]; intros prev; cbn; auto.
  now rewrite IH.
Qed.

Lemma positiveSpeeds_moving l :
  positiveSpeeds (enhanceLocationData l) = movingSpeeds l.
Proof.
  unfold positiveSpeeds, enhanceLocationData, movingSpeeds.
  now rewrite speedKmh_enhanceFrom.
Qed.

Lemma sumZ_fold_right l : sumZ l = fold_right Z.add 0 l.
Proof.
  unfold sumZ. apply fold_symmetric; intros; lia.
Qed.

Lemma averageSpeedOf_mean l : averageSpeedOf l = mean l.
Proof.
  destruct l as [|x r]; [reflexivity|].
  unfold averageSpeedOf, mean. now rewrite sumZ_fold_right.
Qed.

Lemma mean_singleton x : (mean [x] == inject_Z x)%Q.
Proof.
  unfold mean. cbn [fold_right List.length Z.of_nat].
  rewrite Z.add_0_r. change (inject_Z (Z.pos (Pos.of_succ_nat 0)))
    with 1%Q. field.
Qed.

(** C8, amended.  The empty track has no statistics.  For a track of
    one sample whose time stamp is a valid date, the total distance and
    the duration are 0 and the maximum and average speed are both the
    sample's speed converted to km/h and rounded, or 0 when that is not
    above 0.  For every track, the average speed is the mean of the
    rounded km/h speeds over only the samples where that speed is above
    0, and 0 when there is none. *)
Theorem statistics_of_track :
  forall (p : LocationPoint) (t : Z) (track : list LocationPoint),
    getTime (utcTime p) = Some t ->
    computeStatistics [] = None
    /\ (exists st,
          computeStatistics [p] = Some st
          /\ (totalDistance st == 0)%Q
          /\ duration st = Some 0
          /\ maxSpeed st = (if 0 <? kmh p then kmh p else 0)
          /\ (averageSpeed st ==
              inject_Z (if 0 <? kmh p then kmh p else 0))%Q)
    /\ match computeStatistics track with
       | None => track = []
       | Some st =>
           track <> []
           /\ (averageSpeed st == mean (movingSpeeds track))%Q
           /\ (movingSpeeds track = [] -> (averageSpeed st == 0)%Q)
       end.
Proof.
  intros p t track Ht. split; [reflexivity|]. split.
  - eexists. split; [reflexivity|].
    unfold statisticsOf.
    cbn [totalDistance duration maxSpeed averageSpeed last].
    rewrite positiveSpeeds_moving, Ht.
    unfold movingSpeeds. cbn [map filter].
    repeat split.
    + f_equal. lia.
    + destruct (0 <? kmh p); reflexivity.
    + destruct (0 <? kmh p); [|reflexivity].
      rewrite averageSpeedOf_mean. apply mean_singleton.
  - destruct track as [|first rest]; [reflexivity|].
    cbn [History.computeStatistics]. unfold statisticsOf.
    cbn [averageSpeed].
    rewrite positiveSpeeds_moving, averageSpeedOf_mean.
    split; [discriminate|]. split; [reflexivity|].
    intros E. rewrite E. reflexivity.
Qed.

(** A sample whose rounded km/h speed is not above 0 does not enter the
    average, wherever it stands in the track. *)
Lemma stationary_sample_excluded l1 l2 p :
  kmh p <= 0 ->
  movingSpeeds (l1 ++ p :: l2) = movingSpeeds (l1 ++ l2).
Proof.
  intros H. unfold movingSpeeds. rewrite !map_app, !filter_app.
  cbn [map filter].
  assert ((0 <? kmh p) = false) as -> by (apply Z.ltb_ge; lia).
  reflexivity.
Qed.

End Statistics.

(** C8 as stated fails: a single sample moving at 10 m/s gives a maximum
    and an average speed of 36, not 10. *)
Lemma single_sample_speed_is_converted :
  exists st,
    Sample.computeStatistics [tenMetresPerSecond] = Some st
    /\ maxSpeed st = 36
    /\ (averageSpeed st == 36)%Q
    /\ ~ (inject_Z (maxSpeed st) == speed tenMetresPerSecond)%Q
    /\ ~ (averageSpeed st == speed tenMetresPerSecond)%Q.
Proof.
  eexists. split; [reflexivity|]. vm_compute.
  repeat split; discriminate.
Qed.

Lemma statistics_of_track_witness :
  Sample.getTime (utcTime tenMetresPerSecond) = Some 1000
  /\ exists st,
       Sample.computeStatistics [tenMetresPerSecond] = Some st
       /\ (totalDistance st == 0)%Q
       /\ duration st = Some 0
       /\ maxSpeed st = 36
       /\ (averageSpeed st == inject_Z 36)%Q.
Proof.
  assert (Sample.getTime (utcTime tenMetresPerSecond) = Some 1000) as H
    by reflexivity.
  split; [exact H|].
  exact (proj1 (proj2
    (statistics_of_track Sample.getTime Sample.toLocaleString
       Sample.calculateDistance tenMetresPerSecond 1000 [] H))).
Defined.

End StatisticsFacts.

(* ------------------------------------------------------------------ *)
(** ** The history service *)

Module StoreFacts.
Import History StoreSpec CacheSpec JsMapFacts CacheFacts.

Lemma cache_run {DateT A} (c : Cache.M A) (s : State DateT) :
  cache c s
  = (eval c (cacheService s), set_cacheService (exec c (cacheService s)) s).
Proof.
  unfold cache, lift, eval, exec. now destruct (c (cacheService s)).
Qed.

Lemma set_cacheService_same {DateT} (s : State DateT) :
  set_cacheService (cacheService s) s = s.
Proof. now destruct s. Qed.

(** C3 as stated fails: selecting another device leaves the selected
    date, the current track and the current statistics in place. *)
Lemma setDevice_keeps_date_track_and_statistics :
  selectedDate (exec (setSelectedDevice (Some 9)) loadedTwoDays)
  = Some 19877
  /\ locationData (exec (setSelectedDevice (Some 9)) loadedTwoDays)
     = [first_fix; second_fix]
  /\ _statistics (exec (setSelectedDevice (Some 9)) loadedTwoDays) <> None.
Proof. repeat split. discriminate. Qed.

(** C3, amended.  [setSelectedDevice id] sets the selected device to
    [id] and clears the last error; the selected date, the current track,
    the current statistics, the loading flag and both caches with their
    metrics are left as they were. *)
Theorem setDevice_sets_device_and_clears_error :
  forall (DateT : Type) (s : State DateT) (id : option Z),
    let s' := exec (setSelectedDevice id) s in
    selectedDevice s' = id
    /\ error s' = None
    /\ selectedDate s' = selectedDate s
    /\ locationData s' = locationData s
    /\ _statistics s' = _statistics s
    /\ loading s' = loading s
    /\ availableDates s' = availableDates s
    /\ _lastUpdated s' = _lastUpdated s
    /\ cacheService s' = cacheService s
    /\ httpLog s' = httpLog s.
Proof. intros DateT s id. cbn. repeat split. Qed.

Section Service.
Variable DateT : Type.
Variable toDateString : DateT -> string.
Variable addDays : DateT -> Z -> DateT.
Variable getTime : string -> option Z.
Variable toLocaleString : string -> string.
Variable calculateDistance : Q * Q -> Q * Q -> Q.

Local Abbreviation getLocationData :=
  (History.getLocationData DateT toDateString addDays getTime
     toLocaleString calculateDistance).
Local Abbreviation refreshData :=
  (History.refreshData DateT toDateString addDays getTime
     toLocaleString calculateDistance).
Local Abbreviation locationKey := (History.locationKey DateT toDateString).
Local Abbreviation prefetchOne :=
  (History.prefetchOne DateT toDateString addDays).
Local Abbreviation prefetchAdjacentDates :=
  (History.prefetchAdjacentDates DateT toDateString addDays).
Local Abbreviation adjacent := (StoreSpec.adjacent DateT toDateString addDays).
Local Abbreviation computeStatistics :=
  (History.computeStatistics getTime toLocaleString calculateDistance).

Implicit Types (s : State DateT).

(** *** refreshData *)

Lemma refreshData_without_selection remote now later s :
  selectedDevice s = None \/ selectedDate s = None ->
  refreshData remote now later s = (None, s).
Proof.
  intros H. cbv beta iota zeta delta [History.refreshData bind gets].
  destruct (selectedDevice s), (selectedDate s); destruct H; try discriminate;
    reflexivity.
Qed.

Lemma refreshData_with_selection remote now later s dev d :
  selectedDevice s = Some dev -> dev <> 0 -> selectedDate s = Some d ->
  exec (refreshData remote now later) s
  = exec (getLocationData dev d remote now later)
         (set_cacheService (exec Cache.clearAll (cacheService s)) s).
Proof.
  intros Hdev Hnz Hdate.
  cbv beta iota zeta delta [History.refreshData bind gets exec].
  rewrite Hdev, Hdate. cbn [falsyDevice].
  assert ((dev =? 0) = false) as -> by (now apply Z.eqb_neq).
  rewrite cache_run.
  now destruct (getLocationData dev d remote now later _).
Qed.

Lemma clearAll_empties (cs : Cache.State) :
  Cache.availableDatesCache (exec Cache.clearAll cs) = JsMap.empty
  /\ Cache.locationDataCache (exec Cache.clearAll cs) = JsMap.empty
  /\ Cache._metrics (exec Cache.clearAll cs) = Cache.zeroMetrics.
Proof. repeat split. Qed.

(** *** getLocationData *)

Lemma prefetchOne_run targetId date now offset s :
  prefetchOne targetId date now offset s
  = (if eval (Cache.hasLocationData
                (locationKey targetId (addDays date offset)) now)
             (cacheService s)
     then [] else [adjacent targetId date offset], s).
Proof.
  cbv beta iota zeta delta [History.prefetchOne bind]. rewrite cache_run.
  change Cache.hasLocationData
    with (Cache.hasValidCacheEntry Cache.locationDataRef).
  rewrite hasValidCacheEntry_pure, set_cacheService_same.
  now destruct (eval _ _).
Qed.

Lemma prefetchAdjacentDates_run targetId date now s :
  prefetchAdjacentDates targetId date now s
  = (eval (prefetchOne targetId date now (-1)) s
     ++ eval (prefetchOne targetId date now 1) s, s).
Proof.
  cbv beta iota zeta delta [History.prefetchAdjacentDates bind ret eval].
  now rewrite !prefetchOne_run.
Qed.

Lemma prefetchOne_eval targetId date now offset s :
  eval (prefetchOne targetId date now offset) s
  = if eval (Cache.hasLocationData
               (locationKey targetId (addDays date offset)) now)
            (cacheService s)
    then [] else [adjacent targetId date offset].
Proof. unfold eval at 1. now rewrite prefetchOne_run. Qed.

Lemma prefetchAdjacentDates_eval targetId date now s :
  eval (prefetchAdjacentDates targetId date now) s
  = eval (prefetchOne targetId date now (-1)) s
    ++ eval (prefetchOne targetId date now 1) s.
Proof. unfold eval at 1. now rewrite prefetchAdjacentDates_run. Qed.

Lemma getLocationData_hit targetId date remote now later s c :
  eval (Cache.getLocationData (locationKey targetId date) now)
       (cacheService s) = Some c ->
  getLocationData targetId date remote now later s
  = ((c, []),
     set_locationData c
       (set_cacheService
          (exec (Cache.getLocationData (locationKey targetId date) now)
                (cacheService s)) s)).
Proof.
  intros H. cbv beta iota zeta delta [History.getLocationData bind].
  rewrite cache_run, H. reflexivity.
Qed.

Lemma getLocationData_failed targetId date remote now later s n :
  eval (Cache.getLocationData (locationKey targetId date) now)
       (cacheService s) = None ->
  retry 2 remote 0 = (None, n) ->
  getLocationData targetId date remote now later s
  = (([], []),
     afterFailure DateT s (locationKey targetId date)
       (Playback targetId date) n now).
Proof.
  intros H R. cbv beta iota zeta delta [History.getLocationData bind].
  rewrite cache_run, H. cbv beta iota. rewrite R. reflexivity.
Qed.

Lemma getLocationData_rejected targetId date remote now later s n r :
  eval (Cache.getLocationData (locationKey targetId date) now)
       (cacheService s) = None ->
  retry 2 remote 0 = (Some r, n) ->
  r_code r <> 200 ->
  getLocationData targetId date remote now later s
  = (([], []),
     afterFailure DateT s (locationKey targetId date)
       (Playback targetId date) n now).
Proof.
  intros H R C. cbv beta iota zeta delta [History.getLocationData bind].
  rewrite cache_run, H. cbv beta iota. rewrite R.
  assert ((r_code r =? 200) = false) as -> by (now apply Z.eqb_neq).
  reflexivity.
Qed.

Lemma getLocationData_loaded targetId date remote now later s n r :
  eval (Cache.getLocationData (locationKey targetId date) now)
       (cacheService s) = None ->
  retry 2 remote 0 = (Some r, n) ->
  r_code r = 200 ->
  let locations := match r_data r with Some d => d | None => [] end in
  let s' :=
    afterSuccess DateT s (locationKey targetId date)
      (Playback targetId date) n now later locations
      (computeStatistics locations) in
  getLocationData targetId date remote now later s
  = ((locations,
      eval (prefetchAdjacentDates targetId date later) s'), s').
Proof.
  intros H R C locations s'.
  cbv beta iota zeta delta [History.getLocationData bind].
  rewrite cache_run, H. cbv beta iota. rewrite R, C.
  cbv beta iota delta [Z.eqb Pos.eqb]. fold locations.
  cbv beta iota zeta delta
    [setLoading clearError send modify updateLocationDataState
     History.updateStatistics ret].
  rewrite cache_run. cbv beta iota.
  rewrite prefetchAdjacentDates_run.
  unfold eval at 3. rewrite prefetchAdjacentDates_run.
  unfold eval. rewrite !prefetchOne_run. reflexivity.
Qed.

(** *** Failure is not cached *)

Lemma retry_attempts {A} count (source : nat -> option A) i :
  (i < snd (retry count source i))%nat.
Proof.
  revert i. induction count as [|c IH]; intros i; cbn [retry];
    destruct (source i); cbn [snd]; auto.
  specialize (IH (S i)). lia.
Qed.

Lemma lookup_none_absent {T} (c : Cache.CacheRef T) (L : RefLaws c)
  key now (cs : Cache.State) :
  eval (lookup c key now) cs = None ->
  JsMap.get (Cache.read c (exec (lookup c key now) cs)) key = None.
Proof.
  intros H.
  destruct (JsMap.get (Cache.read c cs) key) as [e|] eqn:G.
  - destruct (Cache.isExpired e now) eqn:X.
    + assert (expiredAt (Cache.read c cs) key now) as Hexp.
      { exists e. split; [exact G|]. now apply Z.ltb_lt. }
      pose proof (lookup_deletes_expired c L key now cs Hexp now
                    (Z.le_refl now)) as Hd.
      unfold JsMap.has in Hd.
      destruct (JsMap.get (Cache.read c (exec (lookup c key now) cs))
                  key); [discriminate|reflexivity].
    + unfold lookup in H. rewrite !eval_bind in H.
      unfold eval at 2 in H.
      rewrite (getCachedData_fresh c key now cs e G X) in H.
      discriminate.
  - unfold lookup. rewrite !exec_bind, exec_ret.
    unfold eval, exec at 2.
    rewrite (getCachedData_absent c key now cs G). cbn [fst snd].
    now rewrite (read_updateMetrics c L).
Qed.

Lemma absent_is_a_miss key now (cs : Cache.State) :
  JsMap.get (Cache.locationDataCache cs) key = None ->
  eval (Cache.getLocationData key now) cs = None.
Proof.
  intros G. change (Cache.getLocationData key now)
    with (lookup Cache.locationDataRef key now).
  unfold lookup. rewrite !eval_bind. unfold eval at 2.
  now rewrite (getCachedData_absent Cache.locationDataRef key now cs G).
Qed.

(** A load whose cache read finds nothing sends the request, at least
    once. *)
Lemma getLocationData_miss_sends targetId date remote now later s :
  eval (Cache.getLocationData (locationKey targetId date) now)
       (cacheService s) = None ->
  httpLog (exec (getLocationData targetId date remote now later) s)
  = repeat (Playback targetId date) (snd (retry 2 remote 0))
    ++ httpLog s
  /\ (1 <= snd (retry 2 remote 0))%nat.
Proof.
  intros H. split; [|apply retry_attempts].
  unfold exec. destruct (retry 2 remote 0) as [[r|] n] eqn:R.
  - destruct (Z.eq_dec (r_code r) 200) as [C|C].
    + now rewrite (getLocationData_loaded _ _ _ _ _ _ _ _ H R C).
    + now rewrite (getLocationData_rejected _ _ _ _ _ _ _ _ H R C).
  - now rewrite (getLocationData_failed _ _ _ _ _ _ _ H R).
Qed.

(** What a failed load does, whether the transport failed on all three
    attempts or the archive answered with a code other than 200: the
    track becomes empty, the error is set, nothing is stored under the
    key, so that a later load of the same key goes to the archive
    again; the statistics are the ones from before. *)
Lemma failed_load_effect targetId date remote now later s n :
  eval (Cache.getLocationData (locationKey targetId date) now)
       (cacheService s) = None ->
  (retry 2 remote 0 = (None, n)
   \/ exists r, retry 2 remote 0 = (Some r, n) /\ r_code r <> 200) ->
  let s' := exec (getLocationData targetId date remote now later) s in
  locationData s' = []
  /\ error s' = Some "Failed to load location data"%string
  /\ loading s' = false
  /\ _statistics s' = _statistics s
  /\ JsMap.get (Cache.locationDataCache (cacheService s'))
       (locationKey targetId date) = None
  /\ forall remote' now' later',
       (1 <= snd (retry 2 remote' 0))%nat
       /\ httpLog
            (exec (getLocationData targetId date remote' now' later') s')
          = repeat (Playback targetId date) (snd (retry 2 remote' 0))
            ++ httpLog s'.
Proof.
  intros H R s'.
  assert (s' = afterFailure DateT s (locationKey targetId date)
                 (Playback targetId date) n now) as Hs'.
  { subst s'. unfold exec. destruct R as [R|(r & R & C)].
    - now rewrite (getLocationData_failed _ _ _ _ _ _ _ H R).
    - now rewrite (getLocationData_rejected _ _ _ _ _ _ _ _ H R C). }
  assert (JsMap.get (Cache.locationDataCache (cacheService s'))
            (locationKey targetId date) = None) as Habsent.
  { rewrite Hs'. cbn [cacheService afterFailure afterMiss set_loading
                      set_locationData set_error set_httpLog
                      set_cacheService].
    apply (lookup_none_absent Cache.locationDataRef locationDataRef_laws).
    exact H. }
  repeat split; try (rewrite Hs'; reflexivity); auto.
  - apply retry_attempts.
  - apply getLocationData_miss_sends. now apply absent_is_a_miss.
Qed.

(** *** Prefetch *)

Lemma prefetchRun_effect (p : Prefetch DateT) outcome now s :
  foreground_unchanged DateT s (exec (prefetchRun p outcome now) s)
  /\ httpLog (exec (prefetchRun p outcome now) s)
     = Playback (pf_targetId p) (pf_date p) :: httpLog s
  /\ cacheService (exec (prefetchRun p outcome now) s)
     = match outcome with
       | Some response =>
           exec (Cache.setLocationData (pf_key p)
                   (match r_data response with
                    | Some d => d | None => [] end) None now)
                (cacheService s)
       | None => cacheService s
       end.
Proof.
  unfold foreground_unchanged, exec.
  cbv beta iota zeta delta [History.prefetchRun bind send modify ret].
  destruct outcome as [response|].
  - rewrite cache_run. cbn. repeat split.
  - cbn. repeat split.
Qed.

End Service.

(** C2 on the code: with device 7 and day 19877 selected, and the cache
    holding the track of day 19900 and the availability of June 2024 as
    well, a refresh empties both caches and resets the metrics before it
    reloads: the entry of the other day is gone and the three misses
    counted so far are forgotten. *)
Theorem refresh_clears_both_caches :
  selectedDevice loadedTwoDays = Some 7
  /\ selectedDate loadedTwoDays = Some 19877
  /\ JsMap.keys (Cache.locationDataCache (cacheService loadedTwoDays))
     = ["7-19900"; "7-19877"]%string
  /\ JsMap.keys (Cache.availableDatesCache (cacheService loadedTwoDays))
     = ["7-2024-6"]%string
  /\ misses (Cache._metrics (cacheService loadedTwoDays)) = 3
  /\ JsMap.keys (Cache.locationDataCache (cacheService refreshed))
     = ["7-19877"]%string
  /\ JsMap.has (Cache.locationDataCache (cacheService refreshed))
       "7-19900" = false
  /\ JsMap.keys (Cache.availableDatesCache (cacheService refreshed)) = []
  /\ misses (Cache._metrics (cacheService refreshed)) = 1.
Proof. vm_compute. repeat split. Qed.

(** C4 on the code: after a successful load of day 19877 the load of day
    19878 fails on all three attempts.  The track becomes empty, the
    error is set and nothing is cached for the key, but the statistics of
    day 19877 stay in place. *)
Theorem failed_load_keeps_old_statistics :
  _statistics loadedTwoDays <> None
  /\ locationData failedLoad = []
  /\ error failedLoad = Some "Failed to load location data"%string
  /\ JsMap.has (Cache.locationDataCache (cacheService failedLoad))
       "7-19878" = false
  /\ httpLog failedLoad
     = repeat (Playback 7 19878) 3 ++ httpLog loadedTwoDays
  /\ _statistics failedLoad = _statistics loadedTwoDays.
Proof. vm_compute. repeat split. discriminate. Qed.

End StoreFacts.

(* ------------------------------------------------------------------ *)
(** ** The cache service: writes, reads and sweeps *)

Module CacheMoreFacts.
Import Cache CacheSpec EvictionSpec CacheMore JsMapFacts CacheFacts
       EvictionFacts.

Lemma eval_ret {S A} (a : A) (s : S) : eval (ret a) s = a.
Proof. reflexivity. Qed.

Lemma exec_modify {S} (f : S -> S) (s : S) : exec (modify f) s = f s.
Proof. reflexivity. Qed.

Lemma exec_gets {S A} (f : S -> A) (s : S) : exec (gets f) s = s.
Proof. reflexivity. Qed.

Lemma eval_gets {S A} (f : S -> A) (s : S) : eval (gets f) s = f s.
Proof. reflexivity. Qed.

Lemma config_updateMetrics b s :
  config (exec (updateMetrics b) s) = config s.
Proof.
  cbv beta iota delta [updateMetrics exec bind gets ret setMetrics modify].
  now destruct (enableMetrics (config s)).
Qed.

Lemma config_updateEvictionMetrics n s :
  config (exec (updateEvictionMetrics n) s) = config s.
Proof.
  cbv beta iota delta
    [updateEvictionMetrics exec bind gets ret setMetrics modify].
  now destruct (enableMetrics (config s)).
Qed.

Lemma metrics_off_updateMetrics b s :
  enableMetrics (config s) = false -> updateMetrics b s = (tt, s).
Proof.
  intros H. cbv beta iota delta [updateMetrics bind gets]. now rewrite H.
Qed.

Lemma metrics_off_updateEvictionMetrics n s :
  enableMetrics (config s) = false -> updateEvictionMetrics n s = (tt, s).
Proof.
  intros H. cbv beta iota delta [updateEvictionMetrics bind gets].
  now rewrite H.
Qed.

Section Generic.
Context {T : Type} (c : CacheRef T) (L : RefLaws c).

(** What a read returns, whatever the configuration. *)
Lemma eval_lookup key now s :
  eval (lookup c key now) s
  = match JsMap.get (read c s) key with
    | None => None
    | Some e => if isExpired e now then None else Some (data e)
    end.
Proof.
  unfold lookup. rewrite !eval_bind, eval_ret.
  cbv beta iota delta [getCachedData eval bind gets].
  destruct (JsMap.get (read c s) key) as [e|]; [|reflexivity].
  destruct (isExpired e now); [|reflexivity].
  cbv beta iota delta [modify].
  now destruct (updateEvictionMetrics 1 _) as [[] s1].
Qed.

Lemma eval_hasValidCacheEntry key now s :
  eval (hasValidCacheEntry c key now) s
  = match JsMap.get (read c s) key with
    | None => false
    | Some e => negb (isExpired e now)
    end.
Proof.
  cbv beta iota delta [hasValidCacheEntry eval bind gets].
  now destruct (JsMap.get (read c s) key).
Qed.

Lemma setCachedData_final key (d : T) ttl_ now s :
  exec (setCachedData c key d ttl_ now) s
  = write c (JsMap.set (read c (beforeWrite c key now s)) key
               (freshEntry d ttl_ now))
            (beforeWrite c key now s).
Proof.
  unfold setCachedData, beforeWrite.
  rewrite !exec_bind, !exec_gets, !eval_gets, exec_modify.
  reflexivity.
Qed.

Lemma evict_config now s :
  config (exec (evictLeastRecentlyUsed c now) s) = config s.
Proof.
  unfold evictLeastRecentlyUsed. rewrite exec_bind, exec_gets, eval_gets.
  destruct (fst (findOldest (read c s) now)) as [k|]; [|reflexivity].
  destruct (truthy k); [|reflexivity].
  rewrite exec_bind, exec_modify, config_updateEvictionMetrics.
  apply (config_write c L).
Qed.

Lemma beforeWrite_config key now s :
  config (beforeWrite c key now s) = config s.
Proof.
  unfold beforeWrite.
  destruct (_ && _); [apply evict_config|reflexivity].
Qed.

Lemma setCachedData_config key (d : T) ttl_ now s :
  config (exec (setCachedData c key d ttl_ now) s) = config s.
Proof.
  rewrite setCachedData_final, (config_write c L).
  apply beforeWrite_config.
Qed.

Lemma setCachedData_stores key (d : T) ttl_ now s :
  JsMap.get (read c (exec (setCachedData c key d ttl_ now) s)) key
  = Some (freshEntry d ttl_ now).
Proof.
  rewrite setCachedData_final, (read_write c L). apply get_set_same.
Qed.

(** A put of a key that is present, or into a map below its capacity,
    removes nothing. *)
Lemma setCachedData_plain key (d : T) ttl_ now s :
  JsMap.has (read c s) key = true
  \/ JsMap.size (read c s) < maxSize (config s) ->
  exec (setCachedData c key d ttl_ now) s
  = write c (JsMap.set (read c s) key (freshEntry d ttl_ now)) s.
Proof.
  intros H. rewrite setCachedData_final. unfold beforeWrite.
  assert (((maxSize (config s) <=? JsMap.size (read c s))
           && negb (JsMap.has (read c s) key)) = false) as ->.
  { destruct H as [H|H].
    - rewrite H. apply andb_false_r.
    - assert ((maxSize (config s) <=? JsMap.size (read c s)) = false)
        as -> by (apply Z.leb_gt; lia).
      reflexivity. }
  reflexivity.
Qed.

(** Put then get. *)
Lemma put_then_get key (d : T) ttl_ now later s :
  eval (lookup c key later) (exec (setCachedData c key d ttl_ now) s)
  = if ttl_ <? later - now then None else Some d.
Proof.
  rewrite eval_lookup, setCachedData_stores. reflexivity.
Qed.

Lemma beforeWrite_plain key now s :
JsMap.has (read c s) key = true
\/ JsMap.size (read c s) < maxSize (config s) ->
beforeWrite c key now s = s.
Proof.
  intros H. unfold beforeWrite.
  assert (((maxSize (config s) <=? JsMap.size (read c s))
           && negb (JsMap.has (read c s) key)) = false) as ->.
  { destruct H as [H|H].
    - rewrite H. apply andb_false_r.
    - assert ((maxSize (config s) <=? JsMap.size (read c s)) = false)
        as -> by (apply Z.leb_gt; lia).
      reflexivity. }
  reflexivity.
Qed.

(** With metrics off, a put leaves the counters alone. *)
Lemma beforeWrite_metrics_off key now s :
  enableMetrics (config s) = false ->
  _metrics (beforeWrite c key now s) = _metrics s.
Proof.
  intros Hoff. unfold beforeWrite.
  destruct (_ && _); [|reflexivity]. cbn [when].
  unfold evictLeastRecentlyUsed.
  rewrite exec_bind, exec_gets, eval_gets.
  destruct (fst (findOldest (read c s) now)) as [k|]; [|reflexivity].
  destruct (truthy k); [|reflexivity].
  rewrite exec_bind, exec_modify. unfold exec.
  rewrite metrics_off_updateEvictionMetrics
    by (now rewrite (config_write c L)).
  apply (metrics_write c L).
Qed.

Lemma lookup_metrics_off key now s :
  enableMetrics (config s) = false ->
  _metrics (exec (lookup c key now) s) = _metrics s.
Proof.
  intros Hoff. unfold lookup. rewrite !exec_bind, exec_ret.
  assert (config (exec (getCachedData c key now) s) = config s
          /\ _metrics (exec (getCachedData c key now) s) = _metrics s)
    as [Hc Hm].
  { cbv beta iota delta [getCachedData exec bind gets].
    destruct (JsMap.get (read c s) key) as [e|]; [|now split].
    destruct (isExpired e now); cbv beta iota delta [modify ret].
    - rewrite metrics_off_updateEvictionMetrics
        by (now rewrite (config_write c L)).
      cbn [snd]. now rewrite (config_write c L), (metrics_write c L).
    - cbn [snd]. now rewrite (config_write c L), (metrics_write c L). }
  unfold exec at 1.
  rewrite metrics_off_updateMetrics by (now rewrite Hc).
  exact Hm.
Qed.

(** The sweep of one well-formed map keeps the entries that are alive,
    in their order, and counts the others. *)
Lemma delete_middle {V} (a r : JsMap.t V) k v :
  ~ In k (JsMap.keys a) -> ~ In k (JsMap.keys r) ->
  JsMap.delete (a ++ (k, v) :: r) k = a ++ r.
Proof.
  intros Ha Hr. unfold JsMap.delete. rewrite filter_app. cbn [filter fst].
  rewrite String.eqb_refl. cbn [negb].
  fold (JsMap.delete a k). fold (JsMap.delete r k).
  now rewrite !delete_notin.
Qed.

Lemma keys_alive_incl (m : JsMap.t (CacheEntry T)) now k :
  In k (JsMap.keys (alive m now)) -> In k (JsMap.keys m).
Proof.
  unfold JsMap.keys, alive. intros H.
  apply in_map_iff in H. destruct H as (kv & <- & Hin).
  apply filter_In in Hin. apply in_map. tauto.
Qed.

Lemma sweep_fold now (l : JsMap.t (CacheEntry T)) :
  forall (pre : JsMap.t (CacheEntry T)) n,
    JsMap.wf (pre ++ l) ->
    fold_left (sweepStep now) l (alive pre now ++ l, n)
    = (alive (pre ++ l) now, n + lapsed l now).
Proof.
  induction l as [|[k e] r IH]; intros pre n Hwf.
  - cbn. rewrite !app_nil_r. f_equal. unfold lapsed. cbn. lia.
  - cbn [fold_left]. unfold sweepStep at 2. cbn [fst snd].
    assert ((pre ++ [(k, e)]) ++ r = pre ++ (k, e) :: r) as Heq
      by (now rewrite <- app_assoc).
    pose proof (IH (pre ++ [(k, e)])) as IH'. rewrite Heq in IH'.
    assert (alive (pre ++ [(k, e)]) now
            = alive pre now
              ++ (if isExpired e now then [] else [(k, e)])) as Hal.
    { unfold alive. rewrite filter_app. cbn [filter snd].
      now destruct (isExpired e now). }
    rewrite Hal in IH'.
    assert (lapsed ((k, e) :: r) now
            = (if isExpired e now then 1 else 0) + lapsed r now) as Hl.
    { unfold lapsed. cbn [filter snd].
      destruct (isExpired e now); cbn [List.length]; lia. }
    rewrite Hl.
    unfold JsMap.wf, JsMap.keys in Hwf. rewrite map_app in Hwf.
    cbn [map fst] in Hwf. pose proof (NoDup_remove_2 _ _ _ Hwf) as Hk.
    destruct (isExpired e now) eqn:X.
    + rewrite app_nil_r in IH'. rewrite delete_middle.
      * rewrite IH'; [f_equal; lia|].
        unfold JsMap.wf, JsMap.keys. now rewrite map_app.
      * intros Hin. apply keys_alive_incl in Hin.
        apply Hk. apply in_or_app. now left.
      * intros Hin. apply Hk. apply in_or_app. now right.
    + rewrite <- app_assoc in IH'. cbn [app] in IH'.
      rewrite IH'; [f_equal; lia|].
      unfold JsMap.wf, JsMap.keys. now rewrite map_app.
Qed.

Lemma sweep_run now n s :
  JsMap.wf (read c s) ->
  sweep c now n s
  = (n + lapsed (read c s) now, write c (alive (read c s) now) s).
Proof.
  intros Hwf. cbv beta iota zeta delta [sweep bind gets modify ret].
  pose proof (sweep_fold now (read c s) [] n Hwf) as H.
  change (alive [] now ++ read c s) with (read c s) in H.
  change ([] ++ read c s) with (read c s) in H.
  unfold JsMap.t in *. rewrite H. reflexivity.
Qed.

End Generic.

(** The two public pairs of methods are the generic helpers at their
    map. *)
Lemma setLocationData_final key d ttl_ now s :
  exec (setLocationData key d ttl_ now) s
  = exec (setCachedData locationDataRef key d
            (locationTtl (config s) ttl_) now) s.
Proof. reflexivity. Qed.

Lemma setAvailableDates_final key d ttl_ now s :
  exec (setAvailableDates key d ttl_ now) s
  = exec (setCachedData availableDatesRef key d
            (datesTtl (config s) ttl_) now) s.
Proof. reflexivity. Qed.

(** X1.  A value stored under a key is what a later read of the key
    returns as long as its time to live has not lapsed, and absent once
    it has; whatever else the cache holds and whether or not the write
    evicted.  The time to live is the one given, or twice the default for
    a track and the default for an availability list. *)
Theorem put_then_get_within_ttl :
  forall (s : State) (key : string) (locs : list LocationPoint)
         (days : list Z) (ttl_ : option Z) (now later : Z),
    eval (getLocationData key later)
         (exec (setLocationData key locs ttl_ now) s)
    = (if locationTtl (config s) ttl_ <? later - now
       then None else Some locs)
    /\ eval (getAvailableDates key later)
           (exec (setAvailableDates key days ttl_ now) s)
       = (if datesTtl (config s) ttl_ <? later - now
          then None else Some days).
Proof.
  intros. split.
  - rewrite setLocationData_final.
    apply (put_then_get locationDataRef locationDataRef_laws).
  - rewrite setAvailableDates_final.
    apply (put_then_get availableDatesRef availableDatesRef_laws).
Qed.

(** X2.  A write of a key that is already stored, or into a track cache
    below its capacity, evicts nothing: the entry is written in place (a
    new key goes last), every other key reads as before, and the
    counters, the availability cache and the configuration are
    unchanged. *)
Theorem put_without_pressure :
  forall (s : State) (key : string) (locs : list LocationPoint)
         (ttl_ : option Z) (now : Z),
    JsMap.has (locationDataCache s) key = true
    \/ JsMap.size (locationDataCache s) < maxSize (config s) ->
    let s' := exec (setLocationData key locs ttl_ now) s in
    locationDataCache s'
    = JsMap.set (locationDataCache s) key
        (freshEntry locs (locationTtl (config s) ttl_) now)
    /\ (forall k, k <> key ->
          JsMap.get (locationDataCache s') k
          = JsMap.get (locationDataCache s) k)
    /\ JsMap.size (locationDataCache s')
       = (if JsMap.has (locationDataCache s) key
          then JsMap.size (locationDataCache s)
          else JsMap.size (locationDataCache s) + 1)
    /\ _metrics s' = _metrics s
    /\ availableDatesCache s' = availableDatesCache s
    /\ config s' = config s.
Proof.
  intros s key locs ttl_ now H s'. subst s'.
  rewrite setLocationData_final.
  rewrite (setCachedData_plain locationDataRef key locs _ now s H).
  cbn [write read locationDataRef locationDataCache _metrics
       availableDatesCache config].
  repeat split.
  - intros k Hk. now apply get_set_other.
  - destruct (JsMap.has (locationDataCache s) key) eqn:E.
    + now apply size_set_old.
    + now apply size_set_new.
Qed.

Lemma put_without_pressure_witness :
  JsMap.size (locationDataCache
    (exec (setLocationData "next" [] None 7) oneLapsed)) = 3.
Proof.
  assert (JsMap.has (locationDataCache oneLapsed) "next" = true
          \/ JsMap.size (locationDataCache oneLapsed)
             < maxSize (config oneLapsed)) as H
    by (right; reflexivity).
  exact (proj1 (proj2 (proj2
    (put_without_pressure oneLapsed "next" [] None 7 H)))).
Defined.

Section Pressure.
Context {T : Type} (c : CacheRef T) (L : RefLaws c).

Lemma beforeWrite_evicts key now s k e :
  maxSize (config s) <= JsMap.size (read c s) ->
  JsMap.has (read c s) key = false ->
  oldestIs (read c s) now k e ->
  truthy k = true ->
  beforeWrite c key now s
  = exec (updateEvictionMetrics 1)
         (write c (JsMap.delete (read c s) k) s).
Proof.
  intros Hfull Hnew Hold Hk. unfold beforeWrite.
  assert ((maxSize (config s) <=? JsMap.size (read c s)) = true) as ->
    by (now apply Z.leb_le).
  rewrite Hnew. cbn [negb andb when].
  unfold evictLeastRecentlyUsed.
  rewrite exec_bind, exec_gets, eval_gets.
  rewrite (findOldest_oldestIs _ _ _ _ Hold). cbn [fst]. rewrite Hk.
  now rewrite exec_bind, exec_modify.
Qed.

Lemma beforeWrite_keeps_all key now s :
  Forall (fun kv => now <= accessedAt kv) (read c s) ->
  beforeWrite c key now s = s.
Proof.
  intros Hall. unfold beforeWrite.
  destruct (_ && _); [|reflexivity]. cbn [when].
  unfold evictLeastRecentlyUsed.
  rewrite exec_bind, exec_gets, eval_gets.
  now rewrite (findOldest_none _ _ Hall).
Qed.

Lemma Forall_set {V} (P : string * V -> Prop) (m : JsMap.t V) k v :
  Forall P m -> P (k, v) -> Forall P (JsMap.set m k v).
Proof.
  intros Hm Hk. induction Hm as [|[k' v'] r Hkv Hr IH]; cbn [JsMap.set].
  - now constructor.
  - destruct (String.eqb k' k) eqn:E.
    + apply String.eqb_eq in E. subst k'. now constructor.
    + now constructor.
Qed.

Lemma Forall_delete {V} (P : string * V -> Prop) (m : JsMap.t V) k :
  Forall P m -> Forall P (JsMap.delete m k).
Proof.
  intros Hm. apply Forall_forall. intros kv Hin.
  apply filter_In in Hin. rewrite Forall_forall in Hm. now apply Hm.
Qed.

End Pressure.

Lemma oldestIs_in {T} (m : JsMap.t (CacheEntry T)) now k e :
  oldestIs m now k e -> In (k, e) m.
Proof.
  intros (l1 & l2 & -> & _). apply in_or_app. right. now left.
Qed.

(** X3.  A write of a new key into a full track cache evicts the least
    recently used entry, the first in insertion order among those with
    the smallest last access time, provided that time is before the
    clock reading of the write and the entry's key is not the empty
    string.  Exactly that entry goes, the new entry is appended, the size
    is unchanged, every other key reads as before, and the eviction
    counter goes up by one when metrics are enabled. *)
Theorem put_evicts_least_recently_used :
  forall (s : State) (key : string) (locs : list LocationPoint)
         (ttl_ : option Z) (now : Z) (k : string)
         (e : CacheEntry (list LocationPoint)),
    JsMap.wf (locationDataCache s) ->
    maxSize (config s) <= JsMap.size (locationDataCache s) ->
    JsMap.has (locationDataCache s) key = false ->
    oldestIs (locationDataCache s) now k e ->
    k <> ""%string ->
    let s' := exec (setLocationData key locs ttl_ now) s in
    locationDataCache s'
    = JsMap.set (JsMap.delete (locationDataCache s) k) key
        (freshEntry locs (locationTtl (config s) ttl_) now)
    /\ JsMap.size (locationDataCache s') = JsMap.size (locationDataCache s)
    /\ JsMap.has (locationDataCache s') k = false
    /\ JsMap.has (locationDataCache s') key = true
    /\ (forall k', k' <> k -> k' <> key ->
          JsMap.get (locationDataCache s') k'
          = JsMap.get (locationDataCache s) k')
    /\ evictions (_metrics s')
       = evictions (_metrics s)
         + (if enableMetrics (config s) then 1 else 0)
    /\ availableDatesCache s' = availableDatesCache s.
Proof.
  intros s key locs ttl_ now k e Hwf Hfull Hnew Hold Hk s'.
  assert (truthy k = true) as Htr
    by (destruct k; [exfalso; now apply Hk|reflexivity]).
  pose proof (setCachedData_evicts_oldest locationDataRef
                locationDataRef_laws s key locs
                (locationTtl (config s) ttl_) now k e
                Hfull Hnew Hold Htr) as Hmap.
  pose proof (setCachedData_keeps_size locationDataRef
                locationDataRef_laws s key locs
                (locationTtl (config s) ttl_) now k e
                Hwf Hfull Hnew Hold Htr) as (Hsz & Hgone & Hin & Hne).
  cbn [read locationDataRef] in Hmap, Hsz, Hgone, Hin.
  subst s'. rewrite setLocationData_final.
  split; [exact Hmap|]. split; [exact Hsz|]. split; [exact Hgone|].
  split; [exact Hin|]. split; [|split].
  - intros k' H1 H2. rewrite Hmap.
    rewrite get_set_other by assumption. now apply get_delete_other.
  - rewrite (setCachedData_final locationDataRef).
    rewrite (beforeWrite_evicts locationDataRef key now s k e
               Hfull Hnew Hold Htr).
    cbn [write read locationDataRef _metrics].
    cbv beta iota delta
      [updateEvictionMetrics exec bind gets ret setMetrics modify].
    cbn [config]. destruct (enableMetrics (config s)); cbn; lia.
  - rewrite (setCachedData_final locationDataRef).
    rewrite (beforeWrite_evicts locationDataRef key now s k e
               Hfull Hnew Hold Htr).
    cbn [write read locationDataRef availableDatesCache].
    cbv beta iota delta
      [updateEvictionMetrics exec bind gets ret setMetrics modify].
    cbn [config]. now destruct (enableMetrics (config s)).
Qed.

(** X4.  A write of a new key into a full track cache evicts nothing when
    no entry was last accessed before the clock reading of the write: the
    entry is appended and the cache holds one entry more than its
    capacity allowed, with the counters unchanged. *)
Theorem put_finds_nothing_older :
  forall (s : State) (key : string) (locs : list LocationPoint)
         (ttl_ : option Z) (now : Z),
    maxSize (config s) <= JsMap.size (locationDataCache s) ->
    JsMap.has (locationDataCache s) key = false ->
    Forall (fun kv => now <= lastAccessed (snd kv)) (locationDataCache s) ->
    let s' := exec (setLocationData key locs ttl_ now) s in
    locationDataCache s'
    = JsMap.set (locationDataCache s) key
        (freshEntry locs (locationTtl (config s) ttl_) now)
    /\ JsMap.size (locationDataCache s')
       = JsMap.size (locationDataCache s) + 1
    /\ maxSize (config s') < JsMap.size (locationDataCache s')
    /\ _metrics s' = _metrics s.
Proof.
  intros s key locs ttl_ now Hfull Hnew Hall s'. subst s'.
  rewrite setLocationData_final.
  rewrite (setCachedData_without_eviction locationDataRef s key locs
             (locationTtl (config s) ttl_) now Hfull Hnew Hall).
  cbn [write read locationDataRef locationDataCache _metrics config].
  rewrite size_set_new by assumption. repeat split. lia.
Qed.

Lemma put_evicts_least_recently_used_witness :
  JsMap.keys (locationDataCache
    (exec (setLocationData "c" [] None 30) twoStored))
  = ["b"; "c"]%string.
Proof.
  assert (JsMap.wf (locationDataCache twoStored)) as Hwf.
  { unfold JsMap.wf. cbn. repeat constructor; cbn; intuition discriminate. }
  assert (maxSize (config twoStored)
          <= JsMap.size (locationDataCache twoStored)) as Hfull
    by (vm_compute; discriminate).
  assert (JsMap.has (locationDataCache twoStored) "c" = false) as Hnew
    by reflexivity.
  assert (oldestIs (locationDataCache twoStored) 30 "a"
            (freshEntry [] 1200000 10)) as Hold.
  { exists [], [("b"%string, freshEntry [] 1200000 20)].
    split; [reflexivity|]. split; [cbn; lia|].
    split; repeat constructor. cbn. lia. }
  assert ("a"%string <> ""%string) as Hk by discriminate.
  rewrite (proj1 (put_evicts_least_recently_used twoStored "c" [] None 30
                    "a" _ Hwf Hfull Hnew Hold Hk)).
  reflexivity.
Defined.

Lemma put_finds_nothing_older_witness :
  JsMap.size (locationDataCache
    (exec (setLocationData "c" [] None 10) twoAtTen)) = 3.
Proof.
  assert (maxSize (config twoAtTen)
          <= JsMap.size (locationDataCache twoAtTen)) as Hfull
    by (vm_compute; discriminate).
  assert (JsMap.has (locationDataCache twoAtTen) "c" = false) as Hnew
    by reflexivity.
  assert (Forall (fun kv => 10 <= lastAccessed (snd kv))
            (locationDataCache twoAtTen)) as Hall
    by (repeat constructor; cbn; lia).
  exact (proj1 (proj2
    (put_finds_nothing_older twoAtTen "c" [] None 10 Hfull Hnew Hall))).
Defined.

(** One write keeps the track cache within its capacity when the clock
    has advanced since every earlier access. *)
Lemma bounded_put s t key d ttl_ now :
  bounded s t -> t < now -> truthy key = true ->
  1 <= maxSize (config s) ->
  bounded (exec (setLocationData key d ttl_ now) s) now
  /\ config (exec (setLocationData key d ttl_ now) s) = config s.
Proof.
  intros (Hwf & Hsize & Hall) Hlt Hkey Hmax.
  rewrite setLocationData_final.
  split; [|apply (setCachedData_config locationDataRef
                    locationDataRef_laws)].
  unfold bounded.
  rewrite (setCachedData_config locationDataRef locationDataRef_laws).
  assert (Forall (fun kv : string * CacheEntry (list LocationPoint) =>
                    lastAccessed (snd kv) <= now
                    /\ truthy (fst kv) = true) (locationDataCache s))
    as Hall'.
  { eapply Forall_impl; [|exact Hall]. cbn. intros kv [H1 H2].
    split; [lia|exact H2]. }
  destruct (JsMap.has (locationDataCache s) key) eqn:Hhas.
  - rewrite (setCachedData_plain locationDataRef key d _ now s)
      by (now left).
    cbn [write read locationDataRef locationDataCache].
    split; [now apply wf_set|]. split.
    + now rewrite size_set_old.
    + apply Forall_set; [exact Hall'|]. cbn. split; [lia|exact Hkey].
  - destruct (Z_lt_le_dec (JsMap.size (locationDataCache s))
                          (maxSize (config s))) as [Hroom|Hfull].
    + rewrite (setCachedData_plain locationDataRef key d _ now s)
        by (now right).
      cbn [write read locationDataRef locationDataCache].
      split; [now apply wf_set|]. split.
      * rewrite size_set_new by assumption. lia.
      * apply Forall_set; [exact Hall'|]. cbn. split; [lia|exact Hkey].
    + assert (Exists (fun kv : string * CacheEntry (list LocationPoint) =>
                        accessedAt kv < now) (locationDataCache s)) as Hex.
      { destruct (locationDataCache s) as [|kv r] eqn:E.
        - unfold JsMap.size in Hfull. cbn in Hfull. lia.
        - constructor. inversion Hall as [|? ? [H1 _] _]; subst.
          unfold accessedAt. lia. }
      destruct (oldestIs_exists _ _ Hex) as (k & e & Hold).
      assert (truthy k = true) as Hk.
      { pose proof (oldestIs_in _ _ _ _ Hold) as Hin.
        rewrite Forall_forall in Hall. now destruct (Hall _ Hin). }
      pose proof (setCachedData_evicts_oldest locationDataRef
                    locationDataRef_laws s key d
                    (locationTtl (config s) ttl_) now k e
                    Hfull Hhas Hold Hk) as Hmap.
      pose proof (setCachedData_keeps_size locationDataRef
                    locationDataRef_laws s key d
                    (locationTtl (config s) ttl_) now k e
                    Hwf Hfull Hhas Hold Hk) as (Hsz & _).
      cbn [read locationDataRef] in Hmap, Hsz.
      split; [|split].
      * rewrite Hmap. now apply wf_set, wf_delete.
      * rewrite Hsz. exact Hsize.
      * rewrite Hmap. apply Forall_set.
        -- now apply Forall_delete.
        -- cbn. split; [lia|exact Hkey].
Qed.

Lemma bounded_writes writes :
  forall s t,
    bounded s t -> 1 <= maxSize (config s) -> ascending t writes ->
    Forall (fun w => truthy (fst (fst w)) = true) writes ->
    exists t', bounded (exec (writeAll writes) s) t'
               /\ config (exec (writeAll writes) s) = config s.
Proof.
  induction writes as [|[[key d] now] rest IH]; intros s t Hb Hmax Hasc Hk.
  - exists t. now split.
  - cbn [writeAll]. rewrite exec_bind.
    destruct Hasc as [Hlt Hrest]. inversion Hk as [|? ? Hkey Hks]; subst.
    cbn [fst] in Hkey.
    destruct (bounded_put s t key d None now Hb Hlt Hkey Hmax)
      as [Hb' Hc'].
    destruct (IH _ now Hb' (eq_ind_r (fun c => 1 <= maxSize c) Hmax Hc')
                Hrest Hks) as (t' & Hb'' & Hc'').
    exists t'. split; [exact Hb''|]. now rewrite Hc''.
Qed.

(** X5.  The capacity bound under an advancing clock.  Starting from a
    track cache within its capacity, writes of non-empty keys at strictly
    increasing clock readings, each later than every earlier access,
    never leave more than [maxSize] entries in the cache, however many
    distinct keys are written. *)
Theorem ascending_writes_stay_within_capacity :
  forall (writes : list (string * list LocationPoint * Z))
         (s : State) (t : Z),
    bounded s t ->
    1 <= maxSize (config s) ->
    ascending t writes ->
    Forall (fun w => fst (fst w) <> ""%string) writes ->
    JsMap.size (locationDataCache (exec (writeAll writes) s))
    <= maxSize (config s)
    /\ JsMap.wf (locationDataCache (exec (writeAll writes) s)).
Proof.
  intros writes s t Hb Hmax Hasc Hk.
  assert (Forall (fun w : string * list LocationPoint * Z =>
                    truthy (fst (fst w)) = true) writes) as Hk'.
  { eapply Forall_impl; [|exact Hk]. cbn. intros [[k d] n] H. cbn in *.
    destruct k; [exfalso; now apply H|reflexivity]. }
  destruct (bounded_writes writes s t Hb Hmax Hasc Hk')
    as (t' & (Hwf & Hsize & _) & Hc).
  rewrite Hc in Hsize. now split.
Qed.

Lemma ascending_writes_stay_within_capacity_witness :
  JsMap.size (locationDataCache (exec (writeAll threeWrites) smallCache))
  <= 2.
Proof.
  assert (bounded smallCache 0) as Hb.
  { split; [constructor|]. split; [vm_compute; discriminate|constructor]. }
  assert (1 <= maxSize (config smallCache)) as Hmax
    by (vm_compute; discriminate).
  assert (ascending 0 threeWrites) as Hasc by (cbn; lia).
  assert (Forall (fun w : string * list LocationPoint * Z =>
                    fst (fst w) <> ""%string) threeWrites) as Hk
    by (repeat constructor; discriminate).
  exact (proj1 (ascending_writes_stay_within_capacity threeWrites
                  smallCache 0 Hb Hmax Hasc Hk)).
Defined.

(** X6.  The has-key check and the read agree: at the same clock
    reading, the check answers true exactly when the read returns a
    value, for both caches. *)
Theorem has_agrees_with_get :
  forall (s : State) (key : string) (now : Z),
    eval (hasLocationData key now) s
    = match eval (getLocationData key now) s with
      | Some _ => true
      | None => false
      end
    /\ eval (hasAvailableDates key now) s
       = match eval (getAvailableDates key now) s with
         | Some _ => true
         | None => false
         end.
Proof.
  intros s key now. split.
  - change (getLocationData key now)
      with (lookup locationDataRef key now).
    unfold hasLocationData.
    rewrite eval_lookup, eval_hasValidCacheEntry.
    destruct (JsMap.get (read locationDataRef s) key) as [e|];
      [|reflexivity].
    now destruct (isExpired e now).
  - change (getAvailableDates key now)
      with (lookup availableDatesRef key now).
    unfold hasAvailableDates.
    rewrite eval_lookup, eval_hasValidCacheEntry.
    destruct (JsMap.get (read availableDatesRef s) key) as [e|];
      [|reflexivity].
    now destruct (isExpired e now).
Qed.

(** X7.  The sweep of expired entries, on maps without duplicate keys:
    it removes exactly the entries whose time to live has lapsed at the
    clock reading of the sweep, from both caches, keeps the others
    unchanged and in their order, returns the number removed, and adds
    that number to the eviction counter when metrics are enabled.  Hits
    and misses are not touched. *)
Theorem clearExpired_removes_the_lapsed :
  forall (s : State) (now : Z),
    JsMap.wf (availableDatesCache s) ->
    JsMap.wf (locationDataCache s) ->
    let removed :=
      lapsed (availableDatesCache s) now
      + lapsed (locationDataCache s) now in
    let s' := exec (clearExpired now) s in
    eval (clearExpired now) s = removed
    /\ availableDatesCache s' = alive (availableDatesCache s) now
    /\ locationDataCache s' = alive (locationDataCache s) now
    /\ evictions (_metrics s')
       = evictions (_metrics s)
         + (if enableMetrics (config s) then removed else 0)
    /\ hits (_metrics s') = hits (_metrics s)
    /\ misses (_metrics s') = misses (_metrics s)
    /\ config s' = config s.
Proof.
  intros s now Hd Hl removed s'. subst removed s'.
  unfold eval, exec.
  cbv beta iota delta [clearExpired removeExpiredEntries bind ret].
  rewrite (sweep_run availableDatesRef now 0 s Hd).
  rewrite (sweep_run locationDataRef now _
             (write availableDatesRef _ s) Hl).
  cbn [read write availableDatesRef locationDataRef availableDatesCache
       locationDataCache].
  cbv beta iota delta [updateEvictionMetrics bind gets setMetrics modify
                       ret].
  cbn [config].
  destruct (enableMetrics (config s)); cbn; repeat split; lia.
Qed.

Lemma clearExpired_removes_the_lapsed_witness :
  eval (clearExpired 1500000) oneLapsed = 1
  /\ JsMap.keys (locationDataCache (exec (clearExpired 1500000) oneLapsed))
     = ["young"]%string.
Proof.
  assert (JsMap.wf (availableDatesCache oneLapsed)) as Hd by constructor.
  assert (JsMap.wf (locationDataCache oneLapsed)) as Hl.
  { unfold JsMap.wf. cbn. repeat constructor; cbn; intuition discriminate. }
  destruct (clearExpired_removes_the_lapsed oneLapsed 1500000 Hd Hl)
    as (Hn & _ & Hm & _).
  split; [exact Hn|]. rewrite Hm. reflexivity.
Defined.

(** X8.  After [clearAll] both caches are empty and the metrics snapshot
    is all zero (hits, misses, evictions, size and hit rate), the
    configuration is kept, and every read of any key at any time is a
    miss and every has-key check answers false. *)
Theorem clearAll_forgets_everything :
  forall (s : State) (key : string) (now : Z),
    let s' := exec clearAll s in
    metrics s' = zeroMetrics
    /\ availableDatesCache s' = JsMap.empty
    /\ locationDataCache s' = JsMap.empty
    /\ config s' = config s
    /\ eval (getLocationData key now) s' = None
    /\ eval (getAvailableDates key now) s' = None
    /\ eval (hasLocationData key now) s' = false
    /\ eval (hasAvailableDates key now) s' = false.
Proof.
  intros s key now s'. subst s'.
  change (getLocationData key now) with (lookup locationDataRef key now).
  change (getAvailableDates key now)
    with (lookup availableDatesRef key now).
  unfold hasLocationData, hasAvailableDates.
  rewrite !eval_lookup, !eval_hasValidCacheEntry.
  repeat split.
Qed.

(** X9.  With [enableMetrics] switched off, reads, writes and sweeps of
    either cache leave the counters exactly as they were. *)
Theorem disabled_metrics_are_frozen :
  forall (s : State) (key : string) (locs : list LocationPoint)
         (days : list Z) (ttl_ : option Z) (now : Z),
    enableMetrics (config s) = false ->
    _metrics (exec (getLocationData key now) s) = _metrics s
    /\ _metrics (exec (getAvailableDates key now) s) = _metrics s
    /\ _metrics (exec (setLocationData key locs ttl_ now) s) = _metrics s
    /\ _metrics (exec (setAvailableDates key days ttl_ now) s) = _metrics s
    /\ (JsMap.wf (availableDatesCache s) ->
        JsMap.wf (locationDataCache s) ->
        _metrics (exec (clearExpired now) s) = _metrics s).
Proof.
  intros s key locs days ttl_ now Hoff. repeat split.
  - apply (lookup_metrics_off locationDataRef locationDataRef_laws
             key now s Hoff).
  - apply (lookup_metrics_off availableDatesRef availableDatesRef_laws
             key now s Hoff).
  - rewrite setLocationData_final.
    rewrite (setCachedData_final locationDataRef).
    cbn [write locationDataRef _metrics].
    apply (beforeWrite_metrics_off locationDataRef locationDataRef_laws
             key now s Hoff).
  - rewrite setAvailableDates_final.
    rewrite (setCachedData_final availableDatesRef).
    cbn [write availableDatesRef _metrics].
    apply (beforeWrite_metrics_off availableDatesRef
             availableDatesRef_laws key now s Hoff).
  - intros Hd Hl. unfold exec.
    cbv beta iota delta [clearExpired removeExpiredEntries bind ret].
    rewrite (sweep_run availableDatesRef now 0 s Hd).
    rewrite (sweep_run locationDataRef now _
             (write availableDatesRef _ s) Hl).
    rewrite metrics_off_updateEvictionMetrics by exact Hoff.
    reflexivity.
Qed.

Lemma disabled_metrics_are_frozen_witness :
  _metrics (exec (getLocationData "old" 1500000) metricsOff)
  = _metrics metricsOff.
Proof.
  assert (enableMetrics (config metricsOff) = false) as H by reflexivity.
  exact (proj1 (disabled_metrics_are_frozen metricsOff "old" [] [] None
                  1500000 H)).
Defined.

Lemma filterKeys_run {T} (c : CacheRef T) now keys s :
  filterKeys c now keys s
  = (filter (fun key => negb (eval (hasValidCacheEntry c key now) s)) keys,
     s).
Proof.
  induction keys as [|key rest IH]; [reflexivity|].
  cbn [filterKeys filter]. cbv beta iota delta [bind ret].
  pose proof (hasValidCacheEntry_pure c key now s) as Hp.
  unfold exec in Hp. unfold eval at 1.
  destruct (hasValidCacheEntry c key now s) as [valid s1].
  cbn [fst snd] in *. subst s1. rewrite IH.
  now destruct valid.
Qed.

(** X10.  [prefetchKeys] changes nothing in the service and returns, in
    the order given and with repetitions kept, exactly the keys that a
    read of the chosen cache at that clock reading would miss. *)
Theorem prefetchKeys_lists_the_misses :
  forall (s : State) (keys : list string) (now : Z),
    exec (prefetchKeys keys locations now) s = s
    /\ eval (prefetchKeys keys locations now) s
       = filter (fun key =>
                   match eval (getLocationData key now) s with
                   | Some _ => false
                   | None => true
                   end) keys
    /\ exec (prefetchKeys keys dates now) s = s
    /\ eval (prefetchKeys keys dates now) s
       = filter (fun key =>
                   match eval (getAvailableDates key now) s with
                   | Some _ => false
                   | None => true
                   end) keys.
Proof.
  intros s keys now. unfold prefetchKeys, exec, eval.
  rewrite !filterKeys_run. cbn [fst snd].
  repeat split; apply filter_ext; intros key.
  - change (getLocationData key now)
      with (lookup locationDataRef key now).
    fold (eval (lookup locationDataRef key now) s).
    fold (eval (hasValidCacheEntry locationDataRef key now) s).
    rewrite eval_lookup, eval_hasValidCacheEntry.
    destruct (JsMap.get (read locationDataRef s) key) as [e|];
      [|reflexivity].
    now destruct (isExpired e now).
  - change (getAvailableDates key now)
      with (lookup availableDatesRef key now).
    fold (eval (lookup availableDatesRef key now) s).
    fold (eval (hasValidCacheEntry availableDatesRef key now) s).
    rewrite eval_lookup, eval_hasValidCacheEntry.
    destruct (JsMap.get (read availableDatesRef s) key) as [e|];
      [|reflexivity].
    now destruct (isExpired e now).
Qed.

Lemma lookup_counts {T} (c : CacheRef T) (L : RefLaws c) key now s :
  enableMetrics (config s) = true ->
  let r := eval (lookup c key now) s in
  let s' := exec (lookup c key now) s in
  hits (_metrics s')
  = hits (_metrics s) + (match r with Some _ => 1 | None => 0 end)
  /\ misses (_metrics s')
     = misses (_metrics s) + (match r with Some _ => 0 | None => 1 end)
  /\ config s' = config s.
Proof.
  intros Hen r s'.
  pose proof (lookup_spec c L key now s Hen) as Hp.
  assert (config s' = config s) as Hc.
  { subst s'. unfold lookup. rewrite !exec_bind, exec_ret.
    rewrite config_updateMetrics.
    cbv beta iota delta [getCachedData exec bind gets].
    destruct (JsMap.get (read c s) key) as [e|]; [|reflexivity].
    destruct (isExpired e now); cbv beta iota delta [modify ret].
    - pose proof (config_updateEvictionMetrics 1
                    (write c (JsMap.delete (read c s) key) s)) as Hx.
      unfold exec in Hx. destruct (updateEvictionMetrics 1 _) as [[] s1].
      cbn [snd] in *. now rewrite Hx, (config_write c L).
    - cbn [snd]. apply (config_write c L). }
  split; [|split; [|exact Hc]]; unfold lookup_post in Hp;
    fold r in Hp; fold s' in Hp;
    destruct (JsMap.get (read c s) key) as [e|];
    try destruct (Z_lt_dec (ttl e) (now - timestamp e));
    destruct Hp as (Hr & Hp); rewrite Hr; intuition lia.
Qed.

Lemma readAll_counts reads :
  forall s,
    enableMetrics (config s) = true ->
    hits (_metrics (exec (readAll reads) s))
    = hits (_metrics s) + countSome (eval (readAll reads) s)
    /\ misses (_metrics (exec (readAll reads) s))
       = misses (_metrics s) + countNone (eval (readAll reads) s)
    /\ List.length (eval (readAll reads) s) = List.length reads.
Proof.
  induction reads as [|[key now] rest IH]; intros s Hen.
  - cbn. repeat split; lia.
  - cbn [readAll]. rewrite !exec_bind, !eval_bind, exec_ret, eval_ret.
    change (getLocationData key now)
      with (lookup locationDataRef key now).
    destruct (lookup_counts locationDataRef locationDataRef_laws
                key now s Hen) as (Hh & Hm & Hc).
    destruct (IH (exec (lookup locationDataRef key now) s))
      as (IHh & IHm & IHl); [now rewrite Hc|].
    rewrite IHh, IHm, Hh, Hm. unfold countSome, countNone.
    cbn [filter List.length].
    destruct (eval (lookup locationDataRef key now) s);
      cbn [List.length]; repeat split; try lia.
    all: now rewrite IHl.
Qed.

(** X11.  With metrics enabled, the counters count the reads: after any
    run of track reads the hit counter has grown by the number of reads
    that returned a value and the miss counter by the number that
    returned absent, so together by the number of reads. *)
Theorem counters_count_the_reads :
  forall (reads : list (string * Z)) (s : State),
    enableMetrics (config s) = true ->
    let results := eval (readAll reads) s in
    let s' := exec (readAll reads) s in
    hits (_metrics s') = hits (_metrics s) + countSome results
    /\ misses (_metrics s') = misses (_metrics s) + countNone results
    /\ hits (_metrics s') + misses (_metrics s')
       = hits (_metrics s) + misses (_metrics s)
         + Z.of_nat (List.length reads).
Proof.
  intros reads s Hen results s'. subst results s'.
  destruct (readAll_counts reads s Hen) as (Hh & Hm & Hl).
  split; [exact Hh|]. split; [exact Hm|].
  rewrite Hh, Hm, <- Hl. unfold countSome, countNone.
  assert (forall (A : Type) (l : list (option A)),
            (List.length (filter (fun r => match r with
                                           | Some _ => true
                                           | None => false end) l)
             + List.length (filter (fun r => match r with
                                             | Some _ => false
                                             | None => true end) l)
             = List.length l)%nat) as Hsplit.
  { intros A l. induction l as [|[a|] l IHl]; cbn; lia. }
  specialize (Hsplit _ (eval (readAll reads) s)). lia.
Qed.

Lemma counters_count_the_reads_witness :
  hits (_metrics (exec (readAll [("old", 5); ("none", 6); ("young", 7)]%string)
                       oneLapsed))
  = 2.
Proof.
  assert (enableMetrics (config oneLapsed) = true) as H by reflexivity.
  rewrite (proj1 (counters_count_the_reads
                    [("old", 5); ("none", 6); ("young", 7)]%string
                    oneLapsed H)).
  reflexivity.
Defined.

(** A write changes the number of entries of a well-formed track cache
    by 0 or by 1, whatever the capacity says. *)
Lemma put_size_bounds s key (d : list LocationPoint) ttl_ now :
  JsMap.wf (locationDataCache s) ->
  JsMap.size (locationDataCache s)
  <= JsMap.size (locationDataCache
                   (exec (setLocationData key d ttl_ now) s))
  <= JsMap.size (locationDataCache s) + 1.
Proof.
  intros Hwf. rewrite setLocationData_final.
  set (ttl' := locationTtl (config s) ttl_).
  destruct (JsMap.has (locationDataCache s) key) eqn:Hhas.
  { rewrite (setCachedData_plain locationDataRef key d ttl' now s)
      by (now left).
    cbn [write read locationDataRef locationDataCache].
    rewrite size_set_old by assumption. lia. }
  destruct (Z_lt_le_dec (JsMap.size (locationDataCache s))
                        (maxSize (config s))) as [Hroom|Hfull].
  { rewrite (setCachedData_plain locationDataRef key d ttl' now s)
      by (now right).
    cbn [write read locationDataRef locationDataCache].
    rewrite size_set_new by assumption. lia. }
  destruct (Exists_dec
              (fun kv : string * CacheEntry (list LocationPoint) =>
                 accessedAt kv < now) (locationDataCache s)
              (fun kv => Z_lt_dec (accessedAt kv) now)) as [Hex|Hnex].
  - destruct (oldestIs_exists _ _ Hex) as (k & e & Hold).
    destruct (truthy k) eqn:Hk.
    + pose proof (setCachedData_keeps_size locationDataRef
                    locationDataRef_laws s key d ttl' now k e
                    Hwf Hfull Hhas Hold Hk) as (Hsz & _).
      cbn [read locationDataRef] in Hsz. lia.
    + rewrite setCachedData_final.
      assert (beforeWrite locationDataRef key now s = s) as ->.
      { unfold beforeWrite. cbn [read locationDataRef].
        assert ((maxSize (config s)
                 <=? JsMap.size (locationDataCache s)) = true) as ->
          by (now apply Z.leb_le).
        rewrite Hhas. cbn [negb andb when].
        unfold evictLeastRecentlyUsed.
        rewrite exec_bind, exec_gets, eval_gets.
        cbn [read locationDataRef].
        rewrite (findOldest_oldestIs _ _ _ _ Hold). cbn [fst].
        now rewrite Hk. }
      cbn [write read locationDataRef locationDataCache].
      rewrite size_set_new by assumption. lia.
  - assert (Forall (fun kv : string * CacheEntry (list LocationPoint) =>
                      now <= accessedAt kv) (locationDataCache s))
      as Hall.
    { apply Forall_Exists_neg in Hnex.
      eapply Forall_impl; [|exact Hnex]. cbn. intros; lia. }
    rewrite (setCachedData_without_eviction locationDataRef s key d ttl'
               now Hfull Hhas Hall).
    cbn [write read locationDataRef locationDataCache].
    rewrite size_set_new by assumption. lia.
Qed.

(** X30.  Lowering the capacity trims nothing.  [updateConfig] changes
    the configuration only: both caches and the counters stay as they
    were, also when the new [maxSize] is below the number of entries
    held.  A write that follows changes the number of entries by 0 or
    by 1 and never brings it down, so a cache left above its new
    capacity stays above it through any write. *)
Theorem lowering_the_capacity_trims_nothing :
  forall (s : State) (newConfig : PartialCacheConfig) (key : string)
         (locs : list LocationPoint) (ttl_ : option Z) (now : Z),
    JsMap.wf (locationDataCache s) ->
    let s1 := exec (updateConfig newConfig) s in
    let s2 := exec (setLocationData key locs ttl_ now) s1 in
    locationDataCache s1 = locationDataCache s
    /\ availableDatesCache s1 = availableDatesCache s
    /\ _metrics s1 = _metrics s
    /\ maxSize (config s1)
       = match p_maxSize newConfig with
         | Some x => x
         | None => maxSize (config s)
         end
    /\ JsMap.size (locationDataCache s)
       <= JsMap.size (locationDataCache s2)
       <= JsMap.size (locationDataCache s) + 1
    /\ (maxSize (config s1) < JsMap.size (locationDataCache s) ->
        maxSize (config s2) < JsMap.size (locationDataCache s2)).
Proof.
  intros s newConfig key locs ttl_ now Hwf s1 s2.
  assert (locationDataCache s1 = locationDataCache s) as Hmap
    by reflexivity.
  assert (JsMap.size (locationDataCache s)
          <= JsMap.size (locationDataCache s2)
          <= JsMap.size (locationDataCache s) + 1) as Hsz.
  { rewrite <- Hmap. apply put_size_bounds. now rewrite Hmap. }
  assert (config s2 = config s1) as Hcfg.
  { subst s2. rewrite setLocationData_final.
    apply (setCachedData_config locationDataRef locationDataRef_laws). }
  split; [reflexivity|]. split; [reflexivity|]. split; [reflexivity|].
  split; [reflexivity|]. split; [exact Hsz|].
  rewrite Hcfg. lia.
Qed.

Lemma lowering_the_capacity_trims_nothing_witness :
  JsMap.size (locationDataCache
    (exec (updateConfig {| p_maxSize := Some 1; p_defaultTtl := None;
                           p_cleanupInterval := None;
                           p_enableMetrics := None |}) twoStored)) = 2
  /\ 1 < JsMap.size (locationDataCache
           (exec (setLocationData "c" [] None 30)
              (exec (updateConfig
                       {| p_maxSize := Some 1; p_defaultTtl := None;
                          p_cleanupInterval := None;
                          p_enableMetrics := None |}) twoStored))).
Proof.
  assert (JsMap.wf (locationDataCache twoStored)) as Hwf.
  { unfold JsMap.wf. cbn. repeat constructor; cbn; intuition discriminate. }
  pose proof (lowering_the_capacity_trims_nothing twoStored
                {| p_maxSize := Some 1; p_defaultTtl := None;
                   p_cleanupInterval := None; p_enableMetrics := None |}
                "c" [] None 30 Hwf) as H.
  cbv zeta in H. destruct H as (Hmap & _ & _ & Hmax & _ & Hover).
  split.
  - rewrite Hmap. reflexivity.
  - rewrite Hmax in Hover. cbn [p_maxSize] in Hover.
    assert (config (exec (setLocationData "c" [] None 30)
              (exec (updateConfig
                       {| p_maxSize := Some 1; p_defaultTtl := None;
                          p_cleanupInterval := None;
                          p_enableMetrics := None |}) twoStored))
            = config (exec (updateConfig
                       {| p_maxSize := Some 1; p_defaultTtl := None;
                          p_cleanupInterval := None;
                          p_enableMetrics := None |}) twoStored)) as Hc
      by reflexivity.
    rewrite Hc in Hover. apply Hover. vm_compute. reflexivity.
Defined.

(** A read of the computed signal returns [metrics] and leaves it as it
    is; until [_metrics] is set again the size it reports is the one of
    that read, whatever is written to the maps. *)
Lemma readMetrics_remembers (s : State) :
  eval readMetrics s = metrics s
  /\ metrics (exec readMetrics s) = metrics s
  /\ (forall m,
        size (metrics (write locationDataRef m (exec readMetrics s)))
        = size (metrics s))
  /\ (forall m,
        size (metrics (write availableDatesRef m (exec readMetrics s)))
        = size (metrics s))
  /\ (forall x,
        size (metrics (with_metrics x (exec readMetrics s)))
        = JsMap.size (availableDatesCache s)
          + JsMap.size (locationDataCache s)).
Proof.
  unfold readMetrics, eval, exec, bind, gets, modify, ret, metrics.
  cbn. destruct (metricsSize s); repeat split.
Qed.

(** Read on the fresh service and followed by a write that moves no
    counter, the signal still reports size 0 while the cache holds one
    entry; the next counted read makes it compute the size anew. *)
Lemma metrics_size_lags_behind_a_quiet_write :
  size (metrics readThenStored) = 0
  /\ JsMap.size (locationDataCache readThenStored) = 1
  /\ size (metrics (exec (getLocationData "a" 20) readThenStored)) = 1.
Proof. repeat split. Qed.

End CacheMoreFacts.

(* ------------------------------------------------------------------ *)
(** ** The history service: loads, refresh and reset *)

Module HistoryMoreFacts.
Import History StoreSpec HistoryMore CacheSpec CacheMore JsMapFacts
       CacheFacts CacheMoreFacts StoreFacts.

(** What [retry] returns: the first attempt that succeeds among the
    first [count + 1], and the number of attempts made. *)
Lemma retry_spec {A} (count : nat) (source : nat -> option A) :
  forall i,
    (i < snd (retry count source i) <= i + count + 1)%nat
    /\ fst (retry count source i) = source (snd (retry count source i) - 1)%nat
    /\ (forall j, (i <= j < snd (retry count source i) - 1)%nat ->
          source j = None)
    /\ (fst (retry count source i) = None ->
        snd (retry count source i) = (i + count + 1)%nat).
Proof.
  induction count as [|c IH]; intros i; cbn [retry].
  - destruct (source i) eqn:E; cbn [fst snd];
      replace (S i - 1)%nat with i by lia;
      repeat split; try lia; auto; try discriminate.
  - destruct (source i) eqn:E; cbn [fst snd].
    + replace (S i - 1)%nat with i by lia.
      repeat split; try lia; auto; discriminate.
    + destruct (IH (S i)) as (Hn & Hr & Hj & Hnone).
      repeat split; try lia; auto.
      * intros j Hjr. destruct (Nat.eq_dec j i) as [->|Hne]; auto.
        apply Hj. lia.
      * intros H. rewrite (Hnone H). lia.
Qed.

Lemma lookup_config {T} (c : Cache.CacheRef T) (L : RefLaws c) key now cs :
  Cache.config (exec (lookup c key now) cs) = Cache.config cs.
Proof.
  unfold lookup. rewrite !exec_bind, exec_ret, config_updateMetrics.
  cbv beta iota delta [Cache.getCachedData exec bind gets].
  destruct (JsMap.get (Cache.read c cs) key) as [e|]; [|reflexivity].
  destruct (Cache.isExpired e now); cbv beta iota delta [modify ret].
  - pose proof (config_updateEvictionMetrics 1
                  (Cache.write c (JsMap.delete (Cache.read c cs) key) cs))
      as Hx.
    unfold exec in Hx.
    destruct (Cache.updateEvictionMetrics 1 _) as [[] s1].
    cbn [snd] in *. now rewrite Hx, (config_write c L).
  - cbn [snd]. apply (config_write c L).
Qed.

Section Service.
Variable DateT : Type.
Variable toDateString : DateT -> string.
Variable addDays : DateT -> Z -> DateT.
Variable getTime : string -> option Z.
Variable toLocaleString : string -> string.
Variable calculateDistance : Q * Q -> Q * Q -> Q.

Local Abbreviation getLocationData :=
  (History.getLocationData DateT toDateString addDays getTime
     toLocaleString calculateDistance).
Local Abbreviation refreshData :=
  (History.refreshData DateT toDateString addDays getTime
     toLocaleString calculateDistance).
Local Abbreviation locationKey := (History.locationKey DateT toDateString).
Local Abbreviation computeStatistics :=
  (History.computeStatistics getTime toLocaleString calculateDistance).

Implicit Types (s : State DateT).

(** X12.  A load that finds the track in the cache sends no request
    and schedules no prefetch: it returns the cached track and makes it
    the current track, and leaves the loading flag, the error, the
    statistics, the time of the last update, the selection and the
    availability map as they were. *)
Theorem load_served_from_cache :
  forall s (targetId : Z) (date : DateT)
         (remote : nat -> option LocationDataResponse) (now later : Z)
         (c : list LocationPoint),
    eval (Cache.getLocationData (locationKey targetId date) now)
         (cacheService s) = Some c ->
    let s' := exec (getLocationData targetId date remote now later) s in
    eval (getLocationData targetId date remote now later) s = (c, [])
    /\ locationData s' = c
    /\ httpLog s' = httpLog s
    /\ loading s' = loading s
    /\ error s' = error s
    /\ _statistics s' = _statistics s
    /\ _lastUpdated s' = _lastUpdated s
    /\ selectedDevice s' = selectedDevice s
    /\ selectedDate s' = selectedDate s
    /\ availableDates s' = availableDates s.
Proof.
  intros s targetId date remote now later c H s'. subst s'.
  unfold eval at 1, exec.
  rewrite (getLocationData_hit DateT toDateString addDays getTime
             toLocaleString calculateDistance targetId date remote now
             later s c H).
  repeat split.
Qed.

(** X13.  After a load that was answered by the archive with code 200,
    a load of the same device and date sends no request as long as
    twice the default time to live has not passed since the answer was
    handled: it returns the same track from the cache. *)
Theorem reload_within_ttl_sends_nothing :
  forall s (targetId : Z) (date : DateT)
         (remote remote' : nat -> option LocationDataResponse)
         (now later now' later' : Z) (r : LocationDataResponse)
         (n : nat),
    eval (Cache.getLocationData (locationKey targetId date) now)
         (cacheService s) = None ->
    retry 2 remote 0 = (Some r, n) ->
    r_code r = 200 ->
    now' - later <= defaultTtl (Cache.config (cacheService s)) * 2 ->
    let s1 := exec (getLocationData targetId date remote now later) s in
    eval (getLocationData targetId date remote' now' later') s1
    = (fst (eval (getLocationData targetId date remote now later) s), [])
    /\ httpLog (exec (getLocationData targetId date remote' now' later')
                     s1) = httpLog s1.
Proof.
  intros s targetId date remote remote' now later now' later' r n
         H R C Httl s1.
  pose proof (getLocationData_loaded DateT toDateString addDays getTime
                toLocaleString calculateDistance targetId date remote
                now later s n r H R C) as Hrun.
  cbv zeta in Hrun.
  assert (eval (Cache.getLocationData (locationKey targetId date) now')
               (cacheService s1)
          = Some (match r_data r with Some d => d | None => [] end))
    as Hhit.
  { subst s1. unfold exec at 1. rewrite Hrun.
    cbn [snd afterSuccess afterMiss cacheService set_loading
         set_lastUpdated set_statistics set_locationData
         set_cacheService set_httpLog set_error].
    rewrite setLocationData_final.
    change (Cache.getLocationData (locationKey targetId date) now')
      with (lookup Cache.locationDataRef (locationKey targetId date)
                   now').
    rewrite (put_then_get Cache.locationDataRef locationDataRef_laws).
    change (Cache.getLocationData (locationKey targetId date) now)
      with (lookup Cache.locationDataRef (locationKey targetId date)
                   now).
    rewrite (lookup_config Cache.locationDataRef locationDataRef_laws).
    unfold locationTtl.
    assert ((defaultTtl (Cache.config (cacheService s)) * 2
             <? now' - later) = false) as -> by (apply Z.ltb_ge; lia).
    reflexivity. }
  unfold eval at 1, exec at 1.
  rewrite (getLocationData_hit DateT toDateString addDays getTime
             toLocaleString calculateDistance targetId date remote' now'
             later' s1 _ Hhit).
  cbn [fst snd]. unfold eval. rewrite Hrun. cbn [fst]. split; reflexivity.
Qed.

(** X14.  A load that does not find its track in the cache sends the
    request at least once and at most three times.  Every attempt but
    the last one failed in transport; an answer, whatever its code, is
    never followed by another attempt, and three transport failures end
    the load. *)
Theorem load_sends_one_to_three_requests :
  forall s (targetId : Z) (date : DateT)
         (remote : nat -> option LocationDataResponse) (now later : Z),
    eval (Cache.getLocationData (locationKey targetId date) now)
         (cacheService s) = None ->
    let n := snd (retry 2 remote 0) in
    httpLog (exec (getLocationData targetId date remote now later) s)
    = repeat (Playback targetId date) n ++ httpLog s
    /\ (1 <= n <= 3)%nat
    /\ (forall j, (j < n - 1)%nat -> remote j = None)
    /\ (forall r, remote 0%nat = Some r -> n = 1%nat)
    /\ (remote 0%nat = None -> remote 1%nat = None ->
        remote 2%nat = None -> n = 3%nat).
Proof.
  intros s targetId date remote now later H n. subst n.
  destruct (getLocationData_miss_sends DateT toDateString addDays getTime
              toLocaleString calculateDistance targetId date remote now
              later s H) as [Hlog _].
  destruct (retry_spec 2 remote 0) as (Hn & Hr & Hj & Hnone).
  split; [exact Hlog|]. split; [lia|]. split; [|split].
  - intros j Hlt. apply Hj. lia.
  - intros r H0. cbn [retry]. now rewrite H0.
  - intros H0 H1 H2. cbn [retry]. now rewrite H0, H1, H2.
Qed.

(** X15.  What a load answered with code 200 does: the track of the
    answer (the empty track when the answer carries no data) becomes
    the current track and is returned, the statistics are recomputed
    from it, the time of the last update is set, the error is cleared,
    the loading flag is off, and the track is in the cache under the
    key of the device and date, stamped with the time the answer was
    handled and with twice the default time to live. *)
Theorem load_answered_by_the_archive :
  forall s (targetId : Z) (date : DateT)
         (remote : nat -> option LocationDataResponse) (now later : Z)
         (r : LocationDataResponse) (n : nat),
    eval (Cache.getLocationData (locationKey targetId date) now)
         (cacheService s) = None ->
    retry 2 remote 0 = (Some r, n) ->
    r_code r = 200 ->
    let locations := match r_data r with Some d => d | None => [] end in
    let s' := exec (getLocationData targetId date remote now later) s in
    fst (eval (getLocationData targetId date remote now later) s)
    = locations
    /\ locationData s' = locations
    /\ _statistics s' = computeStatistics locations
    /\ _lastUpdated s' = Some later
    /\ error s' = None
    /\ loading s' = false
    /\ selectedDevice s' = selectedDevice s
    /\ selectedDate s' = selectedDate s
    /\ JsMap.get (Cache.locationDataCache (cacheService s'))
         (locationKey targetId date)
       = Some (EvictionSpec.freshEntry locations
                 (defaultTtl (Cache.config (cacheService s)) * 2) later).
Proof.
  intros s targetId date remote now later r n H R C locations s'.
  pose proof (getLocationData_loaded DateT toDateString addDays getTime
                toLocaleString calculateDistance targetId date remote
                now later s n r H R C) as Hrun.
  cbv zeta in Hrun. subst s'. unfold eval, exec. rewrite Hrun.
  cbn [fst snd]. fold locations.
  repeat split.
  cbn [afterSuccess afterMiss cacheService set_loading
       set_lastUpdated set_statistics set_locationData
       set_cacheService set_httpLog set_error].
  rewrite setLocationData_final.
  rewrite (setCachedData_stores Cache.locationDataRef
             locationDataRef_laws).
  change (Cache.getLocationData (locationKey targetId date) now)
    with (lookup Cache.locationDataRef (locationKey targetId date) now).
  rewrite (lookup_config Cache.locationDataRef locationDataRef_laws).
  reflexivity.
Qed.

(** X16.  A refresh does nothing at all, and sends nothing, when no
    device is selected, when the selected device has the id 0, or when
    no date is selected. *)
Theorem refresh_needs_a_selection :
  forall s (remote : nat -> option LocationDataResponse) (now later : Z),
    selectedDevice s = None \/ selectedDevice s = Some 0
    \/ selectedDate s = None ->
    refreshData remote now later s = (None, s).
Proof.
  intros s remote now later H.
  cbv beta iota delta [History.refreshData bind gets].
  destruct (selectedDevice s) as [dev|], (selectedDate s) as [d|];
    try reflexivity.
  destruct H as [H|[H|H]]; try discriminate.
  injection H as ->. reflexivity.
Qed.

(** X17.  With a device other than 0 and a date selected, a refresh
    always goes to the archive: it sends the request for the selected
    device and date at least once, even when the cache held a live
    entry for them, and never answers from the cache. *)
Theorem refresh_always_asks_the_archive :
  forall s (remote : nat -> option LocationDataResponse) (now later : Z)
         (dev : Z) (d : DateT),
    selectedDevice s = Some dev -> dev <> 0 -> selectedDate s = Some d ->
    let n := snd (retry 2 remote 0) in
    httpLog (exec (refreshData remote now later) s)
    = repeat (Playback dev d) n ++ httpLog s
    /\ (1 <= n)%nat.
Proof.
  intros s remote now later dev d Hdev Hnz Hdate n. subst n.
  rewrite (refreshData_with_selection DateT toDateString addDays getTime
             toLocaleString calculateDistance remote now later s dev d
             Hdev Hnz Hdate).
  assert (eval (Cache.getLocationData (locationKey dev d) now)
            (cacheService
               (set_cacheService
                  (exec Cache.clearAll (cacheService s)) s)) = None)
    as Hmiss by (now apply absent_is_a_miss).
  destruct (getLocationData_miss_sends DateT toDateString addDays getTime
              toLocaleString calculateDistance dev d remote now later
              _ Hmiss) as [Hlog Hn].
  split; [exact Hlog|exact Hn].
Qed.

(** X18.  [clearData] resets the selection, the current track, the
    availability map, the statistics, the time of the last update and
    the error, and empties both caches with their metrics; it leaves
    the loading flag as it was.  A refresh that follows does nothing. *)
Theorem clearData_resets_the_service :
  forall s (remote : nat -> option LocationDataResponse) (now later : Z),
    let s' := exec clearData s in
    selectedDevice s' = None
    /\ selectedDate s' = None
    /\ locationData s' = []
    /\ availableDates s' = JsMap.empty
    /\ _statistics s' = None
    /\ _lastUpdated s' = None
    /\ error s' = None
    /\ loading s' = loading s
    /\ httpLog s' = httpLog s
    /\ Cache.locationDataCache (cacheService s') = JsMap.empty
    /\ Cache.availableDatesCache (cacheService s') = JsMap.empty
    /\ Cache.metrics (cacheService s') = Cache.zeroMetrics
    /\ hasData s' = false
    /\ isReady s' = false
    /\ refreshData remote now later s' = (None, s').
Proof.
  intros s remote now later s'. subst s'. repeat split.
Qed.

End Service.

Lemma load_served_from_cache_witness :
  httpLog (exec (Sample.getLocationData 7 19877 Sample.remoteDown 50 60)
                loadedTwoDays)
  = httpLog loadedTwoDays.
Proof.
  assert (eval (Cache.getLocationData (Sample.locationKey 7 19877) 50)
               (cacheService loadedTwoDays) = Some dayTrack) as H
    by reflexivity.
  exact (proj1 (proj2 (proj2
    (load_served_from_cache Sample.DateT Sample.toDateString
       Sample.addDays Sample.getTime Sample.toLocaleString
       Sample.calculateDistance loadedTwoDays 7 19877 Sample.remoteDown
       50 60 dayTrack H)))).
Defined.

Lemma reload_within_ttl_sends_nothing_witness :
  eval (Sample.getLocationData 7 19877 Sample.remoteDown 100 110)
       (exec (Sample.getLocationData 7 19877 (Sample.remoteOk dayTrack)
                30 40) deviceSelected)
  = (dayTrack, []).
Proof.
  assert (eval (Cache.getLocationData (Sample.locationKey 7 19877) 30)
               (cacheService deviceSelected) = None) as H by reflexivity.
  assert (retry 2 (Sample.remoteOk dayTrack) 0
          = (Some (Sample.ok dayTrack), 1%nat)) as R by reflexivity.
  assert (r_code (Sample.ok dayTrack) = 200) as C by reflexivity.
  assert (100 - 40
          <= defaultTtl (Cache.config (cacheService deviceSelected)) * 2)
    as Httl by (vm_compute; discriminate).
  exact (proj1
    (reload_within_ttl_sends_nothing Sample.DateT Sample.toDateString
       Sample.addDays Sample.getTime Sample.toLocaleString
       Sample.calculateDistance deviceSelected 7 19877
       (Sample.remoteOk dayTrack) Sample.remoteDown 30 40 100 110
       (Sample.ok dayTrack) 1%nat H R C Httl)).
Defined.

Lemma load_sends_one_to_three_requests_witness :
  httpLog (exec (Sample.getLocationData 7 19877 (remoteThirdTime dayTrack)
                   30 40) deviceSelected)
  = [Playback 7 19877; Playback 7 19877; Playback 7 19877].
Proof.
  assert (eval (Cache.getLocationData (Sample.locationKey 7 19877) 30)
               (cacheService deviceSelected) = None) as H by reflexivity.
  exact (proj1
    (load_sends_one_to_three_requests Sample.DateT Sample.toDateString
       Sample.addDays Sample.getTime Sample.toLocaleString
       Sample.calculateDistance deviceSelected 7 19877
       (remoteThirdTime dayTrack) 30 40 H)).
Defined.

Lemma load_answered_by_the_archive_witness :
  locationData (exec (Sample.getLocationData 7 19877
                        (Sample.remoteOk dayTrack) 30 40) deviceSelected)
  = dayTrack.
Proof.
  assert (eval (Cache.getLocationData (Sample.locationKey 7 19877) 30)
               (cacheService deviceSelected) = None) as H by reflexivity.
  assert (retry 2 (Sample.remoteOk dayTrack) 0
          = (Some (Sample.ok dayTrack), 1%nat)) as R by reflexivity.
  assert (r_code (Sample.ok dayTrack) = 200) as C by reflexivity.
  exact (proj1 (proj2
    (load_answered_by_the_archive Sample.DateT Sample.toDateString
       Sample.addDays Sample.getTime Sample.toLocaleString
       Sample.calculateDistance deviceSelected 7 19877
       (Sample.remoteOk dayTrack) 30 40 (Sample.ok dayTrack) 1%nat
       H R C))).
Defined.

Lemma refresh_needs_a_selection_witness :
  Sample.refreshData (Sample.remoteOk dayTrack) 50 60
    (exec (setSelectedDevice (Some 0)) loadedTwoDays)
  = (None, exec (setSelectedDevice (Some 0)) loadedTwoDays).
Proof.
  assert (selectedDevice (exec (setSelectedDevice (Some 0)) loadedTwoDays)
          = None
          \/ selectedDevice
               (exec (setSelectedDevice (Some 0)) loadedTwoDays) = Some 0
          \/ selectedDate
               (exec (setSelectedDevice (Some 0)) loadedTwoDays) = None)
    as H by (right; left; reflexivity).
  exact (refresh_needs_a_selection Sample.DateT Sample.toDateString
           Sample.addDays Sample.getTime Sample.toLocaleString
           Sample.calculateDistance _ (Sample.remoteOk dayTrack) 50 60 H).
Defined.

Lemma refresh_always_asks_the_archive_witness :
  httpLog refreshed = Playback 7 19877 :: httpLog loadedTwoDays.
Proof.
  assert (selectedDevice loadedTwoDays = Some 7) as Hdev by reflexivity.
  assert (7 <> 0) as Hnz by discriminate.
  assert (selectedDate loadedTwoDays = Some 19877) as Hdate
    by reflexivity.
  exact (proj1
    (refresh_always_asks_the_archive Sample.DateT Sample.toDateString
       Sample.addDays Sample.getTime Sample.toLocaleString
       Sample.calculateDistance loadedTwoDays (Sample.remoteOk dayTrack)
       50 60 7 19877 Hdev Hnz Hdate)).
Defined.

End HistoryMoreFacts.

(* ------------------------------------------------------------------ *)
(** ** Enhanced points, statistics and headings *)

Module TrackMoreFacts.
Import History TrackSpec HistoryMore StatisticsFacts CompassFacts.

Section Track.
Variable getTime : string -> option Z.
Variable toLocaleString : string -> string.
Variable calculateDistance : Q * Q -> Q * Q -> Q.

Local Abbreviation enhanceFrom :=
  (History.enhanceFrom toLocaleString calculateDistance).
Local Abbreviation enhanceLocationData :=
  (History.enhanceLocationData toLocaleString calculateDistance).
Local Abbreviation computeStatistics :=
  (History.computeStatistics getTime toLocaleString calculateDistance).
Local Abbreviation pathLength := (HistoryMore.pathLength calculateDistance).

Local Abbreviation enhanced :=
  (HistoryMore.enhancedPoint toLocaleString calculateDistance).

Lemma enhanceFrom_nth prev l i :
  nth_error (enhanceFrom prev l) i
  = option_map
      (enhanced (match i with O => prev | S j => nth_error l j end))
      (nth_error l i).
Proof.
  revert prev i. induction l as [|p r IH]; intros prev i.
  - now destruct i.
  - destruct i as [|i]; cbn [History.enhanceFrom nth_error option_map].
    + now destruct prev.
    + rewrite IH. now destruct i.
Qed.

(** X19.  [enhanceLocationData] keeps the samples and their order.  The
    enhanced point at index [i] carries sample [i] unchanged, its speed
    in km/h rounded, the compass label of its heading, and the distance
    from sample [i - 1]; the first point has no such distance. *)
Theorem enhanced_point_at_index :
  forall (l : list LocationPoint) (i : nat),
    nth_error (enhanceLocationData l) i
    = option_map
        (enhanced (match i with O => None | S j => nth_error l j end))
        (nth_error l i)
    /\ List.length (enhanceLocationData l) = List.length l
    /\ map point (enhanceLocationData l) = l.
Proof.
  intros l i. split; [apply enhanceFrom_nth|].
  unfold History.enhanceLocationData. generalize (@None LocationPoint).
  induction l as [|p r IH]; intros prev; [now split|].
  cbn [History.enhanceFrom List.length map point].
  destruct (IH (Some p)) as [Hl Hm]. now rewrite Hl, Hm.
Qed.

(** Sums of rationals, up to equality of rationals. *)
Lemma fold_left_Qplus l a :
  (fold_left Qplus l a == a + fold_right Qplus 0 l)%Q.
Proof.
  revert a. induction l as [|x r IH]; intros a; cbn [fold_left fold_right].
  - ring.
  - rewrite IH. ring.
Qed.

Lemma distances_enhanceFrom prev l :
  (fold_right Qplus 0
     (map (fun p => match distanceFromPrevious p with
                    | Some d => d | None => 0 end)
          (enhanceFrom prev l))
   == match prev, l with
      | Some a, b :: _ =>
          calculateDistance (lat a, lng a) (lat b, lng b)
      | _, _ => 0
      end + pathLength l)%Q.
Proof.
  revert prev. induction l as [|p r IH]; intros prev.
  - destruct prev; cbn; ring.
  - cbn [History.enhanceFrom map fold_right distanceFromPrevious].
    rewrite IH. destruct r as [|q r'].
    + destruct prev; cbn; ring.
    + destruct prev; cbn [HistoryMore.pathLength]; ring.
Qed.

(** X20.  For a track that is not empty, the statistics count every
    sample, the total distance is the sum of the distances between
    consecutive samples in the order given, and the duration is the
    time of the last sample minus the time of the first (not a number
    when either time stamp is not a valid date). *)
Theorem statistics_follow_the_track :
  forall (first : LocationPoint) (rest : list LocationPoint),
  exists st,
    computeStatistics (first :: rest) = Some st
    /\ totalPoints st = Z.of_nat (List.length (first :: rest))
    /\ (totalDistance st == pathLength (first :: rest))%Q
    /\ startTime st = getTime (utcTime first)
    /\ endTime st = getTime (utcTime (last rest first))
    /\ duration st
       = match getTime (utcTime (last rest first)),
               getTime (utcTime first) with
         | Some e, Some b => Some (e - b)
         | _, _ => None
         end.
Proof.
  intros first rest. eexists. split; [reflexivity|].
  unfold statisticsOf.
  cbn [totalPoints totalDistance startTime endTime duration].
  assert (last (first :: rest) first = last rest first) as ->
    by (destruct rest; reflexivity).
  repeat split.
  unfold sumQ. rewrite fold_left_Qplus.
  unfold History.enhanceLocationData.
  rewrite (distances_enhanceFrom None (first :: rest)). ring.
Qed.

(** Bounds of a fold with [Qmin] and [Qmax]. *)
Lemma Math_minQ_le x l :
  (Math_minQ x l <= x)%Q
  /\ forall y, In y l -> (Math_minQ x l <= y)%Q.
Proof.
  unfold Math_minQ. revert x.
  induction l as [|a r IH]; intros x; cbn [fold_left].
  - split; [apply Qle_refl|intros y []].
  - destruct (IH (Qmin x a)) as [H1 H2]. split.
    + eapply Qle_trans; [exact H1|apply Q.le_min_l].
    + intros y [<-|Hin].
      * eapply Qle_trans; [exact H1|apply Q.le_min_r].
      * now apply H2.
Qed.

Lemma Math_maxQ_ge x l :
  (x <= Math_maxQ x l)%Q
  /\ forall y, In y l -> (y <= Math_maxQ x l)%Q.
Proof.
  unfold Math_maxQ. revert x.
  induction l as [|a r IH]; intros x; cbn [fold_left].
  - split; [apply Qle_refl|intros y []].
  - destruct (IH (Qmax x a)) as [H1 H2]. split.
    + eapply Qle_trans; [apply Q.le_max_l|exact H1].
    + intros y [<-|Hin].
      * eapply Qle_trans; [apply Q.le_max_r|exact H1].
      * now apply H2.
Qed.

(** X21.  The bounds of the statistics enclose the track: every sample
    lies between the south-west and the north-east corner, in latitude
    and in longitude. *)
Theorem bounds_enclose_the_track :
  forall (track : list LocationPoint) (st : LocationStatistics)
         (p : LocationPoint),
    computeStatistics track = Some st ->
    In p track ->
    (sw_lat (bounds st) <= lat p <= ne_lat (bounds st))%Q
    /\ (sw_lng (bounds st) <= lng p <= ne_lng (bounds st))%Q.
Proof.
  intros track st p Hst Hin.
  destruct track as [|first rest]; [discriminate|].
  injection Hst as <-. unfold statisticsOf.
  cbn [bounds sw_lat sw_lng ne_lat ne_lng].
  destruct (Math_minQ_le (lat first) (map lat rest)) as [A1 A2].
  destruct (Math_maxQ_ge (lat first) (map lat rest)) as [B1 B2].
  destruct (Math_minQ_le (lng first) (map lng rest)) as [C1 C2].
  destruct (Math_maxQ_ge (lng first) (map lng rest)) as [D1 D2].
  destruct Hin as [<-|Hin].
  - repeat split; assumption.
  - repeat split;
      [apply A2|apply B2|apply C2|apply D2]; now apply in_map.
Qed.

(** Bounds of a fold with [Z.max], and of a sum. *)
Lemma Math_maxZ_ge x l :
  x <= Math_maxZ x l /\ forall y, In y l -> y <= Math_maxZ x l.
Proof.
  unfold Math_maxZ. revert x.
  induction l as [|a r IH]; intros x; cbn [fold_left].
  - split; [lia|intros y []].
  - destruct (IH (Z.max x a)) as [H1 H2]. split; [lia|].
    intros y [<-|Hin]; [lia|now apply H2].
Qed.

Lemma sum_bounds (l : list Z) (b : Z) :
  (forall y, In y l -> 0 <= y <= b) ->
  0 <= fold_right Z.add 0 l <= Z.of_nat (List.length l) * b.
Proof.
  induction l as [|a r IH]; intros H; cbn [fold_right List.length].
  - lia.
  - assert (0 <= a <= b) by (apply H; now left).
    assert (0 <= fold_right Z.add 0 r <= Z.of_nat (List.length r) * b)
      by (apply IH; intros y Hy; apply H; now right).
    lia.
Qed.

Lemma maxSpeedOf_bounds (speeds : list Z) :
  (forall y, In y speeds -> 0 < y) ->
  0 <= maxSpeedOf speeds
  /\ (forall y, In y speeds -> y <= maxSpeedOf speeds).
Proof.
  intros Hpos. destruct speeds as [|x r]; cbn [maxSpeedOf].
  - split; [lia|intros y []].
  - destruct (Math_maxZ_ge x r) as [H1 H2].
    assert (0 < x) by (apply Hpos; now left). split; [lia|].
    intros y [<-|Hin]; [exact H1|now apply H2].
Qed.

(** X22.  The speeds of the statistics.  The maximum speed is not
    negative and no sample's rounded km/h speed exceeds it; the average
    speed lies between 0 and the maximum speed; and the maximum speed
    is 0 exactly when no sample has a rounded km/h speed above 0. *)
Theorem speeds_are_bounded_by_the_maximum :
  forall (track : list LocationPoint) (st : LocationStatistics),
    computeStatistics track = Some st ->
    0 <= maxSpeed st
    /\ (forall p, In p track -> kmh p <= maxSpeed st)
    /\ (0 <= averageSpeed st <= inject_Z (maxSpeed st))%Q
    /\ (maxSpeed st = 0 <-> movingSpeeds track = []).
Proof.
  intros track st Hst.
  destruct track as [|first rest]; [discriminate|].
  injection Hst as <-. unfold statisticsOf.
  cbn [maxSpeed averageSpeed].
  rewrite positiveSpeeds_moving, averageSpeedOf_mean.
  set (speeds := movingSpeeds (first :: rest)).
  assert (forall y, In y speeds -> 0 < y) as Hpos.
  { intros y Hy. apply filter_In in Hy. destruct Hy as [_ Hy].
    now apply Z.ltb_lt. }
  destruct (maxSpeedOf_bounds speeds Hpos) as [Hmax0 Hmax].
  split; [exact Hmax0|]. split; [|split].
  - intros p Hp. destruct (Z_lt_le_dec 0 (kmh p)) as [Hmov|Hstill];
      [|lia].
    apply Hmax. apply filter_In. split.
    + now apply in_map.
    + now apply Z.ltb_lt.
  - destruct speeds as [|x r] eqn:E.
    + cbn. split; apply Qle_refl.
    + unfold mean.
      assert (forall y, In y (x :: r) -> 0 <= y <= maxSpeedOf (x :: r))
        as Hb.
      { intros y Hy. split; [apply Z.lt_le_incl, Hpos, Hy|].
        now apply Hmax. }
      pose proof (sum_bounds (x :: r) _ Hb) as [Hs0 Hs1].
      set (n := Z.of_nat (List.length (x :: r))) in *.
      assert (0 < n) as Hn by (subst n; cbn [List.length]; lia).
      assert (0 < inject_Z n)%Q as HnQ
        by (change 0%Q with (inject_Z 0);
            rewrite <- (Zlt_Qlt 0 n); exact Hn).
      split.
      * apply Qle_shift_div_l; [exact HnQ|].
        rewrite Qmult_0_l. change 0%Q with (inject_Z 0).
        rewrite <- Zle_Qle. exact Hs0.
      * apply Qle_shift_div_r; [exact HnQ|].
        rewrite <- inject_Z_mult, <- Zle_Qle. lia.
  - split.
    + intros H0. destruct speeds as [|x r] eqn:E; [reflexivity|].
      exfalso.
      assert (0 < x) by (apply Hpos; now left).
      assert (x <= maxSpeedOf (x :: r)) by (apply Hmax; now left).
      lia.
    + intros ->. reflexivity.
Qed.

End Track.

Lemma Qfloor_unique (x : Q) (n : Z) :
  (inject_Z n <= x)%Q -> (x < inject_Z (n + 1))%Q -> Qfloor x = n.
Proof.
  intros Hle Hlt.
  assert (n <= Qfloor x).
  { rewrite <- (Qfloor_Z n). now apply Qfloor_resp_le. }
  assert (Qfloor x < n + 1).
  { rewrite Zlt_Qlt. eapply Qle_lt_trans; [apply Qfloor_le|exact Hlt]. }
  lia.
Qed.

(** X23.  The buckets of the compass labels.  A heading within 22.5
    degrees below and less than 22.5 degrees above [45 * n], for an
    integer [n >= 0], gets label number [n mod 8]: each label covers 45
    degrees centred on its direction, the lower end included, and N also
    covers the headings from 337.5 up to 360. *)
Theorem compass_bucket :
  forall (h : Q) (n : Z),
    0 <= n ->
    (inject_Z n * 45 - (45 # 2) <= h)%Q ->
    (h < inject_Z n * 45 + (45 # 2))%Q ->
    getDirectionText h = nth_error directions (Z.to_nat (n mod 8)).
Proof.
  intros h n Hn Hlo Hhi.
  assert (Math_round (h / 45) = n) as Hr.
  { unfold Math_round. apply Qfloor_unique.
    - assert (inject_Z n - (1 # 2) <= h / 45)%Q as H1.
      { apply Qle_shift_div_l; [reflexivity|].
        setoid_replace ((inject_Z n - (1 # 2)) * 45)%Q
          with (inject_Z n * 45 - (45 # 2))%Q by ring.
        exact Hlo. }
      setoid_replace (inject_Z n) with (inject_Z n - (1 # 2) + (1 # 2))%Q
        by ring.
      now apply Qplus_le_l.
    - assert (h / 45 < inject_Z n + (1 # 2))%Q as H1.
      { apply Qlt_shift_div_r; [reflexivity|].
        setoid_replace ((inject_Z n + (1 # 2)) * 45)%Q
          with (inject_Z n * 45 + (45 # 2))%Q by ring.
        exact Hhi. }
      rewrite inject_Z_plus.
      setoid_replace (inject_Z n + inject_Z 1)%Q
        with (inject_Z n + (1 # 2) + (1 # 2))%Q by ring.
      now apply Qplus_lt_l. }
  unfold getDirectionText. rewrite Hr.
  rewrite Z.rem_mod_nonneg by lia.
  pose proof (Z.mod_pos_bound n 8 eq_refl).
  unfold index_array.
  assert ((n mod 8 <? 0) = false) as -> by (apply Z.ltb_ge; lia).
  reflexivity.
Qed.

Lemma bounds_enclose_the_track_witness :
  exists st,
    Sample.computeStatistics [fixA; fixB; fixC] = Some st
    /\ (sw_lat (bounds st) <= lat fixC <= ne_lat (bounds st))%Q.
Proof.
  eexists. split; [reflexivity|].
  assert (In fixC [fixA; fixB; fixC]) as Hin by (cbn; tauto).
  exact (proj1 (bounds_enclose_the_track Sample.getTime
                  Sample.toLocaleString Sample.calculateDistance
                  [fixA; fixB; fixC] _ fixC eq_refl Hin)).
Defined.

Lemma speeds_are_bounded_by_the_maximum_witness :
  exists st,
    Sample.computeStatistics [fixA; fixB; fixC] = Some st
    /\ (0 <= averageSpeed st <= inject_Z (maxSpeed st))%Q.
Proof.
  eexists. split; [reflexivity|].
  exact (proj1 (proj2 (proj2
    (speeds_are_bounded_by_the_maximum Sample.getTime
       Sample.toLocaleString Sample.calculateDistance
       [fixA; fixB; fixC] _ eq_refl)))).
Defined.

Lemma compass_bucket_witness :
  getDirectionText 350 = Some "N"%string.
Proof.
  assert (0 <= 8) as Hn by discriminate.
  assert (inject_Z 8 * 45 - (45 # 2) <= 350)%Q as Hlo
    by (vm_compute; discriminate).
  assert (350 < inject_Z 8 * 45 + (45 # 2))%Q as Hhi
    by (vm_compute; reflexivity).
  exact (compass_bucket 350 8 Hn Hlo Hhi).
Defined.

End TrackMoreFacts.

(* ------------------------------------------------------------------ *)
(** ** Availability, range loads and cache keys *)

Module StoreMoreFacts.
Import History StoreSpec HistoryMore CacheSpec CacheMore JsMapFacts
       CacheFacts CacheMoreFacts StoreFacts HistoryMoreFacts.

Section Availability.
Variable DateT : Type.
Implicit Types (s : State DateT).

Local Abbreviation getAvailableDates := (History.getAvailableDates DateT).

Lemma getAvailableDates_hit targetId year month remote now later s c :
  eval (Cache.getAvailableDates (availabilityKey targetId year month) now)
       (cacheService s) = Some c ->
  getAvailableDates targetId year month remote now later s
  = (c,
     set_availableDates
       (JsMap.set (availableDates s)
          (availabilityKey targetId year month) c)
       (set_cacheService
          (exec (Cache.getAvailableDates
                   (availabilityKey targetId year month) now)
                (cacheService s)) s)).
Proof.
  intros H. cbv beta iota zeta delta [History.getAvailableDates bind].
  rewrite cache_run, H. reflexivity.
Qed.

Lemma getAvailableDates_loaded targetId year month remote now later s
      n r :
  eval (Cache.getAvailableDates (availabilityKey targetId year month) now)
       (cacheService s) = None ->
  retry 2 remote 0 = (Some r, n) ->
  a_code r = 200 ->
  getAvailableDates targetId year month remote now later s
  = (match a_data r with Some d => d | None => [] end,
     afterDatesSuccess DateT s (availabilityKey targetId year month)
       (PlaybackExist targetId year month) n now later
       (match a_data r with Some d => d | None => [] end)).
Proof.
  intros H R C. cbv beta iota zeta delta [History.getAvailableDates bind].
  rewrite cache_run, H. cbv beta iota. rewrite R, C.
  cbv beta iota delta [Z.eqb Pos.eqb].
  cbv beta iota zeta delta
    [setLoading clearError send modify updateAvailableDatesState ret].
  rewrite cache_run. reflexivity.
Qed.

Lemma getAvailableDates_failed targetId year month remote now later s n :
  eval (Cache.getAvailableDates (availabilityKey targetId year month) now)
       (cacheService s) = None ->
  (retry 2 remote 0 = (None, n)
   \/ exists r, retry 2 remote 0 = (Some r, n) /\ a_code r <> 200) ->
  getAvailableDates targetId year month remote now later s
  = ([],
     afterDatesFailure DateT s (availabilityKey targetId year month)
       (PlaybackExist targetId year month) n now).
Proof.
  intros H R. cbv beta iota zeta delta [History.getAvailableDates bind].
  rewrite cache_run, H. cbv beta iota.
  destruct R as [R|(r & R & C)]; rewrite R; [reflexivity|].
  assert ((a_code r =? 200) = false) as -> by (now apply Z.eqb_neq).
  reflexivity.
Qed.

(** X24.  The availability of a month that the archive answered with
    code 200 is reused: it is entered in the availability map under
    the key of device, year and month, and a second request for the
    same device, year and month within the default time to live
    returns the same days without sending anything. *)
Theorem availability_answer_is_reused :
  forall s (targetId year month : Z)
         (remote remote' : nat -> option AvailableDatesResponse)
         (now later now' later' : Z) (r : AvailableDatesResponse)
         (n : nat),
    eval (Cache.getAvailableDates
            (availabilityKey targetId year month) now)
         (cacheService s) = None ->
    retry 2 remote 0 = (Some r, n) ->
    a_code r = 200 ->
    now' - later <= defaultTtl (Cache.config (cacheService s)) ->
    let days := match a_data r with Some d => d | None => [] end in
    let s1 :=
      exec (getAvailableDates targetId year month remote now later) s in
    eval (getAvailableDates targetId year month remote now later) s
    = days
    /\ JsMap.get (availableDates s1)
         (availabilityKey targetId year month) = Some days
    /\ httpLog s1
       = repeat (PlaybackExist targetId year month) n ++ httpLog s
    /\ loading s1 = false
    /\ eval (getAvailableDates targetId year month remote' now' later')
            s1 = days
    /\ httpLog
         (exec (getAvailableDates targetId year month remote' now'
                  later') s1) = httpLog s1.
Proof.
  intros s targetId year month remote remote' now later now' later' r n
         H R C Httl days s1.
  pose proof (getAvailableDates_loaded targetId year month remote now
                later s n r H R C) as Hrun.
  fold days in Hrun.
  assert (s1 = afterDatesSuccess DateT s
                 (availabilityKey targetId year month)
                 (PlaybackExist targetId year month) n now later days)
    as Hs1 by (subst s1; unfold exec; now rewrite Hrun).
  assert (eval (Cache.getAvailableDates
                  (availabilityKey targetId year month) now')
               (cacheService s1) = Some days) as Hhit.
  { rewrite Hs1.
    cbn [afterDatesSuccess cacheService set_loading set_availableDates
         set_cacheService set_httpLog set_error].
    rewrite setAvailableDates_final.
    change (Cache.getAvailableDates
              (availabilityKey targetId year month) now')
      with (lookup Cache.availableDatesRef
                   (availabilityKey targetId year month) now').
    rewrite (put_then_get Cache.availableDatesRef
               availableDatesRef_laws).
    change (Cache.getAvailableDates
              (availabilityKey targetId year month) now)
      with (lookup Cache.availableDatesRef
                   (availabilityKey targetId year month) now).
    rewrite (lookup_config Cache.availableDatesRef
               availableDatesRef_laws).
    unfold datesTtl.
    assert ((defaultTtl (Cache.config (cacheService s))
             <? now' - later) = false) as -> by (apply Z.ltb_ge; lia).
    reflexivity. }
  split; [unfold eval; now rewrite Hrun|].
  split; [rewrite Hs1; cbn; apply get_set_same|].
  split; [rewrite Hs1; reflexivity|].
  split; [rewrite Hs1; reflexivity|].
  unfold eval, exec.
  rewrite (getAvailableDates_hit targetId year month remote' now' later'
             s1 days Hhit).
  split; reflexivity.
Qed.

(** X25.  A request for the availability of a month that fails, in
    transport on all three attempts or with an answer whose code is not
    200, returns no days, sets the error, switches the loading flag
    off and stores nothing: the availability map, the current track and
    the statistics are as before, and the next request for the same
    month finds nothing in the cache either. *)
Theorem availability_failure_is_not_cached :
  forall s (targetId year month : Z)
         (remote : nat -> option AvailableDatesResponse)
         (now later now' : Z) (n : nat),
    eval (Cache.getAvailableDates
            (availabilityKey targetId year month) now)
         (cacheService s) = None ->
    (retry 2 remote 0 = (None, n)
     \/ exists r, retry 2 remote 0 = (Some r, n) /\ a_code r <> 200) ->
    let s' :=
      exec (getAvailableDates targetId year month remote now later) s in
    eval (getAvailableDates targetId year month remote now later) s = []
    /\ error s' = Some "Failed to load available dates"%string
    /\ loading s' = false
    /\ availableDates s' = availableDates s
    /\ locationData s' = locationData s
    /\ _statistics s' = _statistics s
    /\ httpLog s'
       = repeat (PlaybackExist targetId year month) n ++ httpLog s
    /\ eval (Cache.getAvailableDates
               (availabilityKey targetId year month) now')
            (cacheService s') = None.
Proof.
  intros s targetId year month remote now later now' n H R s'.
  pose proof (getAvailableDates_failed targetId year month remote now
                later s n H R) as Hrun.
  subst s'. unfold eval at 1, exec. rewrite Hrun. cbn [fst snd].
  repeat split.
  cbn [afterDatesFailure cacheService set_loading set_error set_httpLog
       set_cacheService].
  change (Cache.getAvailableDates (availabilityKey targetId year month)
            now')
    with (lookup Cache.availableDatesRef
            (availabilityKey targetId year month) now').
  rewrite eval_lookup.
  change (Cache.getAvailableDates (availabilityKey targetId year month)
            now)
    with (lookup Cache.availableDatesRef
            (availabilityKey targetId year month) now).
  now rewrite (lookup_none_absent Cache.availableDatesRef
                 availableDatesRef_laws _ _ _ H).
Qed.

End Availability.

Section Range.
Variable DateT : Type.
Variable getTime : string -> option Z.
Variable toLocaleString : string -> string.
Variable calculateDistance : Q * Q -> Q * Q -> Q.
Implicit Types (s : State DateT).

Local Abbreviation getLocationDataRange :=
  (HistoryMore.getLocationDataRange DateT getTime toLocaleString
     calculateDistance).
Local Abbreviation computeStatistics :=
  (History.computeStatistics getTime toLocaleString calculateDistance).

(** X26.  A load of a date range never reads or writes the caches, so it
    neither answers from them nor stores its answer; it ends with the
    loading flag off and leaves the selection alone.  When it fails
    (three transport failures, or an answer whose code is not 200) it
    sets the error and returns the empty track, but the current track
    and the statistics stay as they were; when it succeeds it replaces
    the track, recomputes the statistics and clears the error. *)
Theorem range_load_bypasses_the_cache :
  forall s (query : DateRangeQuery)
         (remote : nat -> option LocationDataResponse) (later : Z),
    let s' := exec (getLocationDataRange query remote later) s in
    let out := eval (getLocationDataRange query remote later) s in
    cacheService s' = cacheService s
    /\ httpLog s' = httpLog s
    /\ loading s' = false
    /\ selectedDevice s' = selectedDevice s
    /\ selectedDate s' = selectedDate s
    /\ availableDates s' = availableDates s
    /\ snd out = snd (retry 2 remote 0)
    /\ match fst (retry 2 remote 0) with
       | Some r =>
           if r_code r =? 200 then
             let locations :=
               match r_data r with Some d => d | None => [] end in
             fst out = locations
             /\ locationData s' = locations
             /\ _statistics s' = computeStatistics locations
             /\ _lastUpdated s' = Some later
             /\ error s' = None
           else
             fst out = []
             /\ locationData s' = locationData s
             /\ _statistics s' = _statistics s
             /\ error s'
                = Some "Failed to load location data range"%string
       | None =>
           fst out = []
           /\ locationData s' = locationData s
           /\ _statistics s' = _statistics s
           /\ error s' = Some "Failed to load location data range"%string
       end.
Proof.
  intros s query remote later s' out. subst s' out.
  unfold eval, exec.
  cbv beta iota zeta delta [HistoryMore.getLocationDataRange bind].
  destruct (retry 2 remote 0) as [[r|] n]; cbn [fst snd].
  - destruct (r_code r =? 200); cbn; repeat split.
  - cbn. repeat split.
Qed.

End Range.

Lemma availability_answer_is_reused_witness :
  eval (Sample.getAvailableDates 7 2024 6 datesDown 100 110)
       (exec (Sample.getAvailableDates 7 2024 6 (fun _ => Some june) 1 2)
             deviceSelected)
  = [1; 3; 5].
Proof.
  assert (eval (Cache.getAvailableDates (availabilityKey 7 2024 6) 1)
               (cacheService deviceSelected) = None) as H by reflexivity.
  assert (retry 2 (fun _ : nat => Some june) 0 = (Some june, 1%nat)) as R
    by reflexivity.
  assert (a_code june = 200) as C by reflexivity.
  assert (100 - 2 <= defaultTtl (Cache.config (cacheService deviceSelected)))
    as Httl by (vm_compute; discriminate).
  exact (proj1 (proj2 (proj2 (proj2 (proj2
    (availability_answer_is_reused Sample.DateT deviceSelected 7 2024 6
       (fun _ => Some june) datesDown 1 2 100 110 june 1%nat
       H R C Httl)))))).
Defined.

Lemma availability_failure_is_not_cached_witness :
  error (exec (Sample.getAvailableDates 7 2024 6 datesDown 1 2)
              deviceSelected)
  = Some "Failed to load available dates"%string.
Proof.
  assert (eval (Cache.getAvailableDates (availabilityKey 7 2024 6) 1)
               (cacheService deviceSelected) = None) as H by reflexivity.
  assert (retry 2 datesDown 0 = (None, 3%nat)
          \/ exists r, retry 2 datesDown 0 = (Some r, 3%nat)
                       /\ a_code r <> 200) as R by (left; reflexivity).
  exact (proj1 (proj2
    (availability_failure_is_not_cached Sample.DateT deviceSelected
       7 2024 6 datesDown 1 2 50 3%nat H R))).
Defined.

End StoreMoreFacts.

(* ------------------------------------------------------------------ *)
(** ** Cache keys *)

Module KeyFacts.
Import History KeySpec.

Lemma digits_noDash (d : Decimal.uint) :
  noDash (NilEmpty.string_of_uint d).
Proof. induction d; cbn; auto; split; auto; discriminate. Qed.

Lemma number_digits (d : Decimal.uint) :
  noDash (NilZero.string_of_uint d)
  /\ NilZero.string_of_uint d <> EmptyString.
Proof.
  destruct d; cbn; (split; [|discriminate]);
    try (split; [discriminate|apply digits_noDash]).
  split; [discriminate|exact I].
Qed.

(** A string without separator followed by the separator is a prefix in
    one way only. *)
Lemma split_unique (a b x y : string) :
  noDash a -> noDash b ->
  (a ++ String "-" x)%string = (b ++ String "-" y)%string ->
  a = b /\ x = y.
Proof.
  revert b. induction a as [|c a IH]; intros b Ha Hb H.
  - destruct b as [|c' b]; cbn in H.
    + injection H as ->. now split.
    + injection H as <- _. destruct Hb as [Hb _]. now elim Hb.
  - destruct b as [|c' b]; cbn in H.
    + injection H as -> _. destruct Ha as [Ha _]. now elim Ha.
    + injection H as -> H. destruct Ha as [_ Ha], Hb as [_ Hb].
      destruct (IH b Ha Hb H) as [-> ->]. now split.
Qed.

Lemma numberToString_inj (a b : Z) :
  numberToString a = numberToString b -> a = b.
Proof.
  unfold numberToString. intros H.
  apply DecimalZ.to_int_inj.
  assert (forall z, Z.to_int z <> Decimal.Pos Decimal.Nil
                    /\ Z.to_int z <> Decimal.Neg Decimal.Nil) as Hnn.
  { intros [|p|p]; cbn; split; try discriminate;
      intros [= E]; now apply DecimalPos.Unsigned.to_uint_nonnil in E. }
  destruct (Hnn a) as [A1 A2], (Hnn b) as [B1 B2].
  pose proof (NilZero.isi _ A1 A2) as Ia.
  pose proof (NilZero.isi _ B1 B2) as Ib.
  rewrite H in Ia. rewrite Ia in Ib. now injection Ib.
Qed.

(** A key starts with the number of the device in one way only. *)
Lemma number_prefix_unique (a b : Z) (x y : string) :
  (numberToString a ++ "-" ++ x)%string
  = (numberToString b ++ "-" ++ y)%string ->
  a = b /\ x = y.
Proof.
  intros H.
  assert (numberToString a = numberToString b /\ x = y) as [Hn Hx].
  { unfold numberToString in *.
    destruct (Z.to_int a) as [da|da], (Z.to_int b) as [db|db];
      cbn [NilZero.string_of_int] in *;
      destruct (number_digits da) as [Na Ea], (number_digits db) as [Nb Eb].
    - now apply split_unique.
    - exfalso. destruct (NilZero.string_of_uint da) as [|c r];
        [now elim Ea|].
      cbn in H. injection H as -> _. destruct Na as [Na _]. now elim Na.
    - exfalso. destruct (NilZero.string_of_uint db) as [|c r];
        [now elim Eb|].
      cbn in H. injection H as <- _. destruct Nb as [Nb _]. now elim Nb.
    - cbn in H. injection H as H.
      destruct (split_unique _ _ _ _ Na Nb H) as [-> ->]. now split. }
  split; [now apply numberToString_inj|exact Hx].
Qed.

(** X27.  Cache keys do not collide.  Two availability keys are equal
    exactly when device, year and month are equal, and two track keys are
    equal exactly when the device is the same and the dates have the same
    date string. *)
Theorem keys_identify_what_they_cache :
  forall (DateT : Type) (toDateString : DateT -> string)
         (t1 y1 m1 t2 y2 m2 : Z) (d1 d2 : DateT),
    (availabilityKey t1 y1 m1 = availabilityKey t2 y2 m2
     <-> t1 = t2 /\ y1 = y2 /\ m1 = m2)
    /\ (locationKey DateT toDateString t1 d1
        = locationKey DateT toDateString t2 d2
        <-> t1 = t2 /\ toDateString d1 = toDateString d2).
Proof.
  intros DateT toDateString t1 y1 m1 t2 y2 m2 d1 d2. split; split.
  - unfold availabilityKey. intros H.
    apply number_prefix_unique in H. destruct H as [-> H].
    apply number_prefix_unique in H. destruct H as [-> H].
    apply numberToString_inj in H. now subst.
  - now intros (-> & -> & ->).
  - unfold locationKey. intros H.
    apply number_prefix_unique in H. tauto.
  - unfold locationKey. now intros [-> ->].
Qed.

End KeyFacts.
(* ------------------------------------------------------------------ *)
(** ** The map component's helpers *)

Module MapComponentFacts.
Import History HistoryMore MapComponent StatisticsFacts TrackMoreFacts.

Section Distance.
Variable getTime : string -> option Z.
Variable toLocaleString : string -> string.
Variable distance : Q * Q -> Q * Q -> Q.

Local Abbreviation totalStep := (MapComponent.totalStep distance).
Local Abbreviation calculateTotalDistance :=
  (MapComponent.calculateTotalDistance distance).
Local Abbreviation pathLength := (HistoryMore.pathLength distance).
Local Abbreviation computeStatistics :=
  (History.computeStatistics getTime toLocaleString distance).

Lemma totalStep_acc data t i :
  (totalStep data t i == t + totalStep data 0 i)%Q.
Proof.
  unfold MapComponent.totalStep.
  destruct (nth_error data (i - 1)), (nth_error data i); ring.
Qed.

Lemma fold_totalStep_acc data xs :
  forall t,
    (fold_left (totalStep data) xs t
     == t + fold_left (totalStep data) xs 0)%Q.
Proof.
  induction xs as [|x xs IH]; intros t; cbn [fold_left].
  - ring.
  - rewrite (IH (totalStep data t x)), (IH (totalStep data 0 x)).
    rewrite (totalStep_acc data t x). ring.
Qed.

Lemma totalStep_shift a l t i :
  (1 <= i)%nat -> totalStep (a :: l) t (S i) = totalStep l t i.
Proof.
  intros Hi. unfold MapComponent.totalStep.
  replace (S i - 1)%nat with (S (i - 1)) by lia. reflexivity.
Qed.

Lemma fold_totalStep_shift a l n :
  forall k t,
    (1 <= k)%nat ->
    fold_left (totalStep (a :: l)) (seq (S k) n) t
    = fold_left (totalStep l) (seq k n) t.
Proof.
  induction n as [|n IH]; intros k t Hk; [reflexivity|].
  cbn [seq fold_left]. rewrite totalStep_shift by exact Hk.
  apply IH. lia.
Qed.

Lemma calculateTotalDistance_pathLength l :
  (calculateTotalDistance l == pathLength l)%Q.
Proof.
  induction l as [|a [|b r] IH].
  - reflexivity.
  - reflexivity.
  - unfold MapComponent.calculateTotalDistance in *.
    cbn [List.length Nat.sub] in *. rewrite Nat.sub_0_r in *.
    cbn [seq fold_left]. rewrite fold_totalStep_shift by lia.
    rewrite fold_totalStep_acc, IH.
    cbn [HistoryMore.pathLength MapComponent.totalStep nth_error Nat.sub].
    ring.
Qed.

(** X28.  The map component's own total distance agrees with the
    statistics of the service: for every track that is not empty,
    [calculateTotalDistance] gives the total distance of the
    statistics, provided both use the same distance formula; for the
    empty track it gives 0. *)
Theorem map_distance_agrees_with_statistics :
  forall (track : list LocationPoint),
    (calculateTotalDistance [] == 0)%Q
    /\ match computeStatistics track with
       | Some st => (calculateTotalDistance track == totalDistance st)%Q
       | None => track = []
       end.
Proof.
  intros track. split; [reflexivity|].
  destruct track as [|first rest]; [reflexivity|].
  cbn [History.computeStatistics]. unfold statisticsOf.
  cbn [totalDistance].
  rewrite calculateTotalDistance_pathLength.
  unfold sumQ. rewrite fold_left_Qplus.
  unfold History.enhanceLocationData.
  rewrite (distances_enhanceFrom toLocaleString distance None
             (first :: rest)).
  ring.
Qed.

End Distance.

Lemma minutes_of_duration (ms : Z) :
  0 <= ms ->
  Z.rem ms (1000 * 60 * 60) / (1000 * 60) = (ms / (1000 * 60)) mod 60.
Proof.
  intros H. rewrite Z.rem_mod_nonneg by lia.
  change (1000 * 60 * 60) with (60000 * 60). change (1000 * 60) with 60000.
  pose proof (Z.div_mod ms 60000 ltac:(lia)) as Hms.
  pose proof (Z.mod_pos_bound ms 60000 ltac:(lia)) as Hr.
  pose proof (Z.div_mod (ms / 60000) 60 ltac:(lia)) as Hq.
  pose proof (Z.mod_pos_bound (ms / 60000) 60 ltac:(lia)) as Hm.
  rewrite <- (Z.mod_unique ms (60000 * 60) (ms / 60000 / 60)
             (60000 * ((ms / 60000) mod 60) + ms mod 60000)) by lia.
  symmetry. apply (Z.div_unique _ _ _ (ms mod 60000)); lia.
Qed.

(** X29.  [formatDuration] of a duration that is not negative shows its
    whole hours and the whole minutes left over, dropping the seconds:
    with [h] hours and [m < 60] minutes such that the duration holds
    [60 * h + m] whole minutes, the text is ["<h>h <m>m"], or ["<m>m"]
    alone when [h] is 0. *)
Theorem formatDuration_shows_hours_and_minutes :
  forall ms : Z,
    0 <= ms ->
    let h := ms / 3600000 in
    let m := (ms / 60000) mod 60 in
    0 <= h /\ 0 <= m < 60
    /\ ms / 60000 = 60 * h + m
    /\ formatDuration ms
       = if h =? 0
         then (numberToString m ++ "m")%string
         else (numberToString h ++ "h " ++ numberToString m ++ "m")%string.
Proof.
  intros ms H h m. subst h m.
  assert (0 <= ms / 3600000) as Hh by (apply Z.div_pos; lia).
  split; [exact Hh|]. split; [apply Z.mod_pos_bound; lia|]. split.
  - rewrite (Z.div_mod (ms / 60000) 60) at 1 by lia.
    rewrite Z.div_div by lia. reflexivity.
  - unfold formatDuration. cbv zeta. rewrite minutes_of_duration by exact H.
    change (1000 * 60 * 60) with 3600000. change (1000 * 60) with 60000.
    destruct (ms / 3600000 =? 0) eqn:E.
    + apply Z.eqb_eq in E. rewrite E. reflexivity.
    + apply Z.eqb_neq in E.
      assert ((0 <? ms / 3600000) = true) as -> by (apply Z.ltb_lt; lia).
      reflexivity.
Qed.

Lemma formatDuration_shows_hours_and_minutes_witness :
  formatDuration 5400000 = "1h 30m"%string.
Proof.
  assert (0 <= 5400000) as H by discriminate.
  exact (proj2 (proj2 (proj2
    (formatDuration_shows_hours_and_minutes 5400000 H)))).
Defined.

End MapComponentFacts.

(* ------------------------------------------------------------------ *)
(** ** The prefetch of the adjacent days *)

Module PrefetchFacts.
Import History StoreSpec HistoryMore CacheSpec CacheMore EvictionSpec
       PrefetchSpec JsMapFacts CacheFacts CacheMoreFacts StoreFacts.

(** The has-key check of the track cache answers by the content of the
    map. *)
Lemma hasLocationData_holdsUnexpired (cs : Cache.State) key now :
  eval (Cache.hasLocationData key now) cs = true
  <-> holdsUnexpired cs key now.
Proof.
  change (Cache.hasLocationData key now)
    with (Cache.hasValidCacheEntry Cache.locationDataRef key now).
  rewrite (eval_hasValidCacheEntry Cache.locationDataRef).
  unfold holdsUnexpired. cbn [Cache.read Cache.locationDataRef].
  destruct (JsMap.get (Cache.locationDataCache cs) key) as [e|].
  - unfold Cache.isExpired. split.
    + intros H. exists e. split; [reflexivity|].
      apply negb_true_iff, Z.ltb_ge in H. exact H.
    + intros (e' & [= <-] & H). apply negb_true_iff, Z.ltb_ge. exact H.
  - split; [discriminate|]. now intros (e & [=] & _).
Qed.

Section Service.
Variable DateT : Type.
Variable toDateString : DateT -> string.
Variable addDays : DateT -> Z -> DateT.
Variable getTime : string -> option Z.
Variable toLocaleString : string -> string.
Variable calculateDistance : Q * Q -> Q * Q -> Q.

Local Abbreviation locationKey := (History.locationKey DateT toDateString).
Local Abbreviation getLocationData :=
  (History.getLocationData DateT toDateString addDays getTime
     toLocaleString calculateDistance).
Local Abbreviation adjacent :=
  (StoreSpec.adjacent DateT toDateString addDays).

(** A load answered with code 200 schedules a prefetch for exactly
    those of the two adjacent dates for which the track cache, as the
    load leaves it, holds no unexpired entry. *)
Lemma prefetch_scheduled_by_cache_content
      (s : State DateT) (targetId : Z) (date : DateT)
      (remote : nat -> option LocationDataResponse) (now later : Z)
      (r : LocationDataResponse) (n : nat) :
  eval (Cache.getLocationData (locationKey targetId date) now)
       (cacheService s) = None ->
  retry 2 remote 0 = (Some r, n) ->
  r_code r = 200 ->
  let scheduled :=
    snd (eval (getLocationData targetId date remote now later) s) in
  let s' := exec (getLocationData targetId date remote now later) s in
  forall p,
    In p scheduled <->
    exists offset,
      (offset = -1 \/ offset = 1)
      /\ p = adjacent targetId date offset
      /\ ~ holdsUnexpired (cacheService s') (pf_key p) later.
Proof.
  intros H R C scheduled s' p. subst scheduled s'.
  unfold eval at 1, exec at 1.
  rewrite (getLocationData_loaded DateT toDateString addDays getTime
             toLocaleString calculateDistance _ _ _ _ _ _ _ _ H R C).
  cbn [fst snd].
  set (s1 := afterSuccess DateT s _ _ n now later _ _).
  rewrite (prefetchAdjacentDates_eval DateT toDateString addDays),
    !(prefetchOne_eval DateT toDateString addDays).
  split.
  - intros Hin. apply in_app_or in Hin.
    destruct Hin as [Hin|Hin];
      [exists (-1)|exists 1];
      match type of Hin with
      | In _ (if ?b then _ else _) => destruct b eqn:E
      end;
      try (now destruct Hin);
      destruct Hin as [<-|[]];
      (split; [auto|]); (split; [reflexivity|]);
      intros Hold; apply hasLocationData_holdsUnexpired in Hold;
      cbn [pf_key StoreSpec.adjacent] in Hold; congruence.
  - intros (offset & [->| ->] & -> & E); apply in_or_app;
      cbn [pf_key StoreSpec.adjacent] in E;
      [left|right];
      match goal with
      | |- In _ (if ?b then _ else _) => destruct b eqn:Hb
      end;
      try (now left);
      exfalso; apply E; now apply hasLocationData_holdsUnexpired.
Qed.

(** A prefetch that is answered, with whatever code: the selection,
    the current track, the statistics, the loading flag and the error
    stay as they were, one request is sent, and the track cache holds
    the data of the answer under the key of the adjacent day, stamped
    with the time of the answer and with twice the default time to
    live, so that a load of that day within that time is served from
    the cache. *)
Lemma prefetch_answer_is_cached
      (x : State DateT) (p : Prefetch DateT)
      (response : LocationDataResponse) (t t' : Z) :
  let locations :=
    match r_data response with Some d => d | None => [] end in
  let x' := exec (prefetchRun p (Some response) t) x in
  foreground_unchanged DateT x x'
  /\ httpLog x' = Playback (pf_targetId p) (pf_date p) :: httpLog x
  /\ JsMap.get (Cache.locationDataCache (cacheService x')) (pf_key p)
     = Some (freshEntry locations
               (defaultTtl (Cache.config (cacheService x)) * 2) t)
  /\ (t' - t <= defaultTtl (Cache.config (cacheService x)) * 2 ->
      eval (Cache.getLocationData (pf_key p) t') (cacheService x')
      = Some locations).
Proof.
  intros locations x'.
  destruct (prefetchRun_effect DateT p (Some response) t x)
    as (F & Lg & Hc).
  fold x' in F, Lg, Hc. fold locations in Hc.
  split; [exact F|]. split; [exact Lg|]. rewrite Hc.
  rewrite setLocationData_final. split.
  - apply (setCachedData_stores Cache.locationDataRef
             locationDataRef_laws).
  - intros Ht.
    change (Cache.getLocationData (pf_key p) t')
      with (lookup Cache.locationDataRef (pf_key p) t').
    rewrite (put_then_get Cache.locationDataRef locationDataRef_laws).
    unfold locationTtl.
    assert ((defaultTtl (Cache.config (cacheService x)) * 2 <? t' - t)
            = false) as -> by (apply Z.ltb_ge; lia).
    reflexivity.
Qed.

(** A prefetch whose request fails in transport sends that one request
    and changes nothing else: no error is recorded, no second request
    is sent and the caches are as they were. *)
Lemma prefetch_transport_failure_is_swallowed
      (x : State DateT) (p : Prefetch DateT) (t : Z) :
  exec (prefetchRun p None t) x
  = set_httpLog (Playback (pf_targetId p) (pf_date p) :: httpLog x) x.
Proof. reflexivity. Qed.

End Service.

(** C9 on the code: the track of day 19877 is loaded, which schedules
    the prefetch of day 19878, and the archive answers that prefetch with
    code 500 and no data.  The prefetch stores the empty track under the
    key of day 19878 as if the day had been loaded, so the user who then
    opens day 19878 gets the empty track from the cache: no request is
    sent, no error is shown, although the archive holds a track for the
    day.  The same answer given to a foreground load sets the error and
    stores nothing; a prefetch that fails in transport stores nothing
    either, and the load that follows asks the archive and gets the
    track. *)
Theorem rejected_prefetch_is_cached_as_a_track :
  In nextDay
     (snd (eval (Sample.getLocationData 7 19877 (Sample.remoteOk dayTrack)
                   30 40) deviceSelected))
  /\ r_code rejected = 500
  /\ JsMap.has (Cache.locationDataCache (cacheService dayLoaded))
       "7-19878" = false
  /\ JsMap.get (Cache.locationDataCache (cacheService prefetchRejected))
       "7-19878"
     = Some (freshEntry [] 1200000 1040)
  /\ error prefetchRejected = None
  /\ locationData prefetchRejected = dayTrack
  /\ eval openNextDay prefetchRejected = ([], [])
  /\ httpLog (exec openNextDay prefetchRejected)
     = httpLog prefetchRejected
  /\ error (exec openNextDay prefetchRejected) = None
  /\ locationData (exec openNextDay prefetchRejected) = []
  /\ JsMap.has (Cache.locationDataCache (cacheService prefetchUnreachable))
       "7-19878" = false
  /\ fst (eval openNextDay prefetchUnreachable) = [first_fix]
  /\ httpLog (exec openNextDay prefetchUnreachable)
     = Playback 7 19878 :: httpLog prefetchUnreachable
  /\ error (exec (Sample.getLocationData 7 19878 remoteRejects 2000 2010)
                 dayLoaded)
     = Some "Failed to load location data"%string
  /\ JsMap.has
       (Cache.locationDataCache
          (cacheService
             (exec (Sample.getLocationData 7 19878 remoteRejects
                      2000 2010) dayLoaded)))
       "7-19878" = false.
Proof. vm_compute. repeat split; auto. Qed.

End PrefetchFacts.
